(** * Investigator-Brochure to Drug-Safety-Report pipeline: mapping parser,
      section index and content matcher.

    A shallow embedding of [src/mapping_parser.py], of the section ordering
    of [src/pdf_indexer.py] and of [src/content_matcher.py], with the
    properties their specification states about them.

    Conventions.
    - A Python [str] is a [string]; a character is a code point below 256
      (Latin-1), so [str.lower], [str.isspace] and the classes [\d], [\s],
      [\w] of [re] are given on exactly these code points.
    - A Python [int] is a [Z].
    - A Python [dict] is an association list in insertion order; assigning to
      a key that is present overwrites the value in place.
    - A call either returns or raises; where a claim depends on it the
      outcome and the trace of index lookups are explicit. *)

From Stdlib Require Import Bool Arith ZArith List Ascii String Lia.
From Stdlib Require Import Sorting.Sorted Sorting.Permutation.
From Stdlib Require Import Numbers.DecimalString.
Import ListNotations.
Open Scope string_scope.

(* ================================================================== *)
(** * Python string primitives *)
(* ================================================================== *)

Module Py.

Definition code (c : ascii) : nat := nat_of_ascii c.

Definition between (lo hi : nat) (c : ascii) : bool :=
  (lo <=? code c)%nat && (code c <=? hi)%nat.

(** [\d] of [re] on text patterns: decimal digits (category Nd). *)
Definition isdigit (c : ascii) : bool := between 48 57 c.

(** [str.isspace], which is also [\s] and what [str.strip()] removes:
    TAB..CR, FS..US, SPACE, NEL and NBSP. *)
Definition isspace (c : ascii) : bool :=
  between 9 13 c || between 28 32 c || (code c =? 133)%nat || (code c =? 160)%nat.

(** [\w]: alphanumeric code points and the underscore. *)
Definition isword (c : ascii) : bool :=
  between 48 57 c || between 65 90 c || between 97 122 c || (code c =? 95)%nat
  || (code c =? 170)%nat || between 178 179 c || (code c =? 181)%nat
  || between 185 186 c || between 188 190 c
  || between 192 214 c || between 216 246 c || between 248 255 c.

(** One character of [str.lower]: A-Z and the upper-case letters
    U+00C0..U+00DE (the multiplication sign U+00D7 apart) move up by 32. *)
Definition lower_char (c : ascii) : ascii :=
  if between 65 90 c || (between 192 222 c && negb (code c =? 215)%nat)
  then ascii_of_nat (code c + 32)
  else c.

Fixpoint lower (s : string) : string :=
  match s with
  | EmptyString => EmptyString
  | String c s' => String (lower_char c) (lower s')
  end.

(** [kw in s] on strings: [kw] occurs in [s] as a contiguous run. *)
Fixpoint contains (kw s : string) : bool :=
  if prefix kw s then true
  else match s with
       | EmptyString => false
       | String _ s' => contains kw s'
       end.

(** [c in s] for a single character. *)
Fixpoint mem_char (c : ascii) (s : string) : bool :=
  match s with
  | EmptyString => false
  | String d s' => Ascii.eqb c d || mem_char c s'
  end.

(** [s.split(sep)] for a one-character separator: never an empty list. *)
Fixpoint split (sep : ascii) (s : string) : list string :=
  match s with
  | EmptyString => [EmptyString]
  | String c s' =>
      if Ascii.eqb c sep then EmptyString :: split sep s'
      else match split sep s' with
           | h :: t => String c h :: t
           | [] => [String c EmptyString]
           end
  end.

Fixpoint lstrip_by (p : ascii -> bool) (s : string) : string :=
  match s with
  | EmptyString => EmptyString
  | String c s' => if p c then lstrip_by p s' else s
  end.

Fixpoint rstrip_by (p : ascii -> bool) (s : string) : string :=
  match s with
  | EmptyString => EmptyString
  | String c s' =>
      match rstrip_by p s' with
      | EmptyString => if p c then EmptyString else String c EmptyString
      | r => String c r
      end
  end.

Definition strip_by (p : ascii -> bool) (s : string) : string :=
  rstrip_by p (lstrip_by p s).

(** [s.strip()] *)
Definition strip (s : string) : string := strip_by isspace s.

(** [s.strip(chars)] *)
Definition strip_chars (chars s : string) : string :=
  strip_by (fun c => mem_char c chars) s.

(** The longest prefix of [s] whose characters satisfy [p], and the rest. *)
Fixpoint span (p : ascii -> bool) (s : string) : string * string :=
  match s with
  | EmptyString => (EmptyString, EmptyString)
  | String c s' =>
      if p c then let (run, rest) := span p s' in (String c run, rest)
      else (EmptyString, s)
  end.

(** [s[n:]] for [n >= 0] *)
Fixpoint drop (n : nat) (s : string) : string :=
  match n, s with
  | O, _ => s
  | S n', String _ s' => drop n' s'
  | S _, EmptyString => EmptyString
  end.

(** [s[:n]] for [n >= 0] *)
Fixpoint take (n : nat) (s : string) : string :=
  match n, s with
  | S n', String c s' => String c (take n' s')
  | _, _ => EmptyString
  end.

(** [s.replace(old, '')] for a non-empty [old]: occurrences are removed from
    left to right without overlap; [skip] counts the characters of the
    occurrence under way that are still to be dropped. *)
Fixpoint remove_from (old : string) (skip : nat) (s : string) : string :=
  match s with
  | EmptyString => EmptyString
  | String c s' =>
      match skip with
      | S k => remove_from old k s'
      | O => if prefix old s then remove_from old (String.length old - 1) s'
             else String c (remove_from old 0 s')
      end
  end.

Definition remove_all (old s : string) : string :=
  match old with
  | EmptyString => s
  | _ => remove_from old 0 s
  end.

(** [sep.join(parts)] *)
Definition join (sep : string) (parts : list string) : string :=
  String.concat sep parts.

(** The value of a run of decimal digits, most significant first. *)
Definition digit_value (c : ascii) : Z := Z.of_nat (code c - 48).

Fixpoint digits_value (acc : Z) (s : string) : Z :=
  match s with
  | EmptyString => acc
  | String c s' => digits_value (10 * acc + digit_value c) s'
  end.

Fixpoint all_chars (p : ascii -> bool) (s : string) : bool :=
  match s with
  | EmptyString => true
  | String c s' => p c && all_chars p s'
  end.

(** [int(s)] on a non-empty run of decimal digits; on every other string of
    this model [None] stands for the [ValueError] that [int] raises on text
    that is not a number (signs, underscores and surrounding blanks, which
    [int] also reads, do not occur in the strings it is applied to here). *)
Definition int (s : string) : option Z :=
  match s with
  | EmptyString => None
  | _ => if all_chars isdigit s then Some (digits_value 0 s) else None
  end.

(** [str(n)] on an integer. *)
Definition str_of_int (n : Z) : string := NilZero.string_of_int (Z.to_int n).

(** [range(lo, hi)] as a list. *)
Fixpoint range_from (lo : Z) (n : nat) : list Z :=
  match n with
  | O => []
  | S n' => lo :: range_from (lo + 1) n'
  end.

Definition range (lo hi : Z) : list Z := range_from lo (Z.to_nat (hi - lo)).

(** [sorted(list(set(l)))] on integers: insertion into an ascending list
    that holds no value twice. *)
Fixpoint insert_uniq (x : Z) (l : list Z) : list Z :=
  match l with
  | [] => [x]
  | y :: l' =>
      if (x <? y)%Z then x :: l
      else if (x =? y)%Z then l
      else y :: insert_uniq x l'
  end.

Definition sorted_set (l : list Z) : list Z := fold_right insert_uniq [] l.

(** An exception: the [KeyError] of a key that a dict does not hold, or
    any other exception with its message. *)
Inductive Exn : Type :=
| KeyError (key : string)
| Error (message : string).

(** [str(e)]: a [KeyError] shows the key between single quotes. *)
Definition exn_str (e : Exn) : string :=
  match e with
  | KeyError key => "'" ++ key ++ "'"
  | Error message => message
  end.

(** A call returns a value or raises. *)
Inductive Outcome (A : Type) : Type :=
| Returned (a : A)
| Raised (e : Exn).
Arguments Returned {A} a.
Arguments Raised {A} e.

(** The double quote, and the line feed. *)
Definition dquote : string := String (ascii_of_nat 34) EmptyString.
Definition nl : string := String (ascii_of_nat 10) EmptyString.

End Py.

(* ================================================================== *)
(** * Dictionaries in insertion order *)
(* ================================================================== *)

Module Dict.

Section Dict.
Context {V : Type}.

Definition t := list (string * V).

Fixpoint get (k : string) (d : t) : option V :=
  match d with
  | [] => None
  | (k', v) :: d' => if String.eqb k k' then Some v else get k d'
  end.

(** [d[k] = v] *)
Fixpoint set (k : string) (v : V) (d : t) : t :=
  match d with
  | [] => [(k, v)]
  | (k', v') :: d' =>
      if String.eqb k k' then (k, v) :: d' else (k', v') :: set k v d'
  end.

Definition keys (d : t) : list string := map fst d.
End Dict.

Arguments t : clear implicits.

End Dict.

(* ================================================================== *)
(** * mapping_parser.py *)
(* ================================================================== *)

Module MappingParser.
Import Py.

(** A field-mapping record is a Python dict; a key can be absent
    ([mapping_info.get(key, default)] and the [KeyError] of
    [mapping_info[key]] tell the two cases apart). *)
Record MappingInfo : Type := mkMappingInfo {
  field_description : option string;
  ib_section : option string;
  ib_pages : option (list Z);
  mapping_type : option string;
  notes : option string
}.

Definition unavailable_keywords : list string :=
  [ "not in ib"; "external source"; "safety database"; "case report";
    "requires query"; "not available"; "n/a" ].

Definition synthesis_keywords : list string :=
  [ "synthesis"; "combine"; "summarize"; "multiple sections"; "rewrite";
    "adapt" ].

(** [MappingParser._determine_mapping_type] *)
Definition _determine_mapping_type (ib_section notes : string) : string :=
  let section_lower := lower ib_section in
  let notes_lower := lower notes in
  if existsb (fun keyword =>
                contains keyword section_lower || contains keyword notes_lower)
             unavailable_keywords
  then "unavailable"
  else if existsb (fun keyword => contains keyword notes_lower)
                  synthesis_keywords
  then "synthesis_required"
  else if contains "+" ib_section || contains "," ib_section
          || contains "and" section_lower
  then "synthesis_required"
  else "direct_extract".

(** [re.match(r'(\d+)\s*-\s*(\d+)', part)]: the two groups.  The classes
    [\d], [\s] and the dash exclude one another, so the greedy runs are the
    only way to match. *)
Definition range_match (part : string) : option (string * string) :=
  let (start, after_start) := span isdigit part in
  match start with
  | EmptyString => None
  | _ =>
      match snd (span isspace after_start) with
      | String "-" after_dash =>
          let (stop, _) := span isdigit (snd (span isspace after_dash)) in
          match stop with
          | EmptyString => None
          | _ => Some (start, stop)
          end
      | _ => None
      end
  end.

(** [re.search(r'\d+', part)]: the first run of digits. *)
Fixpoint search_digits (part : string) : option string :=
  match part with
  | EmptyString => None
  | String c part' =>
      if isdigit c then Some (fst (span isdigit part))
      else search_digits part'
  end.

(** [int] on a group matched by [\d+]. *)
Definition int_of_digits (s : string) : Z := digits_value 0 s.

(** The pages one comma-separated piece adds to [page_list]. *)
Definition pages_of_part (part : string) : list Z :=
  let part := strip part in
  if mem_char "-" part then
    match range_match part with
    | Some (s, e) => range (int_of_digits s) (int_of_digits e + 1)
    | None => []
    end
  else
    match search_digits part with
    | Some d => [int_of_digits d]
    | None => []
    end.

(** [MappingParser._parse_pages] *)
Definition _parse_pages (pages_str : string) : list Z :=
  if (pages_str =? "") || (pages_str =? "N/A") || (pages_str =? "-") then []
  else sorted_set (flat_map pages_of_part (split "," pages_str)).

Definition not_bar (c : ascii) : bool := negb (Ascii.eqb c "|").

(** One cell [[^|]+] or [[^|]*] and the bar that closes it. *)
Definition cell_then_bar (nonempty : bool) (s : string)
  : option (string * string) :=
  let (cell, rest) := span not_bar s in
  match rest with
  | String _ rest' =>
      if nonempty && (cell =? "") then None else Some (cell, rest')
  | EmptyString => None
  end.

(** [table_row_pattern.match(line)]: the four groups.  The pattern is a
    bar, three non-empty cells free of bars, each closed by a bar, and a
    fourth cell free of bars, which can be empty, closed by a bar; what
    follows on the line is not looked at. *)
Definition table_row_match (line : string)
  : option (string * string * string * string) :=
  match line with
  | String "|" r0 =>
      match cell_then_bar true r0 with
      | Some (g1, r1) =>
          match cell_then_bar true r1 with
          | Some (g2, r2) =>
              match cell_then_bar true r2 with
              | Some (g3, r3) =>
                  match cell_then_bar false r3 with
                  | Some (g4, _) => Some (g1, g2, g3, g4)
                  | None => None
                  end
              | None => None
              end
          | None => None
          end
      | None => None
      end
  | _ => None
  end.

(** [[A-Z0-9_]] *)
Definition placeholder_char (c : ascii) : bool :=
  between 65 90 c || between 48 57 c || Ascii.eqb c "_".

(** [\[INSERT_[A-Z0-9_]+\]] matched at the start of [s]. *)
Definition placeholder_at (s : string) : option string :=
  if prefix "[INSERT_" s then
    let (body, rest) := span placeholder_char (drop 8 s) in
    match body, rest with
    | String _ _, String "]" _ => Some ("[INSERT_" ++ body ++ "]")
    | _, _ => None
    end
  else None.

(** [re.search(r'\[INSERT_[A-Z0-9_]+\]', field)]: the leftmost match. *)
Fixpoint placeholder_search (field : string) : option string :=
  match placeholder_at field with
  | Some p => Some p
  | None =>
      match field with
      | EmptyString => None
      | String _ field' => placeholder_search field'
      end
  end.

(** The body of the loop of [parse_mapping_file] on one line: the entry the
    line adds to [mappings], if any. *)
Definition parse_row (line : string) : option (string * MappingInfo) :=
  match table_row_match line with
  | None => None
  | Some (g1, g2, g3, g4) =>
      let field := strip g1 in
      let ib_section := strip g2 in
      let pages := strip g3 in
      let notes := strip g4 in
      if existsb (String.eqb field)
                 ["DSR Template Field"; "DSR Field"; "---"; ""]
      then None
      else if contains "---" field || contains "===" field then None
      else
        match placeholder_search field with
        | None => None
        | Some placeholder =>
            let page_list := _parse_pages pages in
            let mapping_type := _determine_mapping_type ib_section notes in
            Some (placeholder,
                  {| field_description :=
                       Some (strip_chars " -:" (remove_all placeholder field));
                     ib_section := Some ib_section;
                     ib_pages := Some page_list;
                     mapping_type := Some mapping_type;
                     notes := Some notes |})
        end
  end.

(** One turn of the loop: [mappings[placeholder] = {...}] for a line that
    is a row with a placeholder. *)
Definition add_row (mappings : Dict.t MappingInfo) (line : string)
  : Dict.t MappingInfo :=
  match parse_row line with
  | Some (placeholder, info) => Dict.set placeholder info mappings
  | None => mappings
  end.

(** [MappingParser.parse_mapping_file], on the text read from the file. *)
Definition parse_mapping_file (content : string) : Dict.t MappingInfo :=
  fold_left add_row (split (ascii_of_nat 10) content) [].

(** A call of [parse_mapping_file] on the text of the file: the body holds
    no [raise] and applies to the text only operations that do not raise,
    so the call returns what the loop has built. *)
Definition parse_mapping_file_call (content : string)
  : Outcome (Dict.t MappingInfo) :=
  Returned (parse_mapping_file content).

(** ** The parser object and its queries *)

(** The state of a [MappingParser]: [self.mapping_dict].  The text of the
    mapping file, which [parse_mapping_file] reads anew at every call, is
    handed to the methods that can parse. *)
Record Parser : Type := mkParser {
  mapping_dict : Dict.t MappingInfo
}.

(** [MappingParser.__init__], once the file is known to exist. *)
Definition new_parser : Parser := {| mapping_dict := [] |}.

(** [if not self.mapping_dict: self.parse_mapping_file()] *)
Definition ensure_parsed (self : Parser) (content : string) : Parser :=
  match mapping_dict self with
  | [] => {| mapping_dict := parse_mapping_file content |}
  | _ :: _ => self
  end.

(** The empty dict [{}] as a record: no key is present. *)
Definition no_mapping : MappingInfo :=
  {| field_description := None; ib_section := None; ib_pages := None;
     mapping_type := None; notes := None |}.

(** [MappingParser.get_mapping_for_field]: the result and the parser as the
    call leaves it. *)
Definition get_mapping_for_field (self : Parser) (content field_name : string)
  : MappingInfo * Parser :=
  let self := ensure_parsed self content in
  (match Dict.get field_name (mapping_dict self) with
   | Some mapping => mapping
   | None => no_mapping
   end, self).

(** The dict that [get_all_fields_by_priority] returns. *)
Record Priorities : Type := mkPriorities {
  priority_1_direct : list string;
  priority_2_synthesis : list string;
  priority_3_unavailable : list string
}.

(** The loop of [get_all_fields_by_priority]. *)
Fixpoint group_by_priority (items : list (string * MappingInfo))
         (priorities : Priorities) : Outcome Priorities :=
  match items with
  | [] => Returned priorities
  | (field, mapping) :: items' =>
      match mapping_type mapping with
      | None => Raised (KeyError "mapping_type")
      | Some mapping_type =>
          group_by_priority items'
            (if mapping_type =? "direct_extract" then
               {| priority_1_direct :=
                    (priority_1_direct priorities ++ [field])%list;
                  priority_2_synthesis := priority_2_synthesis priorities;
                  priority_3_unavailable := priority_3_unavailable priorities |}
             else if mapping_type =? "synthesis_required" then
               {| priority_1_direct := priority_1_direct priorities;
                  priority_2_synthesis :=
                    (priority_2_synthesis priorities ++ [field])%list;
                  priority_3_unavailable := priority_3_unavailable priorities |}
             else
               {| priority_1_direct := priority_1_direct priorities;
                  priority_2_synthesis := priority_2_synthesis priorities;
                  priority_3_unavailable :=
                    (priority_3_unavailable priorities ++ [field])%list |})
      end
  end.

(** [MappingParser.get_all_fields_by_priority] *)
Definition get_all_fields_by_priority (self : Parser) (content : string)
  : Outcome Priorities * Parser :=
  let self := ensure_parsed self content in
  (group_by_priority (mapping_dict self)
     {| priority_1_direct := []; priority_2_synthesis := [];
        priority_3_unavailable := [] |}, self).

(** The loop of [get_fields_requiring_ai]. *)
Fixpoint collect_ai_fields (items : list (string * MappingInfo))
         (ai_fields : list string) : Outcome (list string) :=
  match items with
  | [] => Returned ai_fields
  | (field, mapping) :: items' =>
      match mapping_type mapping with
      | None => Raised (KeyError "mapping_type")
      | Some mapping_type =>
          collect_ai_fields items'
            (if mapping_type =? "synthesis_required"
             then (ai_fields ++ [field])%list else ai_fields)
      end
  end.

(** [MappingParser.get_fields_requiring_ai] *)
Definition get_fields_requiring_ai (self : Parser) (content : string)
  : Outcome (list string) * Parser :=
  let self := ensure_parsed self content in
  (collect_ai_fields (mapping_dict self) [], self).

(** [MappingParser.get_all_field_names] *)
Definition get_all_field_names (self : Parser) (content : string)
  : list string * Parser :=
  let self := ensure_parsed self content in
  (Dict.keys (mapping_dict self), self).

End MappingParser.

(* ================================================================== *)
(** * pdf_indexer.py: the order of sections *)
(* ================================================================== *)

Module IBIndexer.
Import Py.

(** An entry of [self.sections]: title and pages of a detected heading (its
    [content] list stays empty throughout and is left out). *)
Record SectionData : Type := mkSectionData {
  title : string;
  pages : list Z
}.

(** The nodes of the hierarchical index, as [_build_hierarchical_sections]
    makes them: a title and pages in every node, and subsections in every
    top-level node (the defaults of the [.get] calls that read them in the
    matcher are for keys that this index always holds). *)
Record SubSection : Type := mkSubSection {
  sub_title : string;
  sub_pages : list Z
}.

Record TopSection : Type := mkTopSection {
  top_title : string;
  top_pages : list Z;
  subsections : Dict.t SubSection
}.

(** [[f(x) for x in l]] where [f] can raise. *)
Fixpoint traverse {A B : Type} (f : A -> option B) (l : list A)
  : option (list B) :=
  match l with
  | [] => Some []
  | x :: l' =>
      match f x, traverse f l' with
      | Some y, Some ys => Some (y :: ys)
      | _, _ => None
      end
  end.

(** [IBIndexer._section_sort_key] *)
Definition _section_sort_key (section_num : string) : option (list Z) :=
  traverse int (split "." section_num).

(** [a < b] on tuples of integers: the first differing component decides,
    and a proper prefix is smaller. *)
Fixpoint tuple_ltb (a b : list Z) : bool :=
  match a, b with
  | _, [] => false
  | [], _ :: _ => true
  | x :: a', y :: b' =>
      (x <? y)%Z || ((x =? y)%Z && tuple_ltb a' b')
  end.

Section Sorted.
Context {A : Type}.

(** One step of a stable sort that compares keys with [<] only: [x], which
    came before every element of [l], goes in front of the first element
    whose key is not smaller than its own. *)
Fixpoint insert_by_key (x : list Z * A) (l : list (list Z * A))
  : list (list Z * A) :=
  match l with
  | [] => [x]
  | y :: l' =>
      if tuple_ltb (fst y) (fst x) then y :: insert_by_key x l'
      else x :: l
  end.

Definition sort_by_key (l : list (list Z * A)) : list (list Z * A) :=
  fold_right insert_by_key [] l.

End Sorted.

(** The key of an item, next to the item. *)
Definition with_key {V : Type} (item : string * V)
  : option (list Z * (string * V)) :=
  match _section_sort_key (fst item) with
  | Some k => Some (k, item)
  | None => None
  end.

(** [sorted(items, key=lambda x: self._section_sort_key(x[0]))]: the keys
    are computed first, and the call raises when one of them does. *)
Definition sorted_items {V : Type} (items : list (string * V))
  : option (list (string * V)) :=
  match traverse with_key items with
  | Some keyed => Some (map snd (sort_by_key keyed))
  | None => None
  end.

(** The body of the loop of [_build_hierarchical_sections]. *)
Definition add_section (hierarchical : Dict.t TopSection)
           (item : string * SectionData) : Dict.t TopSection :=
  let (section_num, section_data) := item in
  let parts := split "." section_num in
  if (List.length parts =? 1)%nat then
    Dict.set section_num
             {| top_title := title section_data;
                top_pages := pages section_data;
                subsections := [] |} hierarchical
  else
    let parent := hd EmptyString parts in
    match Dict.get parent hierarchical with
    | Some node =>
        Dict.set parent
                 {| top_title := top_title node;
                    top_pages := top_pages node;
                    subsections :=
                      Dict.set section_num
                               {| sub_title := title section_data;
                                  sub_pages := pages section_data |}
                               (subsections node) |} hierarchical
    | None => hierarchical
    end.

(** [IBIndexer._build_hierarchical_sections] on [self.sections]. *)
Definition _build_hierarchical_sections (sections : Dict.t SectionData)
  : option (Dict.t TopSection) :=
  match sorted_items sections with
  | Some items => Some (fold_left add_section items [])
  | None => None
  end.

(** ** Section headings, section content and metadata *)

(** The number of a heading, [\d+(?:\.\d+)*\.?], read greedily from a text
    that starts with a digit: digits, groups of a dot and digits, and one
    more dot if it is there.  A shorter match ends in front of a digit or
    of a dot, where the blank that the heading pattern asks for next
    cannot be, so the greedy match is the only one that counts. *)
Fixpoint number_run (s : string) : string * string :=
  match s with
  | EmptyString => (EmptyString, EmptyString)
  | String c s' =>
      if isdigit c then
        let (n, r) := number_run s' in (String c n, r)
      else if Ascii.eqb c "." then
        match s' with
        | String d _ =>
            if isdigit d then
              let (n, r) := number_run s' in (String c n, r)
            else (String c EmptyString, s')
        | EmptyString => (String c EmptyString, s')
        end
      else (EmptyString, s)
  end.

(** [[A-Z]] *)
Definition isupper_ascii (c : ascii) : bool := between 65 90 c.

(** [[A-Z\s,\-\(\)]] *)
Definition title_char (c : ascii) : bool :=
  isupper_ascii c || isspace c || Ascii.eqb c "," || Ascii.eqb c "-"
  || Ascii.eqb c "(" || Ascii.eqb c ")".

(** The heading pattern at the start of [s], which is the start of a
    line: the number, blanks, an upper-case letter and one character or
    more of the title class.  The result holds both groups and the length
    of the match. *)
Definition heading_at (s : string) : option (string * string * nat) :=
  match s with
  | String c _ =>
      if isdigit c then
        let (number, after_number) := number_run s in
        let (blanks, after_blanks) := span isspace after_number in
        match blanks, after_blanks with
        | String _ _, String u after_upper =>
            if isupper_ascii u then
              let (more, _) := span title_char after_upper in
              match more with
              | EmptyString => None
              | _ =>
                  Some (number, String u more,
                        String.length number + String.length blanks
                        + 1 + String.length more)
              end
            else None
        | _, _ => None
        end
      else None
  | EmptyString => None
  end.

(** [section_pattern.finditer(text)] with [re.MULTILINE]: a match starts
    at the start of the text or behind a line feed; [skip] counts the
    characters of the last match still to pass. *)
Fixpoint find_headings (line_start : bool) (skip : nat) (text : string)
  : list (string * string) :=
  match text with
  | EmptyString => []
  | String c text' =>
      let next_start := Ascii.eqb c (ascii_of_nat 10) in
      match skip with
      | S k => find_headings next_start k text'
      | O =>
          if line_start then
            match heading_at text with
            | Some (number, heading, len) =>
                (number, heading) :: find_headings next_start (len - 1) text'
            | None => find_headings next_start 0 text'
            end
          else find_headings next_start 0 text'
      end
  end.

(** The body of the inner loop of [identify_sections] for one match on
    the page [page_num]. *)
Definition register_heading (page_num : Z) (sections : Dict.t SectionData)
           (found : string * string) : Dict.t SectionData :=
  let section_num := rstrip_by (Ascii.eqb ".") (fst found) in
  let section_title := strip (snd found) in
  if (String.length section_title <? 3)%nat then sections
  else
    match Dict.get section_num sections with
    | None =>
        Dict.set section_num
                 {| title := section_title; pages := [page_num] |} sections
    | Some data =>
        if existsb (Z.eqb page_num) (pages data) then sections
        else Dict.set section_num
                      {| title := title data;
                         pages := (pages data ++ [page_num])%list |} sections
    end.

(** The body of the outer loop, for one page. *)
Definition register_page (sections : Dict.t SectionData)
           (page : Z * string) : Dict.t SectionData :=
  fold_left (register_heading (fst page))
            (find_headings true 0 (snd page)) sections.

(** [IBIndexer.identify_sections] on the text of the pages. *)
Definition identify_sections (extracted_text : list (Z * string))
  : Dict.t SectionData :=
  fold_left register_page extracted_text [].

(** The text of the first page numbered [page_num], if there is one. *)
Fixpoint page_text (page_num : Z) (extracted_text : list (Z * string))
  : option string :=
  match extracted_text with
  | [] => None
  | (p_num, text) :: rest =>
      if (p_num =? page_num)%Z then Some text else page_text page_num rest
  end.

(** [IBIndexer.extract_section_content] on the sections and the pages of
    the indexer. *)
Definition extract_section_content (sections : Dict.t SectionData)
           (extracted_text : list (Z * string)) (section_number : string)
  : string :=
  let sections :=
    match sections with
    | [] => identify_sections extracted_text
    | _ :: _ => sections
    end in
  match Dict.get section_number sections with
  | None => EmptyString
  | Some section_info =>
      join (String (ascii_of_nat 10) EmptyString)
           (flat_map (fun page_num =>
                        match page_text page_num extracted_text with
                        | Some text => [text]
                        | None => []
                        end)
                     (pages section_info))
  end.

(** [RO\d+] at the start of [s]. *)
Definition ro_at (s : string) : option string :=
  if prefix "RO" s then
    match fst (span isdigit (drop 2 s)) with
    | EmptyString => None
    | digits => Some ("RO" ++ digits)
    end
  else None.

(** [re.search(r'RO\d+', text)] *)
Fixpoint search_ro (text : string) : option string :=
  match ro_at text with
  | Some m => Some m
  | None =>
      match text with
      | EmptyString => None
      | String _ text' => search_ro text'
      end
  end.

Record Metadata : Type := mkMetadata {
  drug_name : string;
  trade_name : string;
  ro_number : string;
  version : string;
  date : string
}.

(** The body of the loop of [_extract_metadata] for one page. *)
Definition metadata_of_page (metadata : Metadata) (page : Z * string)
  : Metadata :=
  let text := snd page in
  let metadata :=
    match search_ro text, ro_number metadata with
    | Some m, EmptyString =>
        {| drug_name := drug_name metadata;
           trade_name := trade_name metadata;
           ro_number := m;
           version := version metadata; date := date metadata |}
    | _, _ => metadata
    end in
  let metadata :=
    match contains "pralsetinib" (lower text), drug_name metadata with
    | true, EmptyString =>
        {| drug_name := "Pralsetinib";
           trade_name := trade_name metadata;
           ro_number := ro_number metadata;
           version := version metadata; date := date metadata |}
    | _, _ => metadata
    end in
  match contains "GAVRETO" text, trade_name metadata with
  | true, EmptyString =>
      {| drug_name := drug_name metadata;
         trade_name := "GAVRETO";
         ro_number := ro_number metadata;
         version := version metadata; date := date metadata |}
  | _, _ => metadata
  end.

(** [IBIndexer._extract_metadata] *)
Definition _extract_metadata (extracted_text : list (Z * string)) : Metadata :=
  fold_left metadata_of_page (firstn 5 extracted_text)
            {| drug_name := ""; trade_name := ""; ro_number := "";
               version := ""; date := "" |}.

(** The index that [create_index] returns. *)
Record Index (Table : Type) : Type := mkIndex {
  index_metadata : Metadata;
  index_sections : Dict.t TopSection;
  index_tables : list Table;
  total_pages : nat
}.
Arguments mkIndex {Table}.
Arguments index_metadata {Table}.
Arguments index_sections {Table}.
Arguments index_tables {Table}.
Arguments total_pages {Table}.

(** [IBIndexer.create_index] on an indexer that has the text of the pages
    and the tables of the PDF and has no sections yet; [None] stands for
    the exception of the sort of the section numbers. *)
Definition create_index {Table : Type} (extracted_text : list (Z * string))
           (tables : list Table) : option (Index Table) :=
  let sections := identify_sections extracted_text in
  let metadata := _extract_metadata extracted_text in
  match _build_hierarchical_sections sections with
  | Some hierarchical_sections =>
      Some {| index_metadata := metadata;
              index_sections := hierarchical_sections;
              index_tables := tables;
              total_pages := List.length extracted_text |}
  | None => None
  end.

End IBIndexer.

(* ================================================================== *)
(** * content_matcher.py *)
(* ================================================================== *)

Module ContentMatcher.
Import Py MappingParser IBIndexer.

(** ** Calls: outcome and trace *)

(** What a call does besides computing: it reads the sections of the index
    for a section number, reads pages, calls the synthesis gateway, or
    sleeps after a call of the gateway. *)
Inductive Event : Type :=
| IndexLookup (section_number : string)
| PageLookup (page_numbers : list Z)
| GatewayCall (prompt : string)
| Sleep.

Definition M (A : Type) : Type := list Event * Outcome A.

Definition ret {A : Type} (a : A) : M A := ([], Returned a).
Definition raise {A : Type} (e : Exn) : M A := ([], Raised e).
Definition tell (ev : Event) : M unit := ([ev], Returned tt).

Definition bind {A B : Type} (m : M A) (f : A -> M B) : M B :=
  match m with
  | (t, Returned a) => let (t', r) := f a in ((t ++ t')%list, r)
  | (t, Raised e) => (t, Raised e)
  end.

(** [try: m except Exception as e: handler(e)] *)
Definition try_except {A : Type} (m : M A) (handler : Exn -> M A) : M A :=
  match m with
  | (t, Raised e) => let (t', r) := handler e in ((t ++ t')%list, r)
  | (t, Returned a) => (t, Returned a)
  end.

Notation "x <- m ;; k" := (bind m (fun x => k))
  (at level 61, m at next level, right associativity).
Notation "m ;;; k" := (bind m (fun _ => k))
  (at level 61, right associativity).

(** [mapping_info[key]] *)
Definition getitem {A : Type} (key : string) (field : option A) : M A :=
  match field with
  | Some v => ret v
  | None => raise (KeyError key)
  end.

(** ** The matcher *)

(** The synthesis gateway: from the system message and the prompt to the
    content of the first choice, or to the exception of the call. *)
Definition Gateway : Type := string -> string -> Outcome string.

(** The index handed to the matcher, of which it reads the sections. *)
Record IBIndex : Type := mkIBIndex {
  sections : Dict.t TopSection
}.

Record Matcher : Type := mkMatcher {
  ib_index : IBIndex;
  mapping_dict : Dict.t MappingInfo;
  client : option Gateway
}.

(** [ContentMatcher.__init__]: a client exists only for a key that is
    neither [None] nor empty. *)
Definition init (OpenAI : string -> Gateway) (ib_index : IBIndex)
           (mapping_dict : Dict.t MappingInfo)
           (openai_api_key : option string) : Matcher :=
  {| ib_index := ib_index;
     mapping_dict := mapping_dict;
     client := match openai_api_key with
               | Some key =>
                   match key with
                   | EmptyString => None
                   | _ => Some (OpenAI key)
                   end
               | None => None
               end |}.

Definition is_nil {A : Type} (l : list A) : bool :=
  match l with [] => true | _ => false end.

Definition is_empty (s : string) : bool :=
  match s with EmptyString => true | _ => false end.

(** [ContentMatcher._get_content_from_pages] *)
Definition _get_content_from_pages (page_numbers : list Z) : M (list string) :=
  tell (PageLookup page_numbers) ;;;
  ret (map (fun p => "[Content from page " ++ str_of_int p ++ "]")
           (firstn 3 page_numbers)).

(** The groups [(?:\.\d+)] read greedily from the start of [s], and what is
    left; a group takes two characters at least, so [fuel] is never short
    when it starts at the length of [s]. *)
Fixpoint dotted_groups (fuel : nat) (s : string) : list string * string :=
  match fuel, s with
  | S fuel', String "." s' =>
      let (d, r) := span isdigit s' in
      match d with
      | EmptyString => ([], s)
      | _ => let (gs, rest) := dotted_groups fuel' r in
             (("." ++ d) :: gs, rest)
      end
  | _, _ => ([], s)
  end.

(** [\b] after a digit: the text ends or goes on with a character that is
    not of a word. *)
Definition boundary_after (rest : string) : bool :=
  match rest with
  | EmptyString => true
  | String c _ => negb (isword c)
  end.

(** [\d+(?:\.\d+)*\b] at the start of [s].  When no boundary follows the
    greedy match, giving up the last group ends the match in front of a
    dot, which is a boundary; shortening a run of digits never gives one. *)
Definition section_token_at (s : string) : option string :=
  let (d, r) := span isdigit s in
  match d with
  | EmptyString => None
  | _ =>
      let (gs, rest) := dotted_groups (String.length r) r in
      if boundary_after rest then Some (d ++ String.concat "" gs)
      else match gs with
           | [] => None
           | _ => Some (d ++ String.concat "" (removelast gs))
           end
  end.

(** [re.findall] for the pattern of section numbers: [prev_word] says
    whether the character in front is of a word, [skip] counts the
    characters of the last match still to pass. *)
Fixpoint find_section_tokens (prev_word : bool) (skip : nat) (s : string)
  : list string :=
  match s with
  | EmptyString => []
  | String c s' =>
      match skip with
      | S k => find_section_tokens (isword c) k s'
      | O =>
          if negb prev_word && isdigit c then
            match section_token_at s with
            | Some tok =>
                tok :: find_section_tokens (isword c) (String.length tok - 1) s'
            | None => find_section_tokens (isword c) 0 s'
            end
          else find_section_tokens (isword c) 0 s'
      end
  end.

(** [ContentMatcher._extract_section_numbers] *)
Definition _extract_section_numbers (ib_section : string) : list string :=
  find_section_tokens false 0 ib_section.

Definition headed (title : string) (content : list string) : string :=
  title ++ nl ++ nl ++ join (nl ++ nl) content.

(** The loop of [_get_section_content] over the top-level sections. *)
Fixpoint section_loop (section_number : string)
         (items : list (string * TopSection)) : M string :=
  match items with
  | [] => ret EmptyString
  | (top_section, top_data) :: items' =>
      found <- (if String.eqb top_section section_number then
                  content <- _get_content_from_pages (top_pages top_data) ;;
                  ret (if is_nil content then None
                       else Some (headed (top_title top_data) content))
                else ret None) ;;
      match found with
      | Some text => ret text
      | None =>
          match Dict.get section_number (subsections top_data) with
          | Some sub =>
              content <- _get_content_from_pages (sub_pages sub) ;;
              if is_nil content then section_loop section_number items'
              else ret (headed (sub_title sub) content)
          | None => section_loop section_number items'
          end
      end
  end.

(** [ContentMatcher._get_section_content] *)
Definition _get_section_content (self : Matcher) (section_number : string)
  : M string :=
  tell (IndexLookup section_number) ;;;
  section_loop section_number (sections (ib_index self)).

(** [re.sub(r'\s+', ' ', text)] *)
Fixpoint collapse_whitespace (in_run : bool) (text : string) : string :=
  match text with
  | EmptyString => EmptyString
  | String c text' =>
      if isspace c then
        if in_run then collapse_whitespace true text'
        else String " " (collapse_whitespace true text')
      else String c (collapse_whitespace false text')
  end.

(** [Page \d+ of \d+] at the start of [s]: the length of the match. *)
Definition page_artifact_at (s : string) : option nat :=
  if prefix "Page " s then
    let (n, r) := span isdigit (drop 5 s) in
    if negb (is_empty n) && prefix " of " r then
      let (m, _) := span isdigit (drop 4 r) in
      if is_empty m then None
      else Some (5 + String.length n + 4 + String.length m)
    else None
  else None.

(** [re.sub(r'Page \d+ of \d+', '', text)] *)
Fixpoint remove_page_artifacts (skip : nat) (text : string) : string :=
  match text with
  | EmptyString => EmptyString
  | String c text' =>
      match skip with
      | S k => remove_page_artifacts k text'
      | O =>
          match page_artifact_at text with
          | Some n => remove_page_artifacts (n - 1) text'
          | None => String c (remove_page_artifacts 0 text')
          end
      end
  end.

(** [ContentMatcher._clean_text] *)
Definition _clean_text (text : string) : string :=
  if is_empty text then EmptyString
  else strip (remove_page_artifacts 0 (collapse_whitespace false text)).

(** The section contents that are not empty, in the order of the section
    numbers, each passed through [wrap] with its number. *)
Fixpoint collect_sections (self : Matcher) (wrap : string -> string -> string)
         (section_numbers : list string) : M (list string) :=
  match section_numbers with
  | [] => ret []
  | section_num :: rest =>
      section_content <- _get_section_content self section_num ;;
      parts <- collect_sections self wrap rest ;;
      ret (if is_empty section_content then parts
           else wrap section_num section_content :: parts)
  end.

(** [ContentMatcher.direct_extract] *)
Definition direct_extract (self : Matcher) (field_name : string)
           (mapping_info : MappingInfo) : M string :=
  ib_section <- getitem "ib_section" (ib_section mapping_info) ;;
  pages <- getitem "ib_pages" (ib_pages mapping_info) ;;
  let section_numbers := _extract_section_numbers ib_section in
  content_parts <-
    collect_sections self (fun _ content => content) section_numbers ;;
  content_parts <-
    (if is_nil content_parts && negb (is_nil pages)
     then _get_content_from_pages pages
     else ret content_parts) ;;
  if negb (is_nil content_parts)
  then ret (_clean_text (join (nl ++ nl) content_parts))
  else ret "[Content not found in IB]".

Definition system_message : string :=
  "You are a medical writer preparing a Drug Safety Report (DSR) for pralsetinib (GAVRETO, RO7499790). Extract and synthesize content accurately from the provided Investigator Brochure sections.".

(** [ContentMatcher._create_extraction_prompt] *)
Definition _create_extraction_prompt
           (field_name field_description ib_content context : string)
  : string :=
  "You are preparing a Drug Safety Report (DSR) for pralsetinib (GAVRETO, RO7499790)." ++ nl
  ++ nl
  ++ "Your task: Extract and synthesize content for the DSR field: " ++ field_name ++ nl
  ++ "Field purpose: " ++ field_description ++ nl
  ++ nl
  ++ "Additional context: " ++ context ++ nl
  ++ nl
  ++ "Source content from Investigator Brochure:" ++ nl
  ++ ib_content ++ nl
  ++ nl
  ++ "Instructions:" ++ nl
  ++ "1. Extract relevant information from the IB sections above" ++ nl
  ++ "2. Synthesize into cohesive, well-written content appropriate for a DSR" ++ nl
  ++ "3. Use formal medical/scientific writing style" ++ nl
  ++ "4. Be concise but comprehensive" ++ nl
  ++ "5. Do not include reference citations (we'll add those separately)" ++ nl
  ++ "6. Do not use placeholder text or phrases like " ++ dquote
  ++ "based on the IB" ++ dquote ++ nl
  ++ "7. If the IB content is insufficient, note what specific information is missing" ++ nl
  ++ "8. Present the information in a clear, professional manner suitable for regulatory submission" ++ nl
  ++ nl
  ++ "Output the extracted/synthesized content only, with no preamble or explanation.".

(** [mapping_info.get(key, default)] *)
Definition get_default {A : Type} (field : option A) (default : A) : A :=
  match field with
  | Some v => v
  | None => default
  end.

(** The source handed to the gateway is cut after 10000 characters. *)
Definition max_source_length : nat := 100 * 100.

(** [ContentMatcher.ai_extract] *)
Definition ai_extract (self : Matcher) (field_name : string)
           (mapping_info : MappingInfo) : M string :=
  match client self with
  | None => ret "[AI extraction skipped - no API key provided]"
  | Some create =>
      ib_section <- getitem "ib_section" (ib_section mapping_info) ;;
      pages <- getitem "ib_pages" (ib_pages mapping_info) ;;
      let notes := get_default (notes mapping_info) EmptyString in
      let field_description :=
        get_default (field_description mapping_info) EmptyString in
      let section_numbers := _extract_section_numbers ib_section in
      source_content <-
        collect_sections self
          (fun section_num content =>
             "### Section " ++ section_num ++ nl ++ content)
          section_numbers ;;
      source_content <-
        (if is_nil source_content && negb (is_nil pages)
         then _get_content_from_pages pages
         else ret source_content) ;;
      if is_nil source_content
      then ret "[No source content found in IB for AI extraction]"
      else
        let combined_source := join (nl ++ nl) source_content in
        let combined_source :=
          if (max_source_length <? String.length combined_source)%nat
          then take max_source_length combined_source ++ nl ++ nl
               ++ "[Content truncated...]"
          else combined_source in
        let prompt :=
          _create_extraction_prompt field_name field_description
                                    combined_source notes in
        tell (GatewayCall prompt) ;;;
        match create system_message prompt with
        | Returned content => tell Sleep ;;; ret (strip content)
        | Raised e =>
            ret ("[AI extraction failed: " ++ exn_str e ++ "]" ++ nl ++ nl
                 ++ "Raw content:" ++ nl ++ take 500 combined_source ++ "...")
        end
  end.

(** [ContentMatcher.handle_unavailable_field] *)
Definition handle_unavailable_field (self : Matcher) (field_name : string)
           (mapping_info : MappingInfo) : M string :=
  let notes :=
    get_default (notes mapping_info) "External data source required" in
  let ib_section := get_default (ib_section mapping_info) "N/A" in
  ret ("[DATA NOT AVAILABLE IN IB - REQUIRES: " ++ notes ++ "]").

(** The tallies of [match_all_fields], next to [matched_content]. *)
Record Tally : Type := mkTally {
  matched_content : Dict.t string;
  direct_count : nat;
  ai_count : nat;
  unavailable_count : nat
}.

(** The branch of [match_all_fields] taken for a mapping type: the call
    that resolves the field. *)
Definition resolve (self : Matcher) (field_name : string)
           (mapping_type : string) (mapping_info : MappingInfo) : M string :=
  if mapping_type =? "direct_extract" then
    direct_extract self field_name mapping_info
  else if mapping_type =? "synthesis_required" then
    ai_extract self field_name mapping_info
  else
    handle_unavailable_field self field_name mapping_info.

(** The tally raised in the same branch, once the call has returned. *)
Definition count (mapping_type : string) (st : Tally) : Tally :=
  if mapping_type =? "direct_extract" then
    {| matched_content := matched_content st;
       direct_count := S (direct_count st);
       ai_count := ai_count st;
       unavailable_count := unavailable_count st |}
  else if mapping_type =? "synthesis_required" then
    {| matched_content := matched_content st;
       direct_count := direct_count st;
       ai_count := S (ai_count st);
       unavailable_count := unavailable_count st |}
  else
    {| matched_content := matched_content st;
       direct_count := direct_count st;
       ai_count := ai_count st;
       unavailable_count := S (unavailable_count st) |}.

(** [matched_content[field_name] = content] *)
Definition store (field_name content : string) (st : Tally) : Tally :=
  {| matched_content := Dict.set field_name content (matched_content st);
     direct_count := direct_count st;
     ai_count := ai_count st;
     unavailable_count := unavailable_count st |}.

(** The body of the loop of [match_all_fields]: the mapping type is read
    in front of the [try]. *)
Definition match_field (self : Matcher) (st : Tally)
           (item : string * MappingInfo) : M Tally :=
  let (field_name, mapping_info) := item in
  mapping_type <- getitem "mapping_type" (mapping_type mapping_info) ;;
  try_except
    (content <- resolve self field_name mapping_type mapping_info ;;
     ret (store field_name content (count mapping_type st)))
    (fun e =>
       ret (store field_name
                  ("[ERROR EXTRACTING CONTENT: " ++ exn_str e ++ "]") st)).

Fixpoint match_loop (self : Matcher) (st : Tally)
         (items : list (string * MappingInfo)) : M Tally :=
  match items with
  | [] => ret st
  | item :: items' =>
      st' <- match_field self st item ;;
      match_loop self st' items'
  end.

(** [ContentMatcher.match_all_fields] *)
Definition match_all_fields (self : Matcher) : M (Dict.t string) :=
  st <- match_loop self
                   {| matched_content := []; direct_count := 0;
                      ai_count := 0; unavailable_count := 0 |}
                   (mapping_dict self) ;;
  ret (matched_content st).

(** ** Validation *)

(** The dict that [validate_extraction] returns. *)
Record Validation : Type := mkValidation {
  field : string;
  is_valid : bool;
  warnings : list string
}.

(** The longest content that draws no warning. *)
Definition max_content_length : nat := 200 * 100.

(** [ContentMatcher.validate_extraction] *)
Definition validate_extraction (field_name extracted_content : string)
  : Validation :=
  let empty :=
    is_empty extracted_content
    || (String.length (strip extracted_content) =? 0)%nat in
  let flagged :=
    contains "[ERROR" extracted_content
    || contains "[DATA NOT AVAILABLE" extracted_content in
  let long :=
    (max_content_length <? String.length extracted_content)%nat in
  let short :=
    (String.length extracted_content <? 10)%nat
    && negb (contains "[" extracted_content) in
  let very_long :=
    "Content very long ("
    ++ str_of_int (Z.of_nat (String.length extracted_content))
    ++ " chars)" in
  {| field := field_name;
     is_valid := negb empty;
     warnings :=
       ((if empty then ["Content is empty"] else [])
        ++ (if flagged then ["Contains error or unavailable message"] else [])
        ++ (if long then [very_long] else [])
        ++ (if short then ["Content very short"] else []))%list |}.

End ContentMatcher.

(* ================================================================== *)
(** * template_populator.py: placeholders and the report *)
(* ================================================================== *)

Module TemplatePopulator.
Import Py MappingParser.

(** [re.findall(r'\[INSERT_[A-Z0-9_]+\]', text)]: the matches from left to
    right, none overlapping another; [skip] counts the characters of the
    last match still to pass. *)
Fixpoint find_placeholders (skip : nat) (text : string) : list string :=
  match text with
  | EmptyString => []
  | String c text' =>
      match skip with
      | S k => find_placeholders k text'
      | O =>
          match placeholder_at text with
          | Some p => p :: find_placeholders (String.length p - 1) text'
          | None => find_placeholders 0 text'
          end
      end
  end.

(** [TemplatePopulator._extract_placeholders]: the set of the matches, as
    the list of them; only membership has a meaning. *)
Definition _extract_placeholders (text : string) : list string :=
  find_placeholders 0 text.

(** The dict that [generate_mapping_report] returns. *)
Record Report : Type := mkReport {
  populated : list string;
  empty : list string;
  not_in_ib : list string;
  errors : list string
}.

(** The body of the loop of [generate_mapping_report]. *)
Definition report_field (report : Report) (item : string * string) : Report :=
  let (placeholder, content) := item in
  if match content with EmptyString => true | _ => false end
     || (content =? "N/A")
     || (String.length (strip content) =? 0)%nat
  then
    {| populated := populated report;
       empty := (empty report ++ [placeholder])%list;
       not_in_ib := not_in_ib report;
       errors := errors report |}
  else if contains "NOT AVAILABLE IN IB" content
          || contains "REQUIRES:" content
  then
    {| populated := populated report;
       empty := empty report;
       not_in_ib := (not_in_ib report ++ [placeholder])%list;
       errors := errors report |}
  else if contains "[ERROR" content || contains "error" (lower content)
  then
    {| populated := populated report;
       empty := empty report;
       not_in_ib := not_in_ib report;
       errors := (errors report ++ [placeholder])%list |}
  else
    {| populated := (populated report ++ [placeholder])%list;
       empty := empty report;
       not_in_ib := not_in_ib report;
       errors := errors report |}.

(** [TemplatePopulator.generate_mapping_report] *)
Definition generate_mapping_report (field_content_dict : Dict.t string)
  : Report :=
  fold_left report_field field_content_dict
            {| populated := []; empty := []; not_in_ib := []; errors := [] |}.

End TemplatePopulator.

(* ================================================================== *)
(** * Vocabulary of the statements *)
(* ================================================================== *)

Import Py MappingParser IBIndexer ContentMatcher.

(** [kw] occurs in [s]. *)
Definition Substring (kw s : string) : Prop :=
  exists pre post, s = pre ++ kw ++ post.

(** [kw] occurs in [cell] in some spelling of upper and lower case. *)
Definition occurs_ignoring_case (kw cell : string) : Prop :=
  exists w, lower w = kw /\ Substring w cell.

(** The cells [section_ref] and [notes_cell] are classified as [t]: by
    [_determine_mapping_type], and so in the record of every row that is
    parsed with these cells. *)
Definition classified_as (section_ref notes_cell t : string) : Prop :=
  _determine_mapping_type section_ref notes_cell = t
  /\ forall line placeholder info,
      parse_row line = Some (placeholder, info) ->
      ib_section info = Some section_ref ->
      notes info = Some notes_cell ->
      mapping_type info = Some t.

(** [rest] does not go on with a character of the class [p]. *)
Definition stops (p : ascii -> bool) (rest : string) : Prop :=
  match rest with
  | EmptyString => True
  | String c _ => p c = false
  end.

(** A run of digits: one digit at least and digits only. *)
Definition digit_run (d : string) : Prop :=
  d <> "" /\ all_chars isdigit d = true.

(** [d] is the first run of digits of [piece], taken whole. *)
Definition first_digit_run (piece d : string) : Prop :=
  exists pre post,
    piece = pre ++ d ++ post
    /\ all_chars (fun c => negb (isdigit c)) pre = true
    /\ digit_run d /\ stops isdigit post.

(** [piece] starts with a range: digits, blanks, a dash, blanks, digits,
    both runs of digits taken whole. *)
Definition dash_range (piece start stop : string) : Prop :=
  exists ws1 ws2 tail,
    piece = start ++ ws1 ++ "-" ++ ws2 ++ stop ++ tail
    /\ digit_run start /\ all_chars isspace ws1 = true
    /\ all_chars isspace ws2 = true
    /\ digit_run stop /\ stops isdigit tail.

(** What a piece of a page list stands for: the value of its first run
    of digits when it holds no dash, every page between both ends when it
    starts with a range. *)
Inductive piece_yields (piece : string) (p : Z) : Prop :=
| yields_single d :
    mem_char "-" piece = false -> first_digit_run piece d ->
    p = int_of_digits d -> piece_yields piece p
| yields_range start stop :
    dash_range piece start stop ->
    (int_of_digits start <= p <= int_of_digits stop)%Z ->
    piece_yields piece p.

(** A character of [A-Z], of [0-9], or the underscore. *)
Definition upper_alnum_underscore (c : ascii) : bool :=
  ((65 <=? code c)%nat && (code c <=? 90)%nat)
  || ((48 <=? code c)%nat && (code c <=? 57)%nat)
  || (code c =? 95)%nat.

(** [key] is a placeholder: [[INSERT_], one character or more of
    [A-Z0-9_], and the closing bracket. *)
Definition is_placeholder (key : string) : Prop :=
  exists body,
    key = "[INSERT_" ++ body ++ "]"
    /\ body <> ""
    /\ all_chars upper_alnum_underscore body = true.

(** What holds of every entry of a parsed mapping. *)
Definition well_formed_entry (entry : string * MappingInfo) : Prop :=
  is_placeholder (fst entry)
  /\ (exists t, mapping_type (snd entry) = Some t
                /\ In t ["direct_extract"; "synthesis_required";
                         "unavailable"])
  /\ (exists l, ib_pages (snd entry) = Some l /\ StronglySorted Z.lt l).

(** The lines of the specification that give a field mapping. *)
Definition parseable_rows (content : string) : list string :=
  filter (fun line => match parse_row line with Some _ => true | None => false end)
         (split (ascii_of_nat 10) content).

(** Nothing further down a list has a smaller key. *)
Definition not_after {A : Type} (x y : list Z * A) : Prop :=
  tuple_ltb (fst y) (fst x) = false.

(** [a] has a smaller tuple of numbers than [b]. *)
Definition key_lt (a b : string) : Prop :=
  exists ta tb,
    _section_sort_key a = Some ta /\ _section_sort_key b = Some tb
    /\ tuple_ltb ta tb = true.

(** [a] stands in front of [b] in [l]. *)
Definition precedes {A : Type} (a b : A) (l : list A) : Prop :=
  exists l1 l2 l3, l = (l1 ++ a :: l2 ++ b :: l3)%list.

(** No section number of the list stands in front of one with a smaller
    tuple. *)
Definition key_sorted (l : list string) : Prop :=
  StronglySorted (fun a b => ~ key_lt b a) l.

(** Of two section numbers of [l] the one with the smaller tuple comes
    first. *)
Definition in_key_order (l : list string) : Prop :=
  forall a b, In a l -> In b l -> key_lt a b -> precedes a b l.



(** Any character but the line feed. *)
Definition not_line_feed (c : ascii) : bool :=
  negb (Ascii.eqb c (ascii_of_nat 10)).

(** The content a field ends with: what its resolution returned, or the
    error text made of the exception it raised. *)
Definition content_of (m : M string) : string :=
  match m with
  | (_, Returned content) => content
  | (_, Raised e) => "[ERROR EXTRACTING CONTENT: " ++ exn_str e ++ "]"
  end.

(** The same for an entry of the mapping, by the mapping type it holds. *)
Definition entry_content (self : Matcher) (item : string * MappingInfo)
  : string :=
  match mapping_type (snd item) with
  | Some t => content_of (resolve self (fst item) t (snd item))
  | None => EmptyString
  end.

(** A record that lacks its section reference, in front of a record that
    needs nothing from the index. *)
Definition sample_mapping : Dict.t MappingInfo :=
  [ ("[INSERT_A]",
     {| field_description := Some "A"; ib_section := None;
        ib_pages := Some []; mapping_type := Some "direct_extract";
        notes := Some "" |});
    ("[INSERT_B]",
     {| field_description := Some "B"; ib_section := Some "Not in IB";
        ib_pages := Some []; mapping_type := Some "unavailable";
        notes := Some "Query the safety database" |}) ].

(** A matcher on this mapping, with an empty index and no gateway. *)
Definition sample_matcher : Matcher :=
  {| ib_index := {| sections := [] |};
     mapping_dict := sample_mapping;
     client := None |}.

(** The row, the node and an index of the indication scenario. *)
Definition indication_row : string :=
  "| [INSERT_INDICATION] Indication | Section 1.2 | 12-14 | |".

Definition indication_node : SubSection :=
  {| sub_title := "Indication"; sub_pages := [12; 13]%Z |}.

Definition indication_index : IBIndex :=
  {| sections :=
       [("1", {| top_title := "SUMMARY"; top_pages := [10]%Z;
                 subsections := [("1.2", indication_node)] |})] |}.

(** The record of an entry holds the mapping type [t]. *)
Definition has_type (t : string) (item : string * MappingInfo) : bool :=
  match mapping_type (snd item) with
  | Some t' => t' =? t
  | None => false
  end.

(** The field names of a mapping whose records hold the type [t], in the
    order of the mapping. *)
Definition names_of_type (t : string) (mapping : Dict.t MappingInfo)
  : list string :=
  map fst (filter (has_type t) mapping).

(** An event that reads the index or pages: neither a call of the gateway
    nor a sleep. *)
Definition is_lookup (ev : Event) : bool :=
  match ev with
  | IndexLookup _ | PageLookup _ => true
  | GatewayCall _ | Sleep => false
  end.

(** The four lists of a report. *)
Inductive Category : Type := Populated | Empty | NotInIB | Errors.

(** The list of [generate_mapping_report] that a content is filed under. *)
Definition category_of (content : string) : Category :=
  if match content with EmptyString => true | _ => false end
     || (content =? "N/A")
     || (String.length (strip content) =? 0)%nat
  then Empty
  else if contains "NOT AVAILABLE IN IB" content
          || contains "REQUIRES:" content
  then NotInIB
  else if contains "[ERROR" content || contains "error" (lower content)
  then Errors
  else Populated.

Definition reported (report : TemplatePopulator.Report) (c : Category)
  : list string :=
  match c with
  | Populated => TemplatePopulator.populated report
  | Empty => TemplatePopulator.empty report
  | NotInIB => TemplatePopulator.not_in_ib report
  | Errors => TemplatePopulator.errors report
  end.

Definition category_eqb (a b : Category) : bool :=
  match a, b with
  | Populated, Populated | Empty, Empty | NotInIB, NotInIB
  | Errors, Errors => true
  | _, _ => false
  end.

(** The placeholders of a dict whose content is filed under [c], in the
    order of the dict. *)
Definition names_in_category (c : Category) (d : Dict.t string)
  : list string :=
  map fst (filter (fun item => category_eqb (category_of (snd item)) c) d).

(** A trace that holds lookups only. *)
Definition only_lookups (trace : list Event) : Prop :=
  Forall (fun ev => is_lookup ev = true) trace.

(** The record holds the two keys that the resolution of a field reads
    with [mapping_info[...]]. *)
Definition complete_record (info : MappingInfo) : Prop :=
  ib_section info <> None /\ ib_pages info <> None.

(** A call of the synthesis gateway. *)
Definition is_gateway_call (ev : Event) : bool :=
  match ev with
  | GatewayCall _ => true
  | _ => false
  end.

(** A gateway whose calls all raise, and a matcher that has it as client,
    over the index of the indication scenario. *)
Definition failing_gateway : Gateway :=
  fun _ _ => Raised (Error "Rate limit reached").

Definition synthesis_record : MappingInfo :=
  {| field_description := Some "Indication and usage";
     ib_section := Some "Sections 1.2 and 9";
     ib_pages := Some [12; 13]%Z;
     mapping_type := Some "synthesis_required";
     notes := Some "Summarize" |}.

Definition failing_matcher : Matcher :=
  {| ib_index := indication_index;
     mapping_dict := [("[INSERT_USAGE]", synthesis_record)];
     client := Some failing_gateway |}.

(** A section number: runs of digits with single dots between them. *)
Inductive dotted_number : string -> Prop :=
| dotted_last d : digit_run d -> dotted_number d
| dotted_cons d s :
    digit_run d -> dotted_number s -> dotted_number (d ++ "." ++ s).

(** A group of a section number: a dot and a run of digits. *)
Definition dot_group (g : string) : Prop :=
  exists d, g = "." ++ d /\ digit_run d.

(** The contents that [_get_content_from_pages] gives for a list of pages. *)
Definition page_contents (page_numbers : list Z) : list string :=
  map (fun p => "[Content from page " ++ str_of_int p ++ "]")
      (firstn 3 page_numbers).

(** A character that is no blank, or the plain space. *)
Definition plain_char (c : ascii) : bool :=
  negb (isspace c) || Ascii.eqb c " ".

(** The number of a heading: a section number, with or without a dot
    behind it. *)
Inductive heading_number : string -> Prop :=
| heading_plain m : dotted_number m -> heading_number m
| heading_dot m : dotted_number m -> heading_number (m ++ ".").

(** What holds of every section that [identify_sections] registers from the
    pages [extracted_text]. *)
Definition registered_section (extracted_text : list (Z * string))
           (entry : string * SectionData) : Prop :=
  dotted_number (fst entry)
  /\ 3 <= String.length (title (snd entry))
  /\ strip (title (snd entry)) = title (snd entry)
  /\ all_chars title_char (title (snd entry)) = true
  /\ pages (snd entry) <> []
  /\ NoDup (pages (snd entry))
  /\ incl (pages (snd entry)) (map fst extracted_text).

(** The top-level section that [_build_hierarchical_sections] files a
    section number under: [parts[0]]. *)
Definition parent_of (number : string) : string :=
  hd "" (split "." number).

(** No node of [items] answers a lookup of [number]. *)
Definition lacks (number : string) (items : list (string * TopSection))
  : Prop :=
  Forall (fun entry =>
            fst entry <> number
            /\ Dict.get number (subsections (snd entry)) = None) items.

(** What holds of the hierarchy while the items with the numbers [known]
    are added: top-level keys have one part, and the numbers under a key
    have more and have the key as their first part. *)
Definition built_from (known : list string)
           (hierarchical : Dict.t TopSection) : Prop :=
  NoDup (Dict.keys hierarchical)
  /\ Forall (fun entry : string * TopSection =>
               In (fst entry) known
               /\ split "." (fst entry) = [fst entry]
               /\ Forall (fun number =>
                            In number known
                            /\ List.length (split "." number) <> 1
                            /\ parent_of number = fst entry)
                         (Dict.keys (subsections (snd entry))))
            hierarchical.

(** What a node with the title [title] and the pages [page_numbers] gives
    to [_get_section_content]. *)
Definition node_content (title : string) (page_numbers : list Z)
  : list Event * Outcome string :=
  ([PageLookup page_numbers],
   Returned (if is_nil (page_contents page_numbers) then ""
             else headed title (page_contents page_numbers))).

(** Two pages of a brochure: the headings 1 and 1.1 on the first page,
    1.1 again and 3.2, whose top-level section 3 has no heading, on the
    second. *)
Definition sample_pages : list (Z * string) :=
  [ (1%Z, "1. SUMMARY" ++ nl ++ "1.1 BACKGROUND" ++ nl ++ "of the drug");
    (2%Z, "1.1 BACKGROUND (CONT)" ++ nl ++ "3.2 DOSAGE" ++ nl) ].

(** The sections [later] continue the sections [earlier]: the numbers of
    [earlier] stand at the front of [later] in the same order, and each
    keeps its title and has its pages at the front of its page list. *)
Definition continues (earlier later : Dict.t SectionData) : Prop :=
  (exists more, Dict.keys later = (Dict.keys earlier ++ more)%list)
  /\ forall number data,
      Dict.get number earlier = Some data ->
      exists data',
        Dict.get number later = Some data'
        /\ title data' = title data
        /\ exists more, pages data' = (pages data ++ more)%list.

(** "The literal word", as the specification words the test on the
    section reference: [w] stands in [s] as a word of its own at some
    place, in any spelling of upper and lower case; no character of a word
    ([\w]) is in front of it and none is behind it.  [prev_word] tells
    whether the character in front of [s] belongs to a word. *)
Fixpoint word_scan (w : string) (prev_word : bool) (s : string) : bool :=
  (negb prev_word && prefix w s
   && match drop (String.length w) s with
      | EmptyString => true
      | String c _ => negb (isword c)
      end)
  || match s with
     | EmptyString => false
     | String c s' => word_scan w (isword c) s'
     end.

Definition holds_word (w s : string) : bool := word_scan w false (lower s).

(** A mapping as a mapping file in JSON can hold it: the record of the
    second field has no mapping type. *)
Definition untyped_mapping : Dict.t MappingInfo :=
  [ ("[INSERT_A]",
     {| field_description := Some "A"; ib_section := Some "Not in IB";
        ib_pages := Some []; mapping_type := Some "unavailable";
        notes := Some "Query the safety database" |});
    ("[INSERT_B]",
     {| field_description := Some "B"; ib_section := Some "Section 1.1";
        ib_pages := Some [5%Z]; mapping_type := None;
        notes := Some "" |});
    ("[INSERT_C]",
     {| field_description := Some "C"; ib_section := Some "Not in IB";
        ib_pages := Some []; mapping_type := Some "unavailable";
        notes := Some "External" |}) ].

(* ================================================================== *)
(** * Facts about the string primitives *)
(* ================================================================== *)

Lemma prefix_spec (a s : string) :
  prefix a s = true <-> exists t, s = a ++ t.
Proof.
  revert s; induction a as [|x a IH]; intros s.
  - destruct s; simpl; split; eauto.
  - destruct s as [|y s]; simpl.
    + split; [discriminate | intros [t Ht]; discriminate].
    + destruct (ascii_dec x y) as [->|Hne].
      * rewrite IH. split; intros [t Ht]; exists t.
        -- now subst.
        -- now injection Ht.
      * split; [discriminate | intros [t Ht]; injection Ht; congruence].
Qed.

Lemma contains_unfold (kw s : string) :
  contains kw s =
  if prefix kw s then true
  else match s with
       | EmptyString => false
       | String _ s' => contains kw s'
       end.
Proof. destruct s; reflexivity. Qed.

Lemma contains_spec (kw s : string) :
  contains kw s = true <-> Substring kw s.
Proof.
  unfold Substring. induction s as [|c s IH]; rewrite contains_unfold.
  - destruct (prefix kw "") eqn:Hp.
    + apply prefix_spec in Hp. destruct Hp as [t Ht].
      split; [intros _; exists "", t; exact Ht | reflexivity].
    + split; [discriminate|]. intros (pre & post & H).
      destruct pre; simpl in H; [|discriminate].
      assert (prefix kw "" = true) by (apply prefix_spec; eauto).
      congruence.
  - destruct (prefix kw (String c s)) eqn:Hp.
    + apply prefix_spec in Hp. destruct Hp as [t Ht].
      split; [intros _; exists "", t; exact Ht | reflexivity].
    + rewrite IH. split.
      * intros (pre & post & H). exists (String c pre), post. now subst.
      * intros (pre & post & H). destruct pre as [|d pre]; simpl in H.
        -- assert (prefix kw (String c s) = true)
             by (apply prefix_spec; eauto).
           congruence.
        -- injection H as _ H. eauto.
Qed.

Lemma lower_app (a b : string) : lower (a ++ b) = lower a ++ lower b.
Proof. induction a as [|x a IH]; simpl; [reflexivity | now rewrite IH]. Qed.

Lemma lower_split (s x y : string) :
  lower s = x ++ y -> exists a b, s = a ++ b /\ lower a = x /\ lower b = y.
Proof.
  revert s; induction x as [|c x IH]; intros s H; simpl in H.
  - exists "", s. auto.
  - destruct s as [|d s]; simpl in H; [discriminate|].
    injection H as Hc H. destruct (IH _ H) as (a & b & -> & <- & <-).
    exists (String d a), b. simpl. now rewrite Hc.
Qed.

Lemma occurs_ignoring_case_iff (kw cell : string) :
  occurs_ignoring_case kw cell <-> contains kw (lower cell) = true.
Proof.
  rewrite contains_spec. unfold occurs_ignoring_case, Substring. split.
  - intros (w & <- & pre & post & ->).
    exists (lower pre), (lower post). now rewrite !lower_app.
  - intros (pre & post & H).
    apply lower_split in H. destruct H as (a & b & -> & <- & H).
    apply lower_split in H. destruct H as (w & c & -> & <- & <-).
    exists w. split; [reflexivity | now exists a, c].
Qed.

(** A keyword written in lower case occurs in a cell as soon as it occurs
    there as it is. *)
Lemma substring_occurs (kw cell : string) :
  lower kw = kw -> Substring kw cell -> occurs_ignoring_case kw cell.
Proof. intros Hl Hs. exists kw. auto. Qed.

(* ================================================================== *)
(** * Strategy classification *)
(* ================================================================== *)

Lemma unavailable_when_keyword (section_ref notes_cell : string) :
  existsb (fun keyword =>
             contains keyword (lower section_ref)
             || contains keyword (lower notes_cell)) unavailable_keywords = true ->
  _determine_mapping_type section_ref notes_cell = "unavailable".
Proof. unfold _determine_mapping_type. intros ->. reflexivity. Qed.

Lemma parse_row_cells (line placeholder : string) (info : MappingInfo) :
  parse_row line = Some (placeholder, info) ->
  exists section_ref notes_cell,
    ib_section info = Some section_ref
    /\ notes info = Some notes_cell
    /\ mapping_type info
       = Some (_determine_mapping_type section_ref notes_cell).
Proof.
  unfold parse_row.
  destruct (table_row_match line) as [[[[g1 g2] g3] g4]|]; [|discriminate].
  cbv zeta.
  destruct (existsb _ _); [discriminate|].
  destruct (_ || _); [discriminate|].
  destruct (placeholder_search (strip g1)) as [p|]; [|discriminate].
  intros H. injection H as _ <-. simpl. eauto.
Qed.

Lemma classified_as_intro (section_ref notes_cell t : string) :
  _determine_mapping_type section_ref notes_cell = t ->
  classified_as section_ref notes_cell t.
Proof.
  intros H. split; [exact H|].
  intros line placeholder info Hrow Hs Hn.
  destruct (parse_row_cells _ _ _ Hrow) as (s' & n' & Hs' & Hn' & Ht).
  rewrite Hs in Hs'. rewrite Hn in Hn'.
  injection Hs' as <-. injection Hn' as <-. now rewrite Ht, H.
Qed.

(** C1. An unavailable keyword, met in any spelling of case in the
    section-reference cell or in the notes cell, makes the row
    ['unavailable'], whatever else the cells hold: no synthesis keyword in
    the notes turns it into ['synthesis_required']. *)
Theorem unavailable_keyword_takes_precedence
  (section_ref notes_cell kw : string)
  (Hkw : In kw [ "not in ib"; "external source"; "safety database";
                 "case report"; "requires query"; "not available"; "n/a" ])
  (Hocc : occurs_ignoring_case kw section_ref
          \/ occurs_ignoring_case kw notes_cell) :
  classified_as section_ref notes_cell "unavailable"
  /\ _determine_mapping_type section_ref notes_cell <> "synthesis_required".
Proof.
  assert (H : _determine_mapping_type section_ref notes_cell = "unavailable").
  { apply unavailable_when_keyword. apply existsb_exists.
    exists kw. split; [exact Hkw|].
    apply orb_true_iff.
    destruct Hocc as [H|H]; apply occurs_ignoring_case_iff in H; auto. }
  split; [now apply classified_as_intro | rewrite H; discriminate].
Qed.

(** The precedence test: notes that hold "summarize" and a section
    reference that holds "external source". *)
Lemma unavailable_keyword_takes_precedence_witness :
  Substring "summarize" "Please summarize the key findings"
  /\ exists info,
      parse_row "| [INSERT_PSUR] Periodic reports | See external source (PSUR) | N/A | Please summarize the key findings |"
      = Some ("[INSERT_PSUR]", info)
      /\ mapping_type info = Some "unavailable"
      /\ mapping_type info <> Some "synthesis_required".
Proof.
  split.
  - exists "Please ", " the key findings". reflexivity.
  - exists {| field_description := Some "Periodic reports";
               ib_section := Some "See external source (PSUR)";
               ib_pages := Some [];
               mapping_type := Some "unavailable";
               notes := Some "Please summarize the key findings" |}.
    split; [vm_compute; reflexivity|].
    destruct (unavailable_keyword_takes_precedence
                "See external source (PSUR)"
                "Please summarize the key findings" "external source")
      as [[_ Hrow] _].
    + simpl. tauto.
    + left. apply substring_occurs; [reflexivity|].
      exists "See ", " (PSUR)". reflexivity.
    + split; [|discriminate].
      apply (Hrow "| [INSERT_PSUR] Periodic reports | See external source (PSUR) | N/A | Please summarize the key findings |"
                  "[INSERT_PSUR]");
        [vm_compute; reflexivity | reflexivity | reflexivity].
Defined.

(** X22. What the code does: with no unavailable keyword in either cell, a
    row is ['synthesis_required'] when the notes hold a synthesis keyword in
    any spelling of case, or the section reference holds a plus sign, a
    comma or, in any spelling of case, the letters "and", inside a word or
    not; it is ['direct_extract'] otherwise. *)
Theorem synthesis_or_direct (section_ref notes_cell : string)
  (Hnone : forall kw,
      In kw [ "not in ib"; "external source"; "safety database";
              "case report"; "requires query"; "not available"; "n/a" ] ->
      ~ occurs_ignoring_case kw section_ref
      /\ ~ occurs_ignoring_case kw notes_cell) :
  let synthesis_signal :=
    (exists kw,
        In kw [ "synthesis"; "combine"; "summarize"; "multiple sections";
                "rewrite"; "adapt" ]
        /\ occurs_ignoring_case kw notes_cell)
    \/ Substring "+" section_ref
    \/ Substring "," section_ref
    \/ occurs_ignoring_case "and" section_ref in
  (synthesis_signal ->
   classified_as section_ref notes_cell "synthesis_required")
  /\ (~ synthesis_signal ->
      classified_as section_ref notes_cell "direct_extract").
Proof.
  intros synthesis_signal.
  enough (H : (synthesis_signal ->
               _determine_mapping_type section_ref notes_cell
               = "synthesis_required")
              /\ (~ synthesis_signal ->
                  _determine_mapping_type section_ref notes_cell
                  = "direct_extract"))
    by (split; intros Hs; apply classified_as_intro; now apply H).
  assert (Hu : existsb (fun keyword =>
                          contains keyword (lower section_ref)
                          || contains keyword (lower notes_cell))
                       unavailable_keywords = false).
  { apply not_true_is_false. intros H.
    apply existsb_exists in H. destruct H as (kw & Hin & H).
    destruct (Hnone kw Hin) as [H1 H2].
    apply orb_true_iff in H.
    destruct H as [H|H]; apply occurs_ignoring_case_iff in H; tauto. }
  unfold _determine_mapping_type. rewrite Hu.
  destruct (existsb (fun keyword => contains keyword (lower notes_cell))
                    synthesis_keywords) eqn:Hs.
  - split; [reflexivity|]. intros Hn. exfalso. apply Hn. left.
    apply existsb_exists in Hs. destruct Hs as (kw & Hin & H).
    exists kw. split; [exact Hin | now apply occurs_ignoring_case_iff].
  - destruct (contains "+" section_ref || contains "," section_ref
              || contains "and" (lower section_ref)) eqn:Hm.
    + split; [reflexivity|]. intros Hn. exfalso. apply Hn. right.
      rewrite !orb_true_iff in Hm.
      destruct Hm as [[H|H]|H];
        [apply contains_spec in H | apply contains_spec in H
        | apply occurs_ignoring_case_iff in H]; tauto.
    + split; [|reflexivity]. intros [(kw & Hin & H)|H].
      * apply occurs_ignoring_case_iff in H.
        assert (existsb (fun keyword => contains keyword (lower notes_cell))
                        synthesis_keywords = true)
          by (apply existsb_exists; eauto).
        congruence.
      * rewrite !orb_false_iff in Hm. destruct Hm as [[H1 H2] H3].
        destruct H as [H|[H|H]];
          [apply contains_spec in H | apply contains_spec in H
          | apply occurs_ignoring_case_iff in H]; congruence.
Qed.

Ltac no_occurrence :=
  let H := fresh in
  intro H;
  first [apply occurs_ignoring_case_iff in H | apply contains_spec in H];
  vm_compute in H; discriminate.

Ltac each_keyword Hin :=
  simpl in Hin;
  repeat (destruct Hin as [Hin|Hin]; [subst|]); try contradiction.

Lemma synthesis_or_direct_witness :
  _determine_mapping_type "Sections 1.2 + 1.3" "" = "synthesis_required"
  /\ _determine_mapping_type "Section 5.1" "Rewrite for the DSR"
     = "synthesis_required"
  /\ _determine_mapping_type "Standard dosing 2.1" ""
     = "synthesis_required"
  /\ _determine_mapping_type "Section 1.2" "Copy the paragraph"
     = "direct_extract".
Proof.
  split; [|split; [|split]].
  - apply (synthesis_or_direct "Sections 1.2 + 1.3" "").
    + intros kw Hin. each_keyword Hin; split; no_occurrence.
    + right; left. exists "Sections 1.2 ", " 1.3". reflexivity.
  - apply (synthesis_or_direct "Section 5.1" "Rewrite for the DSR").
    + intros kw Hin. each_keyword Hin; split; no_occurrence.
    + left. exists "rewrite". split; [simpl; tauto|].
      exists "Rewrite". split; [reflexivity|].
      exists "", " for the DSR". reflexivity.
  - apply (synthesis_or_direct "Standard dosing 2.1" "").
    + intros kw Hin. each_keyword Hin; split; no_occurrence.
    + right; right; right. exists "and". split; [reflexivity|].
      exists "St", "ard dosing 2.1". reflexivity.
  - apply (synthesis_or_direct "Section 1.2" "Copy the paragraph").
    + intros kw Hin. each_keyword Hin; split; no_occurrence.
    + intros [(kw & Hin & H)|[H|[H|H]]]; revert H.
      * each_keyword Hin; no_occurrence.
      * no_occurrence.
      * no_occurrence.
      * no_occurrence.
Defined.

(** C8. The letters "and" inside a word are taken for the word "and".
    The references "Standard dosing 2.1", "Section 4.2 Randomization" and
    "Section 3 Handling" name one section each; they hold no plus sign, no
    comma and nowhere the word "and", and the notes are empty, so that
    the row is to be ['direct_extract']; but [_determine_mapping_type],
    which tests ['and' in section_lower] under the comment "Check if
    multiple sections mentioned", gives ['synthesis_required'], as the
    parser stores it in the record of the row.  With the word "and" the
    row is ['synthesis_required'], and without the letters it is
    ['direct_extract']. *)
Theorem and_inside_a_word_is_taken_for_the_word :
  (forall section_ref,
      In section_ref [ "Standard dosing 2.1"; "Section 4.2 Randomization";
                       "Section 3 Handling" ] ->
      _determine_mapping_type section_ref "" = "synthesis_required"
      /\ holds_word "and" section_ref = false
      /\ contains "+" section_ref = false
      /\ contains "," section_ref = false
      /\ existsb (fun keyword =>
                    contains keyword (lower section_ref)
                    || contains keyword (lower ""))
                 unavailable_keywords = false
      /\ existsb (fun keyword => contains keyword (lower ""))
                 synthesis_keywords = false)
  /\ parse_row "| [INSERT_DOSE] Dosing | Standard dosing 2.1 | 5 | |"
     = Some ("[INSERT_DOSE]",
             {| field_description := Some "Dosing";
                ib_section := Some "Standard dosing 2.1";
                ib_pages := Some [5%Z];
                mapping_type := Some "synthesis_required";
                notes := Some "" |})
  /\ holds_word "and" "Sections 1.1 and 1.2" = true
  /\ _determine_mapping_type "Sections 1.1 and 1.2" "" = "synthesis_required"
  /\ _determine_mapping_type "Section 2.1" "" = "direct_extract".
Proof.
  split.
  - intros section_ref Hin. simpl in Hin.
    destruct Hin as [<-|[<-|[<-|[]]]]; repeat split; reflexivity.
  - repeat split; vm_compute; reflexivity.
Qed.


(* ================================================================== *)
(** * Page lists *)
(* ================================================================== *)

Lemma span_eq (p : ascii -> bool) (s run rest : string) :
  span p s = (run, rest) ->
  s = run ++ rest /\ all_chars p run = true /\ stops p rest.
Proof.
  revert run rest; induction s as [|c s IH]; intros run rest H; simpl in H.
  - injection H as <- <-. simpl. auto.
  - destruct (p c) eqn:Hc.
    + destruct (span p s) as [run' rest'] eqn:Hs.
      injection H as <- <-.
      destruct (IH _ _ eq_refl) as (-> & Ha & Hr).
      simpl. rewrite Hc, Ha. auto.
    + injection H as <- <-. simpl. auto.
Qed.

Lemma span_unique (p : ascii -> bool) (run rest : string) :
  all_chars p run = true -> stops p rest -> span p (run ++ rest) = (run, rest).
Proof.
  induction run as [|c run IH]; simpl; intros Ha Hr.
  - destruct rest as [|d rest]; simpl in *; [reflexivity | now rewrite Hr].
  - apply andb_true_iff in Ha. destruct Ha as [Hc Ha].
    rewrite Hc, (IH Ha Hr). reflexivity.
Qed.

Lemma space_not_digit (c : ascii) : isspace c = true -> isdigit c = false.
Proof. destruct c as [[] [] [] [] [] [] [] []]; vm_compute; congruence. Qed.

Lemma digit_not_space (c : ascii) : isdigit c = true -> isspace c = false.
Proof. destruct c as [[] [] [] [] [] [] [] []]; vm_compute; congruence. Qed.

Lemma stops_digit_after_blanks (ws rest : string) (c : ascii) :
  all_chars isspace ws = true -> isdigit c = false ->
  stops isdigit (ws ++ String c rest).
Proof.
  destruct ws as [|w ws]; simpl; intros H Hc; [exact Hc|].
  apply andb_true_iff in H. now apply space_not_digit.
Qed.

Lemma stops_space_before_digits (d rest : string) :
  digit_run d -> stops isspace (d ++ rest).
Proof.
  intros [Hne Hd]. destruct d as [|c d]; [congruence|]. simpl in *.
  apply andb_true_iff in Hd. now apply digit_not_space.
Qed.

Lemma range_match_spec (part start stop : string) :
  range_match part = Some (start, stop) <-> dash_range part start stop.
Proof.
  unfold range_match, dash_range, digit_run. split.
  - destruct (span isdigit part) as [d0 r0] eqn:H0.
    destruct d0 as [|c0 d0]; [discriminate|].
    destruct (span isspace r0) as [ws1 r1] eqn:H1. simpl.
    destruct r1 as [|c1 r1]; [discriminate|].
    destruct (Ascii.eqb_spec c1 "-") as [->|Hne].
    2:{ destruct c1 as [[] [] [] [] [] [] [] []]; try discriminate.
        congruence. }
    destruct (span isspace r1) as [ws2 r2] eqn:H2. simpl.
    destruct (span isdigit r2) as [d1 r3] eqn:H3.
    destruct d1 as [|c d1]; [discriminate|].
    intros H. injection H as <- <-.
    apply span_eq in H0, H1, H2, H3.
    destruct H0 as (-> & Ha0 & _), H1 as (-> & Ha1 & _),
             H2 as (-> & Ha2 & _), H3 as (-> & Ha3 & Hs3).
    exists ws1, ws2, r3. repeat split; auto; discriminate.
  - intros (ws1 & ws2 & tail & -> & [Hn0 Ha0] & Ha1 & Ha2 & [Hn1 Ha3] & Hs).
    rewrite (span_unique isdigit start _ Ha0)
      by (apply stops_digit_after_blanks; auto).
    destruct start as [|c0 start]; [congruence|].
    rewrite (span_unique isspace ws1 _ Ha1) by reflexivity.
    simpl.
    rewrite (span_unique isspace ws2 _ Ha2)
      by (apply stops_space_before_digits; split; auto).
    simpl. rewrite (span_unique isdigit stop _ Ha3 Hs).
    destruct stop; [congruence | reflexivity].
Qed.

Lemma search_digits_unfold (c : ascii) (part : string) :
  search_digits (String c part) =
  if isdigit c then Some (fst (span isdigit (String c part)))
  else search_digits part.
Proof. reflexivity. Qed.

Lemma search_digits_spec (part d : string) :
  search_digits part = Some d <-> first_digit_run part d.
Proof.
  unfold first_digit_run, digit_run. split.
  - revert d; induction part as [|c part IH]; intros d H; [discriminate|].
    rewrite search_digits_unfold in H. destruct (isdigit c) eqn:Hc.
    + destruct (span isdigit (String c part)) as [run rest] eqn:Hs.
      injection H as <-. apply span_eq in Hs.
      destruct Hs as (He & Ha & Hr).
      exists "", rest. repeat split; auto.
      intros ->. simpl in He. subst rest. simpl in Hr. congruence.
    + destruct (IH _ H) as (pre & post & -> & Hp & Hd & Hs).
      exists (String c pre), post. simpl. rewrite Hc. auto.
  - intros (pre & post & -> & Hp & [Hne Hd] & Hs).
    induction pre as [|c pre IH].
    + destruct d as [|c d]; [congruence|].
      change ("" ++ String c d ++ post) with (String c (d ++ post)).
      rewrite search_digits_unfold.
      pose proof Hd as Hd'. simpl in Hd'. apply andb_true_iff in Hd'.
      destruct Hd' as [Hc _]. rewrite Hc.
      change (String c (d ++ post)) with (String c d ++ post).
      now rewrite (span_unique isdigit _ _ Hd Hs).
    + simpl in Hp. apply andb_true_iff in Hp. destruct Hp as [Hc Hp].
      apply negb_true_iff in Hc.
      change (String c pre ++ d ++ post) with (String c (pre ++ d ++ post)).
      rewrite search_digits_unfold, Hc. auto.
Qed.

Lemma range_from_in (p lo : Z) (n : nat) :
  In p (range_from lo n) <-> (lo <= p < lo + Z.of_nat n)%Z.
Proof.
  revert lo; induction n as [|n IH]; intros lo; cbn [range_from In].
  - lia.
  - rewrite IH. lia.
Qed.

Lemma range_in (p lo hi : Z) : In p (range lo hi) <-> (lo <= p < hi)%Z.
Proof. unfold range. rewrite range_from_in. lia. Qed.

Lemma insert_uniq_in (p x : Z) (l : list Z) :
  In p (insert_uniq x l) <-> p = x \/ In p l.
Proof.
  induction l as [|y l IH]; simpl; [intuition|].
  destruct (Z.ltb_spec x y); [simpl; intuition|].
  destruct (Z.eqb_spec x y); simpl; [subst; intuition | rewrite IH; intuition].
Qed.

Lemma sorted_set_in (p : Z) (l : list Z) : In p (sorted_set l) <-> In p l.
Proof.
  induction l as [|x l IH]; simpl; [tauto|].
  rewrite insert_uniq_in, IH. intuition.
Qed.

Lemma insert_uniq_sorted (x : Z) (l : list Z) :
  Sorted Z.lt l -> Sorted Z.lt (insert_uniq x l).
Proof.
  induction l as [|y l IH]; simpl; intros Hs.
  - repeat constructor.
  - destruct (Z.ltb_spec x y);
      [constructor; [exact Hs | constructor; assumption]|].
    destruct (Z.eqb_spec x y); [exact Hs|].
    inversion Hs as [|? ? Hs' Hhd]; subst.
    constructor; [auto|].
    destruct l as [|z l]; simpl.
    + constructor; lia.
    + inversion Hhd; subst.
      destruct (Z.ltb_spec x z); [constructor; lia|].
      destruct (Z.eqb_spec x z); constructor; lia.
Qed.

Lemma sorted_set_sorted (l : list Z) : StronglySorted Z.lt (sorted_set l).
Proof.
  apply Sorted_StronglySorted; [exact Z.lt_trans|].
  induction l as [|x l IH]; simpl; [constructor | now apply insert_uniq_sorted].
Qed.

Lemma pages_of_part_spec (part : string) (p : Z) :
  In p (pages_of_part part) <-> piece_yields (strip part) p.
Proof.
  unfold pages_of_part. set (piece := strip part). clearbody piece.
  destruct (mem_char "-" piece) eqn:Hdash.
  - destruct (range_match piece) as [[s e]|] eqn:Hr.
    + apply range_match_spec in Hr. rewrite range_in. split.
      * intros H. apply (yields_range _ _ s e); [exact Hr | lia].
      * intros [d Hd _ _|s' e' Hr' H]; [congruence|].
        apply range_match_spec in Hr, Hr'.
        rewrite Hr in Hr'. injection Hr' as <- <-. lia.
    + split; [intros []|].
      intros [d Hd _ _|s' e' Hr' H]; [congruence|].
      apply range_match_spec in Hr'. congruence.
  - destruct (search_digits piece) as [d|] eqn:Hd.
    + split.
      * intros [<-|[]]. apply (yields_single _ _ d); auto.
        now apply search_digits_spec.
      * intros [d' _ Hd' ->|s' e' Hr' H].
        -- apply search_digits_spec in Hd'.
           rewrite Hd in Hd'. injection Hd' as <-. now left.
        -- exfalso. destruct Hr' as (ws1 & ws2 & tail & -> & _).
           clear - Hdash. induction s' as [|c s' IH]; simpl in Hdash.
           ++ induction ws1 as [|c ws1 IH]; simpl in Hdash; [discriminate|].
              apply orb_false_iff in Hdash. tauto.
           ++ apply orb_false_iff in Hdash. tauto.
    + split; [intros []|].
      intros [d' _ Hd' ->|s' e' Hr' H].
      * apply search_digits_spec in Hd'. congruence.
      * exfalso. destruct Hr' as (ws1 & ws2 & tail & -> & _).
        clear - Hdash. induction s' as [|c s' IH]; simpl in Hdash.
        -- induction ws1 as [|c ws1 IH]; simpl in Hdash; [discriminate|].
           apply orb_false_iff in Hdash. tauto.
        -- apply orb_false_iff in Hdash. tauto.
Qed.

(** C3. The pages of a cell are the pages its comma-separated pieces
    stand for, each piece trimmed: one integer for a piece with no dash
    (its first run of digits), every integer from start to end for a piece
    that starts with a range.  The list is in strictly ascending order,
    hence free of duplicates; it is empty for the empty cell, for "N/A" and
    for "-"; and "34-36, 40, 40" gives 34, 35, 36, 40. *)
Theorem parse_pages_spec : forall cell : string,
  (forall p,
      In p (_parse_pages cell) <->
      exists piece, In piece (split "," cell) /\ piece_yields (strip piece) p)
  /\ StronglySorted Z.lt (_parse_pages cell)
  /\ _parse_pages "" = []
  /\ _parse_pages "N/A" = []
  /\ _parse_pages "-" = []
  /\ _parse_pages "34-36, 40, 40" = [34; 35; 36; 40]%Z.
Proof.
  intros cell.
  assert (Hmem : forall p,
             In p (sorted_set (flat_map pages_of_part (split "," cell))) <->
             exists piece,
               In piece (split "," cell) /\ piece_yields (strip piece) p).
  { intros p. rewrite sorted_set_in, in_flat_map.
    split; intros (piece & Hin & H); exists piece;
      (split; [exact Hin | now apply pages_of_part_spec]). }
  split; [|split; [|repeat split; reflexivity]].
  - intros p. unfold _parse_pages.
    destruct ((cell =? "") || (cell =? "N/A") || (cell =? "-")) eqn:Hc;
      [|apply Hmem].
    rewrite <- Hmem.
    rewrite !orb_true_iff, !String.eqb_eq in Hc.
    destruct Hc as [[->| ->]| ->]; vm_compute; tauto.
  - unfold _parse_pages.
    destruct ((cell =? "") || (cell =? "N/A") || (cell =? "-"));
      [constructor | apply sorted_set_sorted].
Qed.

(* ================================================================== *)
(** * The parsed mapping *)
(* ================================================================== *)

Lemma all_chars_ext (p q : ascii -> bool) (s : string) :
  (forall c, p c = q c) -> all_chars p s = all_chars q s.
Proof.
  intros H. induction s as [|c s IH]; simpl; [reflexivity|].
  now rewrite H, IH.
Qed.

Lemma placeholder_char_class (c : ascii) :
  placeholder_char c = upper_alnum_underscore c.
Proof. destruct c as [[] [] [] [] [] [] [] []]; reflexivity. Qed.

Lemma placeholder_at_sound (s p : string) :
  placeholder_at s = Some p -> is_placeholder p.
Proof.
  unfold placeholder_at. destruct (prefix "[INSERT_" s); [|discriminate].
  destruct (span placeholder_char (drop 8 s)) as [body rest] eqn:Hs.
  destruct body as [|c body]; [discriminate|].
  destruct rest as [|r rest]; [discriminate|].
  destruct (Ascii.eqb_spec r "]") as [->|Hne].
  2:{ destruct r as [[] [] [] [] [] [] [] []]; try discriminate. congruence. }
  intros H. injection H as <-.
  apply span_eq in Hs. destruct Hs as (_ & Ha & _).
  exists (String c body). repeat split; [discriminate|].
  rewrite <- Ha. apply all_chars_ext. intros x.
  symmetry. apply placeholder_char_class.
Qed.

Lemma placeholder_search_sound (field p : string) :
  placeholder_search field = Some p -> is_placeholder p.
Proof.
  induction field as [|c field IH]; cbn [placeholder_search].
  - destruct (placeholder_at "") eqn:H; [|discriminate].
    intros E. injection E as <-. eapply placeholder_at_sound; eauto.
  - destruct (placeholder_at (String c field)) eqn:H; [|exact IH].
    intros E. injection E as <-. eapply placeholder_at_sound; eauto.
Qed.

Lemma determine_mapping_type_range (section_ref notes_cell : string) :
  In (_determine_mapping_type section_ref notes_cell)
     ["direct_extract"; "synthesis_required"; "unavailable"].
Proof.
  unfold _determine_mapping_type.
  repeat match goal with |- context [if ?b then _ else _] => destruct b end;
    simpl; tauto.
Qed.

Lemma parse_pages_sorted (cell : string) :
  StronglySorted Z.lt (_parse_pages cell).
Proof.
  unfold _parse_pages.
  destruct ((cell =? "") || (cell =? "N/A") || (cell =? "-"));
    [constructor | apply sorted_set_sorted].
Qed.

Lemma parse_row_well_formed (line : string) (entry : string * MappingInfo) :
  parse_row line = Some entry -> well_formed_entry entry.
Proof.
  unfold parse_row.
  destruct (table_row_match line) as [[[[g1 g2] g3] g4]|]; [|discriminate].
  cbv zeta.
  destruct (existsb _ _); [discriminate|].
  destruct (_ || _); [discriminate|].
  destruct (placeholder_search (strip g1)) as [p|] eqn:Hp; [|discriminate].
  intros H. injection H as <-. unfold well_formed_entry; simpl.
  split; [eapply placeholder_search_sound; eauto|].
  split; eexists; (split; [reflexivity|]).
  - apply determine_mapping_type_range.
  - apply parse_pages_sorted.
Qed.

Lemma dict_set_forall {V : Type} (P : string * V -> Prop)
      (k : string) (v : V) (d : Dict.t V) :
  P (k, v) -> Forall P d -> Forall P (Dict.set k v d).
Proof.
  intros Hkv. induction d as [|[k' v'] d IH]; simpl; intros Hd.
  - auto.
  - inversion Hd; subst. destruct (k =? k'); auto.
Qed.

Lemma parse_mapping_file_fold (content : string) :
  parse_mapping_file content =
  fold_left add_row (split (ascii_of_nat 10) content) [].
Proof. reflexivity. Qed.

Lemma add_rows_forall (P : string * MappingInfo -> Prop) (lines : list string)
      (d : Dict.t MappingInfo) :
  (forall line entry, parse_row line = Some entry -> P entry) ->
  Forall P d -> Forall P (fold_left add_row lines d).
Proof.
  intros Hrow. revert d; induction lines as [|line lines IH]; intros d Hd.
  - exact Hd.
  - simpl. apply IH. unfold add_row.
    destruct (parse_row line) as [[k v]|] eqn:Hp; [|exact Hd].
    apply dict_set_forall; eauto.
Qed.

(** C10. Whatever the text of the specification, every key of the parsed
    mapping is a placeholder [[INSERT_...]] over [A-Z0-9_], every record
    holds as mapping type one of ['direct_extract'], ['synthesis_required']
    and ['unavailable'], and every record holds pages in strictly ascending
    order, hence without duplicates. *)
Theorem parsed_mapping_well_formed : forall content : string,
  Forall (fun entry : string * MappingInfo =>
            is_placeholder (fst entry)
            /\ (exists t, mapping_type (snd entry) = Some t
                          /\ (t = "direct_extract"
                              \/ t = "synthesis_required"
                              \/ t = "unavailable"))
            /\ (exists l, ib_pages (snd entry) = Some l
                          /\ StronglySorted Z.lt l))
         (parse_mapping_file content).
Proof.
  intros content. rewrite parse_mapping_file_fold.
  apply add_rows_forall; [|constructor].
  intros line entry H. apply parse_row_well_formed in H.
  destruct H as (Hk & (t & Ht & Hin) & Hp).
  split; [exact Hk|]. split; [|exact Hp].
  exists t. split; [exact Ht|]. simpl in Hin. intuition.
Qed.

(** ** No failure on a specification without rows *)

Lemma dict_set_not_nil {V : Type} (k : string) (v : V) (d : Dict.t V) :
  Dict.set k v d <> [].
Proof. destruct d as [|[k' v'] d]; simpl; [|destruct (k =? k')]; discriminate. Qed.

Lemma add_rows_nil (lines : list string) (d : Dict.t MappingInfo) :
  fold_left add_row lines d = [] <->
  d = [] /\ forall line, In line lines -> parse_row line = None.
Proof.
  revert d; induction lines as [|line lines IH]; intros d; simpl.
  - intuition.
  - rewrite IH. unfold add_row.
    destruct (parse_row line) as [[k v]|] eqn:Hp.
    + split.
      * intros [H _]. now apply dict_set_not_nil in H.
      * intros [_ H]. specialize (H line (or_introl eq_refl)). congruence.
    + split; intros [Hd H]; (split; [exact Hd|]).
      * intros l [<-|Hl]; auto.
      * intros l Hl. auto.
Qed.

(** C4, as the claim has it, fails on the empty specification: it holds no
    parseable row, and the call returns (the empty mapping) where the claim
    has it fail. *)
Lemma parse_of_empty_specification_returns :
  parseable_rows "" = []
  /\ parse_mapping_file_call "" = Returned []
  /\ ~ ((exists e, parse_mapping_file_call "" = Raised e)
        <-> parseable_rows "" = []).
Proof.
  split; [reflexivity|]. split; [reflexivity|].
  intros [_ H]. destruct (H eq_refl) as [e He]. discriminate.
Qed.

(** C4, amended. The parse of a specification never fails: every call
    returns a mapping, which is empty exactly when no line of the input is
    a parseable row. *)
Theorem parse_mapping_file_never_fails : forall content : string,
  parse_mapping_file_call content = Returned (parse_mapping_file content)
  /\ (parse_mapping_file content = [] <-> parseable_rows content = []).
Proof.
  intros content. split; [reflexivity|].
  rewrite parse_mapping_file_fold, add_rows_nil. unfold parseable_rows.
  set (lines := split (ascii_of_nat 10) content). clearbody lines.
  split.
  - intros [_ H]. induction lines as [|l lines IH]; [reflexivity|].
    simpl. rewrite (H l (or_introl eq_refl)). apply IH.
    intros l' Hl'. apply H. now right.
  - intros H. split; [reflexivity|].
    induction lines as [|l lines IH]; [intros ? []|].
    simpl in H. destruct (parse_row l) eqn:Hl; [discriminate|].
    intros l' [<-|Hl']; auto.
Qed.

(* ================================================================== *)
(** * The order of sections *)
(* ================================================================== *)

Lemma tuple_ltb_unfold (x y : Z) (a b : list Z) :
  tuple_ltb (x :: a) (y :: b) = true <->
  (x < y)%Z \/ (x = y /\ tuple_ltb a b = true).
Proof.
  cbn [tuple_ltb]. rewrite orb_true_iff, andb_true_iff, Z.ltb_lt, Z.eqb_eq.
  tauto.
Qed.

Lemma tuple_ltb_asym (a b : list Z) :
  tuple_ltb a b = true -> tuple_ltb b a = false.
Proof.
  revert b; induction a as [|x a IH]; intros [|y b] H; try reflexivity;
    try discriminate.
  apply tuple_ltb_unfold in H. apply not_true_is_false. intros H'.
  apply tuple_ltb_unfold in H'.
  destruct H as [H|[-> H]], H' as [H'|[E H']]; try lia.
  apply IH in H. congruence.
Qed.

Lemma tuple_ltb_cotrans (a b c : list Z) :
  tuple_ltb a c = true -> tuple_ltb a b = true \/ tuple_ltb b c = true.
Proof.
  revert b c; induction a as [|x a IH]; intros [|y b] [|z c] H;
    try discriminate; auto.
  apply tuple_ltb_unfold in H. rewrite !tuple_ltb_unfold.
  destruct (Z.lt_trichotomy x y) as [Hxy|[->|Hxy]]; [tauto| |].
  - destruct H as [H|[-> H]]; [tauto|].
    destruct (IH b c H); tauto.
  - destruct H as [H|[-> H]]; right; left; lia.
Qed.

Lemma insert_by_key_perm {A : Type} (x : list Z * A) (l : list (list Z * A)) :
  Permutation (x :: l) (insert_by_key x l).
Proof.
  induction l as [|y l IH]; simpl; [reflexivity|].
  destruct (tuple_ltb (fst y) (fst x)); [|reflexivity].
  rewrite perm_swap. now constructor.
Qed.

Lemma sort_by_key_perm {A : Type} (l : list (list Z * A)) :
  Permutation l (sort_by_key l).
Proof.
  induction l as [|x l IH]; simpl; [constructor|].
  rewrite <- insert_by_key_perm. now constructor.
Qed.

Lemma insert_by_key_sorted {A : Type} (x : list Z * A)
      (l : list (list Z * A)) :
  StronglySorted not_after l -> StronglySorted not_after (insert_by_key x l).
Proof.
  induction l as [|y l IH]; simpl; intros Hs.
  - repeat constructor.
  - inversion Hs as [|? ? Hs' Hall]; subst.
    destruct (tuple_ltb (fst y) (fst x)) eqn:Hyx.
    + constructor; [auto|].
      rewrite <- insert_by_key_perm. constructor; [|exact Hall].
      unfold not_after. now apply tuple_ltb_asym.
    + constructor; [exact Hs|]. constructor; [exact Hyx|].
      rewrite Forall_forall in *. intros z Hz. specialize (Hall z Hz).
      unfold not_after in *. apply not_true_is_false. intros Hzx.
      destruct (tuple_ltb_cotrans _ (fst y) _ Hzx); congruence.
Qed.

Lemma sort_by_key_sorted {A : Type} (l : list (list Z * A)) :
  StronglySorted not_after (sort_by_key l).
Proof.
  induction l as [|x l IH]; simpl;
    [constructor | now apply insert_by_key_sorted].
Qed.

Lemma key_lt_irrefl (a : string) : ~ key_lt a a.
Proof.
  intros (ta & tb & Ha & Hb & H). rewrite Ha in Hb. injection Hb as <-.
  pose proof (tuple_ltb_asym _ _ H). congruence.
Qed.

Lemma precedes_cons {A : Type} (x a b : A) (l : list A) :
  precedes a b l -> precedes a b (x :: l).
Proof. intros (l1 & l2 & l3 & ->). now exists (x :: l1), l2, l3. Qed.

Lemma precedes_head {A : Type} (a b : A) (l : list A) :
  In b l -> precedes a b (a :: l).
Proof.
  intros H. apply in_split in H. destruct H as (l2 & l3 & ->).
  now exists [], l2, l3.
Qed.

Lemma key_sorted_in_order (l : list string) :
  key_sorted l -> in_key_order l.
Proof.
  unfold key_sorted, in_key_order.
  induction 1 as [|x l Hs IH Hall]; intros a b Ha Hb Hlt; [destruct Ha|].
  rewrite Forall_forall in Hall.
  destruct Ha as [->|Ha], Hb as [->|Hb].
  - now apply key_lt_irrefl in Hlt.
  - now apply precedes_head.
  - now apply Hall in Ha.
  - apply precedes_cons. auto.
Qed.







Lemma dict_get_in {V : Type} (k : string) (v : V) (d : Dict.t V) :
  Dict.get k d = Some v -> In (k, v) d.
Proof.
  induction d as [|[k' v'] d IH]; simpl; [discriminate|].
  destruct (String.eqb_spec k k') as [->|Hne].
  - intros H. injection H as ->. now left.
  - auto.
Qed.

Lemma dict_set_present_keys {V : Type} (k : string) (v v' : V)
      (d : Dict.t V) :
  Dict.get k d = Some v' -> Dict.keys (Dict.set k v d) = Dict.keys d.
Proof.
  induction d as [|[k0 v0] d IH]; simpl; [discriminate|].
  destruct (String.eqb_spec k k0) as [->|Hne]; simpl; [reflexivity|].
  intros H. now rewrite IH.
Qed.



Lemma traverse_with_key {V : Type} (items : list (string * V)) :
  (forall k, In k (Dict.keys items) -> exists t, _section_sort_key k = Some t) ->
  exists keyed,
    traverse with_key items = Some keyed
    /\ map snd keyed = items
    /\ Forall (fun e => _section_sort_key (fst (snd e)) = Some (fst e)) keyed.
Proof.
  induction items as [|[k v] items IH]; intros H.
  - exists []. simpl. auto.
  - destruct IH as (keyed & Ht & Hm & Hf).
    { intros k' Hk'. apply H. now right. }
    destruct (H k (or_introl eq_refl)) as [t Hk].
    exists ((t, (k, v)) :: keyed). simpl. unfold with_key at 1. simpl.
    rewrite Hk, Ht, Hm. auto.
Qed.

Lemma keyed_sorted_names {V : Type} (keyed : list (list Z * (string * V))) :
  Forall (fun e => _section_sort_key (fst (snd e)) = Some (fst e)) keyed ->
  StronglySorted not_after keyed ->
  key_sorted (map fst (map snd keyed)).
Proof.
  unfold key_sorted. intros Hk Hs.
  induction Hs as [|e l Hs IH Hall]; simpl; [constructor|].
  inversion Hk as [|? ? He Hk']; subst.
  constructor; [auto|].
  rewrite Forall_forall in *. intros b Hb.
  rewrite in_map_iff in Hb. destruct Hb as (it & <- & Hit).
  rewrite in_map_iff in Hit. destruct Hit as (e' & <- & He').
  intros (tb & ta & Hb & Ha & Hlt).
  rewrite He in Ha. injection Ha as <-.
  rewrite (Hk' _ He') in Hb. injection Hb as <-.
  specialize (Hall _ He'). unfold not_after in Hall. congruence.
Qed.

Lemma sorted_items_spec {V : Type} (items : list (string * V)) :
  (forall k, In k (Dict.keys items) -> exists t, _section_sort_key k = Some t) ->
  exists sorted,
    sorted_items items = Some sorted
    /\ Permutation items sorted
    /\ key_sorted (map fst sorted).
Proof.
  intros H. destruct (traverse_with_key items H) as (keyed & Ht & Hm & Hf).
  exists (map snd (sort_by_key keyed)). unfold sorted_items. rewrite Ht.
  split; [reflexivity|]. split.
  - rewrite <- Hm at 1. apply Permutation_map, sort_by_key_perm.
  - apply keyed_sorted_names; [|apply sort_by_key_sorted].
    rewrite Forall_forall in *. intros e He. apply Hf.
    eapply Permutation_in; [|exact He].
    apply Permutation_sym, sort_by_key_perm.
Qed.



(* ================================================================== *)
(** * The content matcher *)
(* ================================================================== *)

Lemma matched_content_count (t : string) (st : Tally) :
  matched_content (count t st) = matched_content st.
Proof.
  unfold count.
  destruct (t =? "direct_extract"); [reflexivity|].
  destruct (t =? "synthesis_required"); reflexivity.
Qed.

Lemma match_field_typed (self : Matcher) (st : Tally) (name : string)
      (info : MappingInfo) (t : string) :
  mapping_type info = Some t ->
  exists st',
    match_field self st (name, info)
    = (fst (resolve self name t info), Returned st')
    /\ matched_content st'
       = Dict.set name (content_of (resolve self name t info))
                  (matched_content st).
Proof.
  intros Ht. unfold match_field. rewrite Ht.
  unfold getitem, ret, bind, try_except, content_of.
  destruct (resolve self name t info) as [tr [c|e]]; simpl.
  - exists (store name c (count t st)).
    split; [now rewrite ?app_nil_r|].
    simpl. now rewrite matched_content_count.
  - exists (store name ("[ERROR EXTRACTING CONTENT: " ++ exn_str e ++ "]") st).
    split; [now rewrite ?app_nil_r | reflexivity].
Qed.

Lemma match_loop_typed (self : Matcher) (items : list (string * MappingInfo)) :
  (forall name info, In (name, info) items -> mapping_type info <> None) ->
  forall st, exists trace st',
    match_loop self st items = (trace, Returned st')
    /\ matched_content st'
       = fold_left (fun d item => Dict.set (fst item) (entry_content self item) d)
                   items (matched_content st).
Proof.
  induction items as [|[name info] items IH]; intros Htyped st.
  - exists [], st. split; reflexivity.
  - destruct (mapping_type info) as [t|] eqn:Ht.
    2:{ exfalso. eapply Htyped; [left; reflexivity | exact Ht]. }
    destruct (match_field_typed self st name info t Ht) as (st1 & H1 & Hc1).
    destruct (IH (fun n i Hin => Htyped n i (or_intror Hin)) st1)
      as (tr2 & st2 & H2 & Hc2).
    exists (fst (resolve self name t info) ++ tr2)%list, st2.
    split.
    + cbn [match_loop]. unfold bind at 1. rewrite H1, H2. reflexivity.
    + rewrite Hc2, Hc1. cbn [fold_left]. unfold entry_content at 3.
      simpl. now rewrite Ht.
Qed.

Lemma dict_set_fresh {V : Type} (k : string) (v : V) (d : Dict.t V) :
  ~ In k (Dict.keys d) -> Dict.set k v d = (d ++ [(k, v)])%list.
Proof.
  induction d as [|[k' v'] d IH]; simpl; intros Hn; [reflexivity|].
  destruct (String.eqb_spec k k') as [->|Hne]; [tauto|].
  rewrite IH; tauto.
Qed.

Lemma dict_fold_set_fresh {V W : Type} (g : string * V -> W)
      (items : list (string * V)) (d : Dict.t W) :
  NoDup (Dict.keys d ++ Dict.keys items) ->
  fold_left (fun d item => Dict.set (fst item) (g item) d) items d
  = (d ++ map (fun item => (fst item, g item)) items)%list.
Proof.
  revert d; induction items as [|[k v] items IH]; intros d Hnd; simpl.
  - now rewrite app_nil_r.
  - simpl in Hnd. rewrite dict_set_fresh.
    + rewrite IH.
      * now rewrite <- app_assoc.
      * unfold Dict.keys in *. rewrite map_app, <- app_assoc. exact Hnd.
    + apply NoDup_remove_2 in Hnd. rewrite in_app_iff in Hnd. tauto.
Qed.

Lemma dict_get_map {V W : Type} (g : string * V -> W)
      (items : list (string * V)) (k : string) (v : V) :
  NoDup (Dict.keys items) -> In (k, v) items ->
  Dict.get k (map (fun item => (fst item, g item)) items) = Some (g (k, v)).
Proof.
  induction items as [|[k' v'] items IH]; simpl; intros Hnd Hin; [tauto|].
  inversion Hnd as [|? ? Hn Hnd']; subst.
  destruct Hin as [E|Hin].
  - injection E as -> ->. now rewrite String.eqb_refl.
  - destruct (String.eqb_spec k k') as [->|Hne]; [|auto].
    exfalso. apply Hn. change k' with (fst (k', v)). now apply in_map.
Qed.

(** X23. On a mapping whose records all hold a mapping type, and whatever
    the index, [match_all_fields] returns; its result holds one entry for
    each placeholder of the mapping, in the order of the mapping; a field
    whose resolution raises has the content
    "[ERROR EXTRACTING CONTENT: <message>]", and every field, the later
    ones too, has the content its own resolution gives. *)
Theorem match_all_fields_never_fails (self : Matcher)
  (Hdict : NoDup (Dict.keys (mapping_dict self)))
  (Htyped : forall name info,
      In (name, info) (mapping_dict self) -> mapping_type info <> None) :
  exists trace result,
    match_all_fields self = (trace, Returned result)
    /\ Dict.keys result = Dict.keys (mapping_dict self)
    /\ forall name info t,
        In (name, info) (mapping_dict self) ->
        mapping_type info = Some t ->
        match resolve self name t info with
        | (_, Raised e) =>
            Dict.get name result
            = Some ("[ERROR EXTRACTING CONTENT: " ++ exn_str e ++ "]")
        | (_, Returned content) => Dict.get name result = Some content
        end.
Proof.
  destruct (match_loop_typed self (mapping_dict self) Htyped
              {| matched_content := []; direct_count := 0;
                 ai_count := 0; unavailable_count := 0 |})
    as (trace & st & Hloop & Hc).
  cbn [matched_content] in Hc.
  rewrite dict_fold_set_fresh in Hc by exact Hdict. simpl in Hc.
  exists trace, (matched_content st). split; [|split].
  - unfold match_all_fields. rewrite Hloop. unfold bind, ret.
    now rewrite app_nil_r.
  - rewrite Hc. unfold Dict.keys. rewrite map_map. reflexivity.
  - intros name info t Hin Ht. rewrite Hc.
    rewrite (dict_get_map (entry_content self) _ name info Hdict Hin).
    unfold entry_content. simpl. rewrite Ht. unfold content_of.
    destruct (resolve self name t info) as [tr [c|e]]; reflexivity.
Qed.

Lemma match_all_fields_never_fails_witness :
  exists trace result,
    match_all_fields sample_matcher = (trace, Returned result)
    /\ Dict.keys result = ["[INSERT_A]"; "[INSERT_B]"]
    /\ Dict.get "[INSERT_A]" result
       = Some "[ERROR EXTRACTING CONTENT: 'ib_section']"
    /\ Dict.get "[INSERT_B]" result
       = Some "[DATA NOT AVAILABLE IN IB - REQUIRES: Query the safety database]".
Proof.
  destruct (match_all_fields_never_fails sample_matcher)
    as (trace & result & Hr & Hk & Hf).
  - repeat constructor; simpl; intuition discriminate.
  - intros name info Hin. simpl in Hin.
    destruct Hin as [E|[E|[]]]; injection E as <- <-; discriminate.
  - exists trace, result. split; [exact Hr|]. split; [exact Hk|]. split.
    + exact (Hf "[INSERT_A]" _ "direct_extract" (or_introl eq_refl) eq_refl).
    + exact (Hf "[INSERT_B]" _ "unavailable"
                (or_intror (or_introl eq_refl)) eq_refl).
Defined.

(** The mapping type is read in front of the [try]: a record without it
    ends the whole call with its [KeyError]. *)
Lemma match_all_fields_needs_mapping_type (self : Matcher) (name : string)
      (info : MappingInfo) (rest : Dict.t MappingInfo) :
  mapping_dict self = (name, info) :: rest ->
  mapping_type info = None ->
  match_all_fields self = ([], Raised (KeyError "mapping_type")).
Proof.
  intros Hm Ht. unfold match_all_fields. rewrite Hm.
  cbn [match_loop match_field]. rewrite Ht. reflexivity.
Qed.

(** C2. One bad field aborts the batch.  Whatever the index and the
    gateway, [match_all_fields] on a mapping whose second record has no
    mapping type does not return: the [KeyError] of
    [mapping_info['mapping_type']], read in front of the [try], ends the
    call, after the first field was resolved; there is no result, so that
    the first field has no entry, the second has no
    "[ERROR EXTRACTING CONTENT: ...]" content and the third is never
    processed.  The same record with a mapping type but without its
    section reference is contained by the [try]: the call returns, the
    field has the error content and the third field is resolved. *)
Theorem missing_mapping_type_aborts_the_batch :
  forall (index : IBIndex) (gateway : option Gateway),
    match_all_fields {| ib_index := index;
                        mapping_dict := untyped_mapping;
                        client := gateway |}
    = ([], Raised (KeyError "mapping_type"))
    /\ exists result,
        match_all_fields
          {| ib_index := index;
             mapping_dict :=
               [ ("[INSERT_A]",
                  {| field_description := Some "A";
                     ib_section := Some "Not in IB";
                     ib_pages := Some []; mapping_type := Some "unavailable";
                     notes := Some "Query the safety database" |});
                 ("[INSERT_B]",
                  {| field_description := Some "B"; ib_section := None;
                     ib_pages := Some [5%Z];
                     mapping_type := Some "direct_extract";
                     notes := Some "" |});
                 ("[INSERT_C]",
                  {| field_description := Some "C";
                     ib_section := Some "Not in IB";
                     ib_pages := Some []; mapping_type := Some "unavailable";
                     notes := Some "External" |}) ];
             client := gateway |}
        = ([], Returned result)
        /\ Dict.keys result = ["[INSERT_A]"; "[INSERT_B]"; "[INSERT_C]"]
        /\ Dict.get "[INSERT_B]" result
           = Some "[ERROR EXTRACTING CONTENT: 'ib_section']"
        /\ Dict.get "[INSERT_C]" result
           = Some "[DATA NOT AVAILABLE IN IB - REQUIRES: External]".
Proof.
  intros index gateway. split; [reflexivity|].
  eexists. split; [reflexivity|]. repeat split.
Qed.


Lemma bind_ret_l {A B : Type} (a : A) (f : A -> M B) : bind (ret a) f = f a.
Proof. unfold bind, ret. now destruct (f a). Qed.

(** ** Synthesis without a gateway *)

Lemma init_without_key (OpenAI : string -> Gateway) (index : IBIndex)
      (mapping : Dict.t MappingInfo) (openai_api_key : option string) :
  openai_api_key = None \/ openai_api_key = Some "" ->
  client (init OpenAI index mapping openai_api_key) = None.
Proof. intros [-> | ->]; reflexivity. Qed.

Lemma ai_extract_without_client (self : Matcher) (field_name : string)
      (mapping_info : MappingInfo) :
  client self = None ->
  ai_extract self field_name mapping_info
  = ([], Returned "[AI extraction skipped - no API key provided]").
Proof. unfold ai_extract. intros ->. reflexivity. Qed.

(** C5. A field of type ['synthesis_required'] met by a matcher built
    without an API key ([None] or the empty string) resolves to
    "[AI extraction skipped - no API key provided]" with an empty trace:
    neither the index nor a page is looked up; a mapping made of this one
    field gives this one entry, still with an empty trace. *)
Theorem synthesis_skipped_without_gateway
  (OpenAI : string -> Gateway) (index : IBIndex)
  (mapping : Dict.t MappingInfo) (openai_api_key : option string)
  (field_name : string) (mapping_info : MappingInfo)
  (Hkey : openai_api_key = None \/ openai_api_key = Some "")
  (Htype : mapping_type mapping_info = Some "synthesis_required") :
  resolve (init OpenAI index mapping openai_api_key)
          field_name "synthesis_required" mapping_info
  = ([], Returned "[AI extraction skipped - no API key provided]")
  /\ match_all_fields
       (init OpenAI index [(field_name, mapping_info)] openai_api_key)
     = ([], Returned
              [(field_name, "[AI extraction skipped - no API key provided]")]).
Proof.
  split.
  - unfold resolve. simpl.
    apply ai_extract_without_client. now apply init_without_key.
  - unfold match_all_fields. cbn [mapping_dict init match_loop match_field].
    rewrite Htype. unfold getitem, resolve. simpl.
    rewrite ai_extract_without_client by now apply init_without_key.
    reflexivity.
Qed.

Lemma synthesis_skipped_without_gateway_witness :
  let info := {| field_description := Some "Overall safety profile";
                 ib_section := Some "Sections 5.1 and 5.2";
                 ib_pages := Some [40; 41]%Z;
                 mapping_type := Some "synthesis_required";
                 notes := Some "Summarize both sections" |} in
  match_all_fields
    (init (fun _ _ _ => Returned "text") {| sections := [] |}
          [("[INSERT_SAFETY_PROFILE]", info)] None)
  = ([], Returned [("[INSERT_SAFETY_PROFILE]",
                    "[AI extraction skipped - no API key provided]")]).
Proof.
  intros info.
  apply (synthesis_skipped_without_gateway
           (fun _ _ _ => Returned "text") {| sections := [] |} []
           None "[INSERT_SAFETY_PROFILE]" info).
  - left. reflexivity.
  - reflexivity.
Defined.

(** ** Fields that the brochure does not hold *)

(** C6, at a row of type ['unavailable'] whose notes cell is empty. The
    parser stores the empty notes under the key ['notes'], the default
    phrase of [handle_unavailable_field] stands in for an absent key only,
    and the content ends with nothing after "REQUIRES: ". No lookup is made,
    and notes that are present are inserted as they are. *)
Theorem unavailable_field_with_empty_notes :
  let row := "| [INSERT_EXPOSURE] Patient exposure | Not in IB | N/A | |" in
  let info := {| field_description := Some "Patient exposure";
                 ib_section := Some "Not in IB";
                 ib_pages := Some [];
                 mapping_type := Some "unavailable";
                 notes := Some "" |} in
  parse_mapping_file row = [("[INSERT_EXPOSURE]", info)]
  /\ (forall self,
         handle_unavailable_field self "[INSERT_EXPOSURE]" info
         = ([], Returned "[DATA NOT AVAILABLE IN IB - REQUIRES: ]"))
  /\ (forall OpenAI index key,
         match_all_fields (init OpenAI index (parse_mapping_file row) key)
         = ([], Returned [("[INSERT_EXPOSURE]",
                           "[DATA NOT AVAILABLE IN IB - REQUIRES: ]")]))
  /\ (forall self name record,
         notes record = None ->
         handle_unavailable_field self name record
         = ([], Returned
                  "[DATA NOT AVAILABLE IN IB - REQUIRES: External data source required]"))
  /\ (forall self name record cell,
         notes record = Some cell ->
         handle_unavailable_field self name record
         = ([], Returned
                  ("[DATA NOT AVAILABLE IN IB - REQUIRES: " ++ cell ++ "]"))).
Proof.
  intros row info.
  assert (Hrow : parse_mapping_file row = [("[INSERT_EXPOSURE]", info)])
    by (vm_compute; reflexivity).
  split; [exact Hrow|]. split; [reflexivity|]. split; [|split].
  - intros OpenAI index key. rewrite Hrow. reflexivity.
  - intros self name record H. unfold handle_unavailable_field.
    rewrite H. reflexivity.
  - intros self name record cell H. unfold handle_unavailable_field.
    rewrite H. reflexivity.
Qed.

(** ** Section numbers of a reference *)

Lemma span_length (p : ascii -> bool) (s d r : string) :
  span p s = (d, r) -> String.length r <= String.length s.
Proof.
  revert d r; induction s as [|c s IH]; simpl; intros d r H.
  - injection H as <- <-. auto.
  - destruct (p c).
    + destruct (span p s) as [d' r'] eqn:Hs. injection H as <- <-.
      specialize (IH _ _ eq_refl). lia.
    + injection H as <- <-. auto.
Qed.

(** The fuel of [dotted_groups] never runs out: any fuel from the length
    of the text on gives the same groups. *)
Lemma dotted_groups_fuel (f1 f2 : nat) (s : string) :
  String.length s <= f1 -> String.length s <= f2 ->
  dotted_groups f1 s = dotted_groups f2 s.
Proof.
  revert f2 s; induction f1 as [|f1 IH]; intros f2 s H1 H2.
  - destruct s; [|simpl in H1; lia]. now destruct f2.
  - destruct s as [|c s]; [now destruct f2|].
    destruct f2 as [|f2]; [simpl in H2; lia|].
    cbn [dotted_groups].
    destruct c as [[] [] [] [] [] [] [] []]; try reflexivity.
    destruct (span isdigit s) as [d r] eqn:Hs.
    destruct d as [|x d]; [reflexivity|].
    apply span_length in Hs. simpl in H1, H2.
    rewrite (IH f2 r) by lia. reflexivity.
Qed.

(** ** Cleaned text *)

Lemma all_chars_app (p : ascii -> bool) (a b : string) :
  all_chars p (a ++ b) = all_chars p a && all_chars p b.
Proof.
  induction a as [|c a IH]; simpl; [reflexivity|].
  now rewrite IH, andb_assoc.
Qed.

Lemma collapse_whitespace_no_line_feed (in_run : bool) (text : string) :
  all_chars not_line_feed (collapse_whitespace in_run text) = true.
Proof.
  revert in_run; induction text as [|c text IH]; intros in_run; simpl;
    [reflexivity|].
  destruct (isspace c) eqn:Hc.
  - destruct in_run; simpl; auto.
  - simpl. rewrite IH, andb_true_r.
    revert Hc. destruct c as [[] [] [] [] [] [] [] []]; vm_compute; congruence.
Qed.

Lemma remove_page_artifacts_all (p : ascii -> bool) (skip : nat)
      (text : string) :
  all_chars p text = true ->
  all_chars p (remove_page_artifacts skip text) = true.
Proof.
  revert skip; induction text as [|c text IH]; intros skip H;
    [reflexivity|].
  simpl in H. apply andb_true_iff in H. destruct H as [Hc H].
  cbn [remove_page_artifacts]. destruct skip as [|k]; [|now apply IH].
  destruct (page_artifact_at (String c text)); [now apply IH|].
  cbn [all_chars]. rewrite Hc. now apply IH.
Qed.

Lemma lstrip_by_all (p q : ascii -> bool) (s : string) :
  all_chars p s = true -> all_chars p (lstrip_by q s) = true.
Proof.
  induction s as [|c s IH]; simpl; intros H; [reflexivity|].
  pose proof H as H'. apply andb_true_iff in H'. destruct H' as [Hc Hs].
  destruct (q c); [auto | exact H].
Qed.

Lemma rstrip_by_all (p q : ascii -> bool) (s : string) :
  all_chars p s = true -> all_chars p (rstrip_by q s) = true.
Proof.
  induction s as [|c s IH]; simpl; intros H; [reflexivity|].
  apply andb_true_iff in H. destruct H as [Hc Hs].
  specialize (IH Hs). destruct (rstrip_by q s) as [|d r].
  - destruct (q c); simpl; [reflexivity | now rewrite Hc].
  - cbn [all_chars] in *. now rewrite Hc.
Qed.

Lemma no_line_feed_not_contained (s : string) :
  all_chars not_line_feed s = true -> contains nl s = false.
Proof.
  intros H. apply not_true_is_false. intros Hc.
  apply contains_spec in Hc. destruct Hc as (pre & post & ->).
  rewrite !all_chars_app in H. rewrite !andb_true_iff in H.
  destruct H as (_ & H & _). discriminate.
Qed.

(** Cleaned text holds no line feed, whatever the text. *)
Lemma clean_text_no_line_feed (text : string) :
  contains nl (_clean_text text) = false.
Proof.
  apply no_line_feed_not_contained. unfold _clean_text.
  destruct (is_empty text); [reflexivity|].
  unfold strip, strip_by.
  apply rstrip_by_all, lstrip_by_all, remove_page_artifacts_all,
    collapse_whitespace_no_line_feed.
Qed.

(** So does whatever [direct_extract] returns. *)
Lemma direct_extract_no_line_feed (self : Matcher) (field_name : string)
      (mapping_info : MappingInfo) (trace : list Event) (content : string) :
  direct_extract self field_name mapping_info = (trace, Returned content) ->
  contains nl content = false.
Proof.
  unfold direct_extract.
  destruct (ib_section mapping_info) as [ref|]; [|discriminate].
  destruct (ib_pages mapping_info) as [pages|]; [|discriminate].
  cbn [getitem]. rewrite !bind_ret_l.
  destruct (collect_sections self (fun _ c => c)
                             (_extract_section_numbers ref))
    as [tr [parts|e]]; [|discriminate].
  unfold bind at 1.
  destruct (is_nil parts && negb (is_nil pages)).
  - unfold _get_content_from_pages, tell, ret, bind.
    destruct (negb (is_nil _)); intros H; injection H as _ <-;
      [apply clean_text_no_line_feed | reflexivity].
  - rewrite bind_ret_l. unfold ret.
    destruct (negb (is_nil parts)); intros H; injection H as _ <-;
      [apply clean_text_no_line_feed | reflexivity].
Qed.

(** ** Direct extraction of the indication *)

(** C7, as the claim has it, fails on its own scenario: the content of
    the field does not begin with the title and a blank line. *)
Lemma indication_content_has_no_blank_line :
  ~ (exists trace content,
        match_all_fields
          (init (fun _ _ _ => Returned "text") indication_index
                (parse_mapping_file indication_row) None)
        = (trace, Returned [("[INSERT_INDICATION]", content)])
        /\ prefix ("Indication" ++ nl ++ nl) content = true).
Proof.
  intros (trace & content & H & Hp).
  vm_compute in H. injection H as _ <-.
  vm_compute in Hp. discriminate.
Qed.

Lemma indication_section_found (top_key : string) (top : TopSection)
      (others : Dict.t TopSection) :
  top_key <> "1.2" ->
  Dict.get "1.2" (subsections top) = Some indication_node ->
  section_loop "1.2" ((top_key, top) :: others)
  = ([PageLookup [12; 13]%Z],
     Returned (headed "Indication"
                      ["[Content from page 12]"; "[Content from page 13]"])).
Proof.
  intros Hk Hg. cbn [section_loop].
  apply String.eqb_neq in Hk. rewrite Hk, Hg. reflexivity.
Qed.

(** C7, amended. The row of the scenario is of type ['direct_extract'];
    against an index that holds the node "1.2", titled "Indication" with
    pages 12 and 13, under its first top-level section, the content of the
    field is the title and the contents of both pages, joined and then
    normalised as a whole: the blank lines, after the title as between the
    pages, are single spaces in the result, which begins with
    "Indication " and holds no line feed; nor does the content of any
    field that is extracted directly. *)
Theorem indication_scenario
  (OpenAI : string -> Gateway) (openai_api_key : option string)
  (top_key : string) (top : TopSection) (others : Dict.t TopSection)
  (Htop : top_key <> "1.2")
  (Hnode : Dict.get "1.2" (subsections top) = Some indication_node) :
  let mapping := parse_mapping_file indication_row in
  let content := "Indication [Content from page 12] [Content from page 13]" in
  (exists info,
      mapping = [("[INSERT_INDICATION]", info)]
      /\ mapping_type info = Some "direct_extract")
  /\ match_all_fields
       (init OpenAI {| sections := (top_key, top) :: others |}
             mapping openai_api_key)
     = ([IndexLookup "1.2"; PageLookup [12; 13]%Z],
        Returned [("[INSERT_INDICATION]", content)])
  /\ content
     = _clean_text
         (join (nl ++ nl)
               [headed "Indication"
                       ["[Content from page 12]"; "[Content from page 13]"]])
  /\ contains nl content = false
  /\ (forall self field_name mapping_info trace text,
         direct_extract self field_name mapping_info = (trace, Returned text) ->
         contains nl text = false).
Proof.
  intros mapping content.
  assert (Hm : mapping =
               [("[INSERT_INDICATION]",
                 {| field_description := Some "Indication";
                    ib_section := Some "Section 1.2";
                    ib_pages := Some [12; 13; 14]%Z;
                    mapping_type := Some "direct_extract";
                    notes := Some "" |})])
    by (vm_compute; reflexivity).
  split; [|split; [|split; [|split]]];
    [| | vm_compute; reflexivity | vm_compute; reflexivity
     | exact direct_extract_no_line_feed].
  - eexists. split; [exact Hm | reflexivity].
  - rewrite Hm.
    set (info := {| field_description := Some "Indication";
                    ib_section := Some "Section 1.2";
                    ib_pages := Some [12; 13; 14]%Z;
                    mapping_type := Some "direct_extract";
                    notes := Some "" |}).
    set (self := init OpenAI {| sections := (top_key, top) :: others |}
                      [("[INSERT_INDICATION]", info)] openai_api_key).
    assert (Hde : direct_extract self "[INSERT_INDICATION]" info
                  = ([IndexLookup "1.2"; PageLookup [12; 13]%Z],
                     Returned content)).
    { unfold direct_extract. cbn [ib_section ib_pages info getitem].
      rewrite !bind_ret_l.
      change (_extract_section_numbers "Section 1.2") with ["1.2"].
      cbn [collect_sections]. unfold _get_section_content.
      cbn [ib_index sections init self].
      rewrite (indication_section_found top_key top others Htop Hnode).
      vm_compute. reflexivity. }
    unfold match_all_fields.
    cbn [mapping_dict init self match_loop match_field mapping_type info].
    unfold getitem at 1. rewrite bind_ret_l.
    change (resolve ?s ?n "direct_extract" ?i) with (direct_extract s n i).
    fold info. fold self. rewrite Hde. vm_compute. reflexivity.
Qed.

Lemma indication_scenario_witness :
  match_all_fields
    (init (fun _ _ _ => Returned "text") indication_index
          (parse_mapping_file indication_row) None)
  = ([IndexLookup "1.2"; PageLookup [12; 13]%Z],
     Returned [("[INSERT_INDICATION]",
                "Indication [Content from page 12] [Content from page 13]")]).
Proof.
  apply (indication_scenario (fun _ _ _ => Returned "text") None "1"
           {| top_title := "SUMMARY"; top_pages := [10]%Z;
              subsections := [("1.2", indication_node)] |} []).
  - discriminate.
  - reflexivity.
Defined.

(* ================================================================== *)
(** * The parser object: field names, lookup and priorities *)
(* ================================================================== *)

Lemma dict_get_set_same {V : Type} (k : string) (v : V) (d : Dict.t V) :
  Dict.get k (Dict.set k v d) = Some v.
Proof.
  induction d as [|[k' v'] d IH]; simpl.
  - now rewrite String.eqb_refl.
  - destruct (String.eqb_spec k k') as [->|Hne]; simpl.
    + now rewrite String.eqb_refl.
    + apply String.eqb_neq in Hne. now rewrite Hne.
Qed.

Lemma dict_get_set_other {V : Type} (k k' : string) (v : V) (d : Dict.t V) :
  k <> k' -> Dict.get k (Dict.set k' v d) = Dict.get k d.
Proof.
  intros Hne. induction d as [|[k0 v0] d IH]; simpl.
  - apply String.eqb_neq in Hne. now rewrite Hne.
  - destruct (String.eqb_spec k' k0) as [->|Hne']; simpl.
    + apply String.eqb_neq in Hne. now rewrite Hne.
    + now rewrite IH.
Qed.

Lemma dict_set_keys_in {V : Type} (k k' : string) (v : V) (d : Dict.t V) :
  In k' (Dict.keys (Dict.set k v d)) <-> k' = k \/ In k' (Dict.keys d).
Proof.
  induction d as [|[k0 v0] d IH]; simpl.
  - intuition.
  - destruct (String.eqb_spec k k0) as [->|Hne]; simpl.
    + intuition.
    + rewrite IH. intuition.
Qed.

Lemma dict_set_nodup {V : Type} (k : string) (v : V) (d : Dict.t V) :
  NoDup (Dict.keys d) -> NoDup (Dict.keys (Dict.set k v d)).
Proof.
  induction d as [|[k0 v0] d IH]; simpl; intros Hnd.
  - repeat constructor. intros [].
  - inversion Hnd as [|? ? Hn Hnd']; subst.
    destruct (String.eqb_spec k k0) as [->|Hne]; simpl.
    + now constructor.
    + constructor; [|auto].
      rewrite dict_set_keys_in. intros [E|H]; [congruence | tauto].
Qed.

Lemma dict_get_none {V : Type} (k : string) (d : Dict.t V) :
  Dict.get k d = None <-> ~ In k (Dict.keys d).
Proof.
  induction d as [|[k0 v0] d IH]; simpl; [tauto|].
  destruct (String.eqb_spec k k0) as [->|Hne].
  - split; [discriminate | tauto].
  - rewrite IH. intuition congruence.
Qed.

Lemma add_rows_keys (lines : list string) (d : Dict.t MappingInfo) (k : string) :
  In k (Dict.keys (fold_left add_row lines d)) <->
  In k (Dict.keys d)
  \/ exists line info, In line lines /\ parse_row line = Some (k, info).
Proof.
  revert d; induction lines as [|line lines IH]; intros d; simpl.
  - split; [auto | intros [H|(l & i & [] & _)]; exact H].
  - rewrite IH. unfold add_row.
    destruct (parse_row line) as [[k' v']|] eqn:Hp.
    + rewrite dict_set_keys_in. split.
      * intros [[->|H]|(l & i & Hl & Hr)]; eauto 7.
      * intros [H|(l & i & [<-|Hl] & Hr)]; eauto 7.
        rewrite Hp in Hr. injection Hr as -> _. auto.
    + split.
      * intros [H|(l & i & Hl & Hr)]; eauto 7.
      * intros [H|(l & i & [<-|Hl] & Hr)]; eauto 7. congruence.
Qed.

Lemma add_rows_nodup (lines : list string) (d : Dict.t MappingInfo) :
  NoDup (Dict.keys d) -> NoDup (Dict.keys (fold_left add_row lines d)).
Proof.
  revert d; induction lines as [|line lines IH]; intros d Hd; simpl; [exact Hd|].
  apply IH. unfold add_row. destruct (parse_row line) as [[k v]|]; [|exact Hd].
  now apply dict_set_nodup.
Qed.

Lemma parse_mapping_file_nodup (content : string) :
  NoDup (Dict.keys (parse_mapping_file content)).
Proof. apply add_rows_nodup. constructor. Qed.

(** X1. The field names of a parsed specification are distinct; a
    placeholder is a field name exactly when some line of the text is a row
    that yields it; and [get_mapping_for_field] answers the empty dict for
    every other name. *)
Theorem field_names_of_specification : forall content : string,
  let names := fst (get_all_field_names new_parser content) in
  NoDup names
  /\ (forall k,
         In k names <->
         exists line info,
           In line (split (ascii_of_nat 10) content)
           /\ parse_row line = Some (k, info))
  /\ (forall k,
         ~ In k names ->
         fst (get_mapping_for_field new_parser content k) = no_mapping).
Proof.
  intros content names.
  assert (Hn : names = Dict.keys (parse_mapping_file content)) by reflexivity.
  rewrite Hn. split; [apply parse_mapping_file_nodup|]. split.
  - intros k. unfold parse_mapping_file. rewrite add_rows_keys.
    simpl. intuition.
  - intros k Hk. apply dict_get_none in Hk.
    unfold get_mapping_for_field. cbn [ensure_parsed new_parser
      MappingParser.mapping_dict fst]. now rewrite Hk.
Qed.

Lemma add_row_some (d : Dict.t MappingInfo) (line k : string)
      (info : MappingInfo) :
  parse_row line = Some (k, info) -> add_row d line = Dict.set k info d.
Proof. unfold add_row. now intros ->. Qed.

Lemma add_rows_get_skip (lines : list string) (d : Dict.t MappingInfo)
      (k : string) :
  (forall line info, In line lines -> parse_row line <> Some (k, info)) ->
  Dict.get k (fold_left add_row lines d) = Dict.get k d.
Proof.
  revert d; induction lines as [|line lines IH]; intros d H; simpl;
    [reflexivity|].
  rewrite IH by (intros l i Hl; apply H; now right).
  unfold add_row. destruct (parse_row line) as [[k' v']|] eqn:Hp;
    [|reflexivity].
  apply dict_get_set_other. intros ->.
  apply (H line v' (or_introl eq_refl)). exact Hp.
Qed.

(** X2. When several rows of the specification carry the same placeholder,
    the record of the last of them is the one that
    [get_mapping_for_field] returns. *)
Theorem last_row_of_placeholder_wins
  (content line k : string) (info : MappingInfo) (before after : list string)
  (Hlines : split (ascii_of_nat 10) content = (before ++ line :: after)%list)
  (Hrow : parse_row line = Some (k, info))
  (Hlast : forall line' info',
      In line' after -> parse_row line' <> Some (k, info')) :
  fst (get_mapping_for_field new_parser content k) = info.
Proof.
  unfold get_mapping_for_field.
  cbn [ensure_parsed new_parser MappingParser.mapping_dict fst].
  unfold parse_mapping_file. rewrite Hlines, fold_left_app. simpl.
  rewrite add_rows_get_skip by exact Hlast.
  rewrite (add_row_some _ _ _ _ Hrow). now rewrite dict_get_set_same.
Qed.

Lemma last_row_of_placeholder_wins_witness :
  let content :=
    "| [INSERT_DOSE] Dose | Section 4.1 | 30 | |" ++ nl
    ++ "| [INSERT_RISK] Risks | Section 6 | 50-52 | |" ++ nl
    ++ "| [INSERT_DOSE] Dosing | Not in IB | N/A | Ask the sponsor |" in
  fst (get_mapping_for_field new_parser content "[INSERT_DOSE]")
  = {| field_description := Some "Dosing";
       ib_section := Some "Not in IB";
       ib_pages := Some [];
       mapping_type := Some "unavailable";
       notes := Some "Ask the sponsor" |}
  /\ fst (get_all_field_names new_parser content)
     = ["[INSERT_DOSE]"; "[INSERT_RISK]"].
Proof.
  intros content. split; [|reflexivity].
  apply (last_row_of_placeholder_wins content
           "| [INSERT_DOSE] Dosing | Not in IB | N/A | Ask the sponsor |"
           "[INSERT_DOSE]" _
           ["| [INSERT_DOSE] Dose | Section 4.1 | 30 | |";
            "| [INSERT_RISK] Risks | Section 6 | 50-52 | |"] []).
  - reflexivity.
  - reflexivity.
  - intros line' info' [].
Defined.

Lemma filter_three_perm {A : Type} (f g h : A -> bool) (l : list A) :
  (forall x, In x l ->
             (f x = true /\ g x = false /\ h x = false)
             \/ (f x = false /\ g x = true /\ h x = false)
             \/ (f x = false /\ g x = false /\ h x = true)) ->
  Permutation (filter f l ++ filter g l ++ filter h l) l.
Proof.
  induction l as [|x l IH]; intros H; simpl; [constructor|].
  specialize (IH (fun y Hy => H y (or_intror Hy))).
  destruct (H x (or_introl eq_refl)) as [(-> & -> & ->)|[(-> & -> & ->)|(-> & -> & ->)]].
  - simpl. now constructor.
  - change ((x :: filter g l) ++ filter h l)%list
      with (x :: filter g l ++ filter h l).
    rewrite <- Permutation_middle. now constructor.
  - rewrite app_assoc, <- Permutation_middle, <- app_assoc. now constructor.
Qed.

Lemma parse_mapping_file_typed (content : string) :
  Forall (fun entry : string * MappingInfo =>
            has_type "direct_extract" entry = true
            /\ has_type "synthesis_required" entry = false
            /\ has_type "unavailable" entry = false
            \/ has_type "direct_extract" entry = false
               /\ has_type "synthesis_required" entry = true
               /\ has_type "unavailable" entry = false
            \/ has_type "direct_extract" entry = false
               /\ has_type "synthesis_required" entry = false
               /\ has_type "unavailable" entry = true)
         (parse_mapping_file content).
Proof.
  apply add_rows_forall; [|constructor].
  intros line entry H. apply parse_row_well_formed in H.
  destruct H as (_ & (t & Ht & Hin) & _). unfold has_type. rewrite Ht.
  simpl in Hin. destruct Hin as [<-|[<-|[<-|[]]]]; vm_compute; tauto.
Qed.

Lemma group_by_priority_spec (items : list (string * MappingInfo))
      (acc : Priorities) :
  Forall (fun entry => mapping_type (snd entry) <> None) items ->
  group_by_priority items acc
  = Returned
      {| priority_1_direct :=
           (priority_1_direct acc
            ++ map fst (filter (has_type "direct_extract") items))%list;
         priority_2_synthesis :=
           (priority_2_synthesis acc
            ++ map fst (filter (has_type "synthesis_required") items))%list;
         priority_3_unavailable :=
           (priority_3_unavailable acc
            ++ map fst (filter
                          (fun e => negb (has_type "direct_extract" e)
                                    && negb (has_type "synthesis_required" e))
                          items))%list |}.
Proof.
  revert acc; induction items as [|[k v] items IH]; intros acc Ht.
  - simpl. rewrite !app_nil_r. now destruct acc.
  - inversion Ht as [|? ? Hk Ht']; subst. cbn [snd] in Hk.
    destruct (mapping_type v) as [t|] eqn:Hv; [|congruence].
    assert (Hh : forall t', has_type t' (k, v) = (t =? t'))
      by (intros t'; unfold has_type; simpl; now rewrite Hv).
    cbn [group_by_priority]. rewrite Hv, IH by exact Ht'.
    cbn [filter]. rewrite !Hh.
    destruct (String.eqb_spec t "direct_extract") as [->|N1];
      [change ("direct_extract" =? "synthesis_required") with false
      |destruct (String.eqb_spec t "synthesis_required")];
      cbn [negb andb map fst priority_1_direct priority_2_synthesis
           priority_3_unavailable];
      rewrite <- ?app_assoc; reflexivity.
Qed.

Lemma collect_ai_fields_spec (items : list (string * MappingInfo))
      (acc : list string) :
  Forall (fun entry => mapping_type (snd entry) <> None) items ->
  collect_ai_fields items acc
  = Returned
      (acc ++ map fst (filter (has_type "synthesis_required") items))%list.
Proof.
  revert acc; induction items as [|[k v] items IH]; intros acc Ht.
  - simpl. now rewrite app_nil_r.
  - inversion Ht as [|? ? Hk Ht']; subst. cbn [snd] in Hk.
    destruct (mapping_type v) as [t|] eqn:Hv; [|congruence].
    assert (Hh : forall t', has_type t' (k, v) = (t =? t'))
      by (intros t'; unfold has_type; simpl; now rewrite Hv).
    cbn [collect_ai_fields]. rewrite Hv, IH by exact Ht'.
    cbn [filter]. rewrite !Hh.
    destruct (t =? "synthesis_required"); cbn [map fst];
      now rewrite <- ?app_assoc.
Qed.

(** X3. On every specification [get_all_fields_by_priority] returns: its
    three lists hold the field names of type ['direct_extract'],
    ['synthesis_required'] and ['unavailable'], each in the order of the
    mapping; together they hold every field name once; and
    [get_fields_requiring_ai] returns the second of them. *)
Theorem fields_by_priority_partition : forall content : string,
  let mapping := parse_mapping_file content in
  exists priorities,
    fst (get_all_fields_by_priority new_parser content) = Returned priorities
    /\ priority_1_direct priorities = names_of_type "direct_extract" mapping
    /\ priority_2_synthesis priorities
       = names_of_type "synthesis_required" mapping
    /\ priority_3_unavailable priorities = names_of_type "unavailable" mapping
    /\ Permutation (priority_1_direct priorities
                    ++ priority_2_synthesis priorities
                    ++ priority_3_unavailable priorities)
                   (fst (get_all_field_names new_parser content))
    /\ fst (get_fields_requiring_ai new_parser content)
       = Returned (priority_2_synthesis priorities).
Proof.
  intros content mapping.
  pose proof (parse_mapping_file_typed content) as Hty. fold mapping in Hty.
  assert (Hsome : Forall (fun entry : string * MappingInfo =>
                            mapping_type (snd entry) <> None) mapping).
  { eapply Forall_impl; [|exact Hty]. intros e He Hn.
    unfold has_type in He. rewrite Hn in He. intuition discriminate. }
  assert (H3 : filter (fun e => negb (has_type "direct_extract" e)
                                && negb (has_type "synthesis_required" e))
                      mapping
               = filter (has_type "unavailable") mapping).
  { apply filter_ext_in. intros e He. rewrite Forall_forall in Hty.
    destruct (Hty e He) as [(-> & -> & ->)|[(-> & -> & ->)|(-> & -> & ->)]];
      reflexivity. }
  eexists. split; [|split; [|split; [|split; [|split]]]].
  - unfold get_all_fields_by_priority.
    cbn [ensure_parsed new_parser MappingParser.mapping_dict fst].
    fold mapping. rewrite (group_by_priority_spec _ _ Hsome). reflexivity.
  - reflexivity.
  - reflexivity.
  - cbn [priority_3_unavailable]. unfold names_of_type. now rewrite H3.
  - cbn [priority_1_direct priority_2_synthesis priority_3_unavailable
         app]. rewrite H3, <- !map_app.
    apply Permutation_map. apply filter_three_perm.
    rewrite Forall_forall in Hty. exact Hty.
  - unfold get_fields_requiring_ai.
    cbn [ensure_parsed new_parser MappingParser.mapping_dict fst].
    fold mapping. rewrite (collect_ai_fields_spec _ _ Hsome). reflexivity.
Qed.

(* ================================================================== *)
(** * The report on matched content *)
(* ================================================================== *)

Lemma report_field_spec (report : TemplatePopulator.Report) (k c : string)
      (cat : Category) :
  reported (TemplatePopulator.report_field report (k, c)) cat
  = (reported report cat
     ++ (if category_eqb (category_of c) cat then [k] else []))%list.
Proof.
  unfold TemplatePopulator.report_field, category_of.
  destruct (_ || _ || _); [destruct cat; simpl; now rewrite ?app_nil_r|].
  destruct (_ || _); [destruct cat; simpl; now rewrite ?app_nil_r|].
  destruct (_ || _); destruct cat; simpl; now rewrite ?app_nil_r.
Qed.

Lemma report_fold_spec (d : Dict.t string) (report : TemplatePopulator.Report)
      (cat : Category) :
  reported (fold_left TemplatePopulator.report_field d report) cat
  = (reported report cat ++ names_in_category cat d)%list.
Proof.
  revert report; induction d as [|[k c] d IH]; intros report;
    cbn [fold_left].
  - unfold names_in_category. simpl. now rewrite app_nil_r.
  - rewrite IH, report_field_spec. unfold names_in_category.
    cbn [filter snd].
    destruct (category_eqb (category_of c) cat); simpl;
      now rewrite <- ?app_assoc, ?app_nil_r.
Qed.

Lemma generate_mapping_report_spec (d : Dict.t string) (cat : Category) :
  reported (TemplatePopulator.generate_mapping_report d) cat
  = names_in_category cat d.
Proof.
  unfold TemplatePopulator.generate_mapping_report.
  rewrite report_fold_spec. now destruct cat.
Qed.

Lemma filter_four_perm {A : Type} (c : A -> Category) (l : list A) :
  Permutation
    (filter (fun x => category_eqb (c x) Populated) l
     ++ filter (fun x => category_eqb (c x) Empty) l
     ++ filter (fun x => category_eqb (c x) NotInIB) l
     ++ filter (fun x => category_eqb (c x) Errors) l) l.
Proof.
  induction l as [|x l IH]; simpl; [constructor|].
  destruct (c x); simpl; [now constructor| | |];
    rewrite ?app_assoc; rewrite <- Permutation_middle;
    rewrite <- ?app_assoc; now constructor.
Qed.

(** X4. The four lists of [generate_mapping_report] hold the placeholders
    whose content is filed as populated, empty, not in the brochure and
    erroneous, each in the order of the dict; together they hold every
    placeholder of the dict once. *)
Theorem report_partitions_placeholders : forall d : Dict.t string,
  let report := TemplatePopulator.generate_mapping_report d in
  TemplatePopulator.populated report = names_in_category Populated d
  /\ TemplatePopulator.empty report = names_in_category Empty d
  /\ TemplatePopulator.not_in_ib report = names_in_category NotInIB d
  /\ TemplatePopulator.errors report = names_in_category Errors d
  /\ Permutation (TemplatePopulator.populated report
                  ++ TemplatePopulator.empty report
                  ++ TemplatePopulator.not_in_ib report
                  ++ TemplatePopulator.errors report)
                 (Dict.keys d).
Proof.
  intros d report.
  pose proof (generate_mapping_report_spec d Populated) as H1.
  pose proof (generate_mapping_report_spec d Empty) as H2.
  pose proof (generate_mapping_report_spec d NotInIB) as H3.
  pose proof (generate_mapping_report_spec d Errors) as H4.
  simpl in H1, H2, H3, H4. fold report in H1, H2, H3, H4.
  repeat split; auto.
  rewrite H1, H2, H3, H4. unfold names_in_category, Dict.keys.
  rewrite <- !map_app. apply Permutation_map.
  apply (filter_four_perm (fun item => category_of (snd item))).
Qed.

(* ================================================================== *)
(** * Trimming, validation and the report of sentinel contents *)
(* ================================================================== *)

Lemma lstrip_by_stops (p : ascii -> bool) (s : string) :
  stops p (lstrip_by p s).
Proof.
  induction s as [|c s IH]; simpl; [exact I|].
  destruct (p c) eqn:Hc; [exact IH | exact Hc].
Qed.

Lemma lstrip_by_nil_iff (p : ascii -> bool) (s : string) :
  lstrip_by p s = "" <-> all_chars p s = true.
Proof.
  induction s as [|c s IH]; simpl; [tauto|].
  destruct (p c); simpl; [exact IH | split; discriminate].
Qed.

Lemma rstrip_by_nil_iff (p : ascii -> bool) (s : string) :
  rstrip_by p s = "" <-> all_chars p s = true.
Proof.
  induction s as [|c s IH]; simpl; [tauto|].
  destruct (rstrip_by p s) as [|d r].
  - destruct (p c); simpl.
    + split; [intros _; now apply IH | reflexivity].
    + split; discriminate.
  - split; [discriminate|]. intros H. apply andb_true_iff in H.
    destruct H as [_ H]. apply IH in H. discriminate.
Qed.

Lemma strip_by_nil_iff (p : ascii -> bool) (s : string) :
  strip_by p s = "" <-> all_chars p s = true.
Proof.
  unfold strip_by. rewrite rstrip_by_nil_iff. split.
  - intros H. apply lstrip_by_nil_iff.
    pose proof (lstrip_by_stops p s) as Hs.
    destruct (lstrip_by p s) as [|c r]; [reflexivity|].
    simpl in H, Hs. rewrite Hs in H. discriminate.
  - intros H. apply lstrip_by_nil_iff in H. now rewrite H.
Qed.

Lemma length_zero_iff (s : string) : (String.length s =? 0)%nat = true <-> s = "".
Proof. destruct s; simpl; split; congruence. Qed.

Lemma blank_test (content : string) :
  match content with EmptyString => true | _ => false end
  || (String.length (strip content) =? 0)%nat
  = all_chars isspace content.
Proof.
  destruct (all_chars isspace content) eqn:H.
  - apply orb_true_iff. right. apply length_zero_iff.
    now apply strip_by_nil_iff.
  - apply orb_false_iff. split.
    + destruct content; [discriminate | reflexivity].
    + apply not_true_is_false. intros E. apply length_zero_iff in E.
      apply strip_by_nil_iff in E. congruence.
Qed.

(** X5. [validate_extraction] finds a content valid exactly when it holds
    a character that is not a blank; the warning "Content is empty" goes
    with an invalid content and with no other; the warning of an error or
    unavailable message goes with the contents that hold "[ERROR" or
    "[DATA NOT AVAILABLE", among them whatever
    [handle_unavailable_field] returns, which is valid all the same. *)
Theorem validation_of_content : forall field_name content : string,
  let v := validate_extraction field_name content in
  field v = field_name
  /\ is_valid v = negb (all_chars isspace content)
  /\ (In "Content is empty" (warnings v) <-> is_valid v = false)
  /\ (In "Contains error or unavailable message" (warnings v) <->
      Substring "[ERROR" content \/ Substring "[DATA NOT AVAILABLE" content)
  /\ (forall self name info trace,
         handle_unavailable_field self name info = (trace, Returned content) ->
         is_valid v = true
         /\ In "Contains error or unavailable message" (warnings v)).
Proof.
  intros field_name content v.
  assert (Hvalid : is_valid v = negb (all_chars isspace content)).
  { unfold v, validate_extraction. cbn [is_valid].
    unfold is_empty. now rewrite blank_test. }
  assert (Hflag : In "Contains error or unavailable message" (warnings v) <->
                  Substring "[ERROR" content
                  \/ Substring "[DATA NOT AVAILABLE" content).
  { unfold v, validate_extraction. cbn [warnings].
    rewrite <- !contains_spec, <- orb_true_iff.
    destruct (contains "[ERROR" content
              || contains "[DATA NOT AVAILABLE" content);
      rewrite !in_app_iff.
    - split; [reflexivity|]. intros _. right. left. now left.
    - split; [|discriminate].
      intros [H|[H|[H|H]]];
        repeat match type of H with
               | In _ (if ?b then _ else _) => destruct b
               end;
        simpl in H; intuition discriminate. }
  split; [reflexivity|]. split; [exact Hvalid|]. split; [|split; [exact Hflag|]].
  - unfold v, validate_extraction. cbn [warnings is_valid].
    unfold is_empty. rewrite blank_test.
    destruct (all_chars isspace content); rewrite !in_app_iff.
    + split; [reflexivity|]. intros _. left. now left.
    + split; [|discriminate].
      intros [H|[H|[H|H]]];
        repeat match type of H with
               | In _ (if ?b then _ else _) => destruct b
               end;
        simpl in H; intuition discriminate.
  - intros self name info trace H.
    unfold handle_unavailable_field, ret in H. injection H as _ <-.
    split.
    + rewrite Hvalid. reflexivity.
    + apply Hflag. right.
      exists "", (" IN IB - REQUIRES: "
                  ++ get_default (notes info) "External data source required"
                  ++ "]").
      reflexivity.
Qed.

Lemma category_of_unavailable (cell : string) :
  category_of ("[DATA NOT AVAILABLE IN IB - REQUIRES: " ++ cell ++ "]")
  = NotInIB.
Proof.
  unfold category_of.
  set (c := "[DATA NOT AVAILABLE IN IB - REQUIRES: " ++ cell ++ "]").
  assert (H1 : match c with EmptyString => true | _ => false end
               || (c =? "N/A") || (String.length (strip c) =? 0)%nat = false).
  { rewrite (orb_comm _ (c =? "N/A")), <- orb_assoc, blank_test.
    reflexivity. }
  rewrite H1.
  assert (H2 : contains "NOT AVAILABLE IN IB" c = true).
  { apply contains_spec.
    exists "[DATA ", (" - REQUIRES: " ++ cell ++ "]"). reflexivity. }
  now rewrite H2.
Qed.

Lemma category_of_error (message : string) :
  category_of ("[ERROR EXTRACTING CONTENT: " ++ message ++ "]") = NotInIB
  \/ category_of ("[ERROR EXTRACTING CONTENT: " ++ message ++ "]") = Errors.
Proof.
  unfold category_of.
  set (c := "[ERROR EXTRACTING CONTENT: " ++ message ++ "]").
  assert (H1 : match c with EmptyString => true | _ => false end
               || (c =? "N/A") || (String.length (strip c) =? 0)%nat = false).
  { rewrite (orb_comm _ (c =? "N/A")), <- orb_assoc, blank_test.
    reflexivity. }
  rewrite H1.
  assert (H2 : contains "[ERROR" c = true).
  { apply contains_spec.
    exists "", (" EXTRACTING CONTENT: " ++ message ++ "]"). reflexivity. }
  destruct (contains "NOT AVAILABLE IN IB" c || contains "REQUIRES:" c);
    [now left|].
  rewrite H2. now right.
Qed.

Lemma in_names_in_category (d : Dict.t string) (k c : string) (cat : Category) :
  In (k, c) d -> category_of c = cat -> In k (names_in_category cat d).
Proof.
  intros Hin Hc. unfold names_in_category.
  change k with (fst (k, c)). apply in_map. apply filter_In.
  split; [exact Hin|]. simpl. rewrite Hc. now destruct cat.
Qed.

(** X6. In the report on a dict of matched content, a field that holds
    what [handle_unavailable_field] returns is listed as not in the
    brochure; a field that holds an error text of [match_all_fields] is
    listed there or among the errors; but a field that holds the text of a
    synthesis skipped for want of a key, or the text of a content not
    found, is listed as populated. *)
Theorem report_of_sentinel_contents
  (d : Dict.t string) (k content : string) (Hin : In (k, content) d) :
  let report := TemplatePopulator.generate_mapping_report d in
  (forall self name info trace,
      handle_unavailable_field self name info = (trace, Returned content) ->
      In k (TemplatePopulator.not_in_ib report))
  /\ (forall e,
         content = "[ERROR EXTRACTING CONTENT: " ++ exn_str e ++ "]" ->
         In k (TemplatePopulator.not_in_ib report)
         \/ In k (TemplatePopulator.errors report))
  /\ (content = "[AI extraction skipped - no API key provided]"
      \/ content = "[Content not found in IB]" ->
      In k (TemplatePopulator.populated report)).
Proof.
  intros report. split; [|split].
  - intros self name info trace H.
    unfold handle_unavailable_field, ret in H. injection H as _ Hc.
    change (TemplatePopulator.not_in_ib report) with (reported report NotInIB).
    unfold report. rewrite generate_mapping_report_spec.
    apply (in_names_in_category d k content); [exact Hin|].
    rewrite <- Hc. apply category_of_unavailable.
  - intros e ->.
    change (TemplatePopulator.not_in_ib report) with (reported report NotInIB).
    change (TemplatePopulator.errors report) with (reported report Errors).
    unfold report. rewrite !generate_mapping_report_spec.
    destruct (category_of_error (exn_str e)) as [H|H]; [left|right];
      eapply in_names_in_category; eauto.
  - intros H.
    change (TemplatePopulator.populated report)
      with (reported report Populated).
    unfold report. rewrite generate_mapping_report_spec.
    apply (in_names_in_category d k content); [exact Hin|].
    destruct H as [-> | ->]; vm_compute; reflexivity.
Qed.

Lemma report_of_sentinel_contents_witness :
  let d := [ ("[INSERT_A]", "[AI extraction skipped - no API key provided]");
             ("[INSERT_B]", "[DATA NOT AVAILABLE IN IB - REQUIRES: ]");
             ("[INSERT_C]", "Indication [Content from page 12]") ] in
  In "[INSERT_A]"
     (TemplatePopulator.populated (TemplatePopulator.generate_mapping_report d)).
Proof.
  intros d.
  apply (report_of_sentinel_contents d "[INSERT_A]"
           "[AI extraction skipped - no API key provided]").
  - left. reflexivity.
  - left. reflexivity.
Defined.

(* ================================================================== *)
(** * Resolution of a field: what is looked up and what is returned *)
(* ================================================================== *)

Lemma bind_eq {A B : Type} (m : M A) (f : A -> M B) (t : list Event) (a : A) :
  m = (t, Returned a) -> bind m f = ((t ++ fst (f a))%list, snd (f a)).
Proof. intros ->. unfold bind. now destruct (f a). Qed.

Lemma get_content_from_pages_eq (page_numbers : list Z) :
  _get_content_from_pages page_numbers
  = ([PageLookup page_numbers],
     Returned (map (fun p => "[Content from page " ++ str_of_int p ++ "]")
                   (firstn 3 page_numbers))).
Proof. reflexivity. Qed.

Lemma only_lookups_app (t1 t2 : list Event) :
  only_lookups t1 -> only_lookups t2 -> only_lookups (t1 ++ t2).
Proof. unfold only_lookups. intros. apply Forall_app. auto. Qed.

Lemma subsection_step_returns (section_number : string) (node : TopSection)
      (m : M string) :
  (exists trace text, m = (trace, Returned text) /\ only_lookups trace) ->
  exists trace text,
    match Dict.get section_number (subsections node) with
    | Some sub =>
        bind (_get_content_from_pages (sub_pages sub))
             (fun content =>
                if is_nil content then m
                else ret (headed (sub_title sub) content))
    | None => m
    end = (trace, Returned text)
    /\ only_lookups trace.
Proof.
  intros (tr & text & -> & Htr).
  destruct (Dict.get section_number (subsections node)) as [sub|]; [|eauto].
  rewrite get_content_from_pages_eq. cbn [bind].
  destruct (is_nil (map _ (firstn 3 (sub_pages sub)))).
  - eexists _, _. split; [reflexivity|]. constructor; [reflexivity | exact Htr].
  - eexists _, _. split; [reflexivity|]. repeat constructor.
Qed.

Lemma section_loop_returns (section_number : string)
      (items : list (string * TopSection)) :
  exists trace text,
    section_loop section_number items = (trace, Returned text)
    /\ only_lookups trace.
Proof.
  induction items as [|[top node] items IH].
  - exists [], "". split; [reflexivity | constructor].
  - destruct (subsection_step_returns section_number node _ IH)
      as (tr & text & Hstep & Htr).
    cbn [section_loop].
    destruct (top =? section_number).
    + rewrite get_content_from_pages_eq. cbn [bind ret app].
      destruct (is_nil (map _ (firstn 3 (top_pages node)))).
      * rewrite Hstep. eexists _, _. split; [reflexivity|].
        constructor; [reflexivity | exact Htr].
      * eexists _, _. split; [reflexivity|]. repeat constructor.
    + rewrite bind_ret_l. eauto.
Qed.

Lemma get_section_content_returns (self : Matcher) (section_number : string) :
  exists trace text,
    _get_section_content self section_number = (trace, Returned text)
    /\ only_lookups trace.
Proof.
  unfold _get_section_content, tell.
  destruct (section_loop_returns section_number (sections (ib_index self)))
    as (tr & text & H & Htr).
  rewrite H. cbn [bind]. eexists _, _. split; [reflexivity|].
  constructor; [reflexivity | exact Htr].
Qed.

Lemma collect_sections_returns (self : Matcher)
      (wrap : string -> string -> string) (section_numbers : list string) :
  exists trace parts,
    collect_sections self wrap section_numbers = (trace, Returned parts)
    /\ only_lookups trace.
Proof.
  induction section_numbers as [|k rest IH].
  - exists [], []. split; [reflexivity | constructor].
  - destruct IH as (tr2 & parts & IH & Htr2).
    destruct (get_section_content_returns self k) as (tr1 & text & H1 & Htr1).
    cbn [collect_sections]. rewrite (bind_eq _ _ _ _ H1).
    rewrite (bind_eq _ _ _ _ IH). cbn [ret fst snd].
    eexists _, _. split; [reflexivity|].
    rewrite app_nil_r. now apply only_lookups_app.
Qed.

(** The content of a field extracted directly from a record that holds
    its section reference and its pages. *)
Lemma direct_extract_returns (self : Matcher) (field_name : string)
      (mapping_info : MappingInfo) :
  complete_record mapping_info ->
  exists trace content,
    direct_extract self field_name mapping_info = (trace, Returned content)
    /\ only_lookups trace.
Proof.
  intros [Hs Hp]. unfold direct_extract.
  destruct (ib_section mapping_info) as [ref|]; [|congruence].
  destruct (ib_pages mapping_info) as [pages|]; [|congruence].
  cbn [getitem]. rewrite !bind_ret_l.
  destruct (collect_sections_returns self (fun _ c => c)
              (_extract_section_numbers ref)) as (tr & parts & H & Htr).
  rewrite (bind_eq _ _ _ _ H).
  destruct (is_nil parts && negb (is_nil pages)).
  - rewrite get_content_from_pages_eq. cbn [bind fst snd ret].
    destruct (negb (is_nil _)); cbn [fst snd]; eexists _, _;
      (split; [reflexivity|]);
      apply only_lookups_app; auto; repeat constructor.
  - rewrite bind_ret_l.
    destruct (negb (is_nil parts)); cbn [ret fst snd]; eexists _, _;
      (split; [reflexivity|]); rewrite app_nil_r; exact Htr.
Qed.

(** Whatever the record, direct extraction looks up and does nothing else. *)
Lemma direct_extract_trace (self : Matcher) (field_name : string)
      (mapping_info : MappingInfo) :
  only_lookups (fst (direct_extract self field_name mapping_info)).
Proof.
  destruct (ib_section mapping_info) as [ref|] eqn:Hs.
  - destruct (ib_pages mapping_info) as [pages|] eqn:Hp.
    + destruct (direct_extract_returns self field_name mapping_info)
        as (tr & c & H & Htr).
      { split; congruence. }
      now rewrite H.
    + unfold direct_extract. rewrite Hs, Hp. cbn [getitem].
      rewrite bind_ret_l. constructor.
  - unfold direct_extract. rewrite Hs. constructor.
Qed.

Lemma append_assoc_string (a b c : string) : (a ++ b) ++ c = a ++ (b ++ c).
Proof. induction a as [|x a IH]; simpl; [reflexivity | now rewrite IH]. Qed.

Lemma length_append (s t : string) :
  String.length (s ++ t) = String.length s + String.length t.
Proof. induction s as [|c s IH]; simpl; [reflexivity | now rewrite IH]. Qed.

Lemma length_take (n : nat) (s : string) : String.length (take n s) <= n.
Proof.
  revert s; induction n as [|n IH]; intros [|c s]; simpl; try lia.
  specialize (IH s). lia.
Qed.

(** What [ai_extract] does with a client, on a record that holds its
    section reference and its pages: it looks up, and then either gives up
    for want of a source or calls the gateway once, with a prompt made of a
    bounded source. *)
Lemma ai_extract_shape (self : Matcher) (field_name : string)
      (mapping_info : MappingInfo) (create : Gateway) :
  client self = Some create ->
  complete_record mapping_info ->
  exists lookups,
    only_lookups lookups
    /\ (ai_extract self field_name mapping_info
        = (lookups,
           Returned "[No source content found in IB for AI extraction]")
        \/ exists source,
            String.length source <= max_source_length + 24
            /\ let prompt :=
                 _create_extraction_prompt
                   field_name
                   (get_default (field_description mapping_info) "")
                   source (get_default (notes mapping_info) "") in
               match create system_message prompt with
               | Returned c =>
                   ai_extract self field_name mapping_info
                   = ((lookups ++ [GatewayCall prompt; Sleep])%list,
                      Returned (strip c))
               | Raised e =>
                   ai_extract self field_name mapping_info
                   = ((lookups ++ [GatewayCall prompt])%list,
                      Returned ("[AI extraction failed: " ++ exn_str e ++ "]"
                                ++ nl ++ nl ++ "Raw content:" ++ nl
                                ++ take 500 source ++ "..."))
               end).
Proof.
  intros Hc [Hs Hp]. unfold ai_extract. rewrite Hc.
  destruct (ib_section mapping_info) as [ref|]; [|congruence].
  destruct (ib_pages mapping_info) as [pages|]; [|congruence].
  cbn [getitem]. rewrite !bind_ret_l.
  destruct (collect_sections_returns self
              (fun section_num content =>
                 "### Section " ++ section_num ++ nl ++ content)
              (_extract_section_numbers ref)) as (tr & parts & H & Htr).
  rewrite (bind_eq _ _ _ _ H).
  set (fallback := if is_nil parts && negb (is_nil pages)
                   then _get_content_from_pages pages else ret parts).
  assert (Hf : exists tr2 sc,
             fallback = (tr2, Returned sc) /\ only_lookups tr2).
  { unfold fallback. destruct (is_nil parts && negb (is_nil pages)).
    - rewrite get_content_from_pages_eq. eexists _, _.
      split; [reflexivity | repeat constructor].
    - eexists _, _. split; [reflexivity | constructor]. }
  destruct Hf as (tr2 & sc & Hf & Htr2). rewrite (bind_eq _ _ _ _ Hf).
  exists (tr ++ tr2)%list. split; [now apply only_lookups_app|].
  destruct (is_nil sc).
  - left. cbn [ret fst snd]. now rewrite !app_nil_r.
  - right.
    set (combined := join (nl ++ nl) sc).
    set (source := if (max_source_length <? String.length combined)%nat
                   then take max_source_length combined ++ nl ++ nl
                        ++ "[Content truncated...]"
                   else combined).
    exists source. split.
    + unfold source.
      destruct (max_source_length <? String.length combined)%nat eqn:E.
      * rewrite length_append.
        pose proof (length_take max_source_length combined).
        change (String.length (nl ++ nl ++ "[Content truncated...]"))
          with 24.
        lia.
      * apply Nat.ltb_ge in E. lia.
    + cbv zeta. unfold tell.
      destruct (create system_message _) as [c|e]; cbn [bind ret fst snd app];
        now rewrite <- app_assoc.
Qed.

Lemma lookup_not_gateway_call (lookups : list Event) (prompt : string) :
  only_lookups lookups -> ~ In (GatewayCall prompt) lookups.
Proof.
  intros H Hin. unfold only_lookups in H. rewrite Forall_forall in H.
  specialize (H _ Hin). discriminate.
Qed.

Lemma lookup_not_sleep (lookups : list Event) :
  only_lookups lookups -> ~ In Sleep lookups.
Proof.
  intros H Hin. unfold only_lookups in H. rewrite Forall_forall in H.
  specialize (H _ Hin). discriminate.
Qed.

Lemma lookups_no_gateway_call (lookups : list Event) :
  only_lookups lookups -> filter is_gateway_call lookups = [].
Proof.
  induction 1 as [|ev l Hev Hl IH]; [reflexivity|].
  simpl. destruct ev; try discriminate; exact IH.
Qed.

(** X7. On a record that holds its section reference and its pages
    [ai_extract] never raises, whatever the gateway does: it calls the
    gateway once at most; when the call returns, the content is the
    trimmed answer and a sleep follows; when the call raises, the content
    begins with "[AI extraction failed: <message>]" and no sleep follows. *)
Theorem gateway_failure_is_contained
  (self : Matcher) (field_name : string) (mapping_info : MappingInfo)
  (Hrecord : complete_record mapping_info) :
  exists trace content,
    ai_extract self field_name mapping_info = (trace, Returned content)
    /\ List.length (filter is_gateway_call trace) <= 1
    /\ forall create prompt,
        client self = Some create ->
        In (GatewayCall prompt) trace ->
        match create system_message prompt with
        | Returned answer => content = strip answer /\ In Sleep trace
        | Raised e =>
            prefix ("[AI extraction failed: " ++ exn_str e ++ "]") content
            = true
            /\ ~ In Sleep trace
        end.
Proof.
  destruct (client self) as [create|] eqn:Hc.
  - destruct (ai_extract_shape self field_name mapping_info create Hc Hrecord)
      as (lookups & Hl & [H|(source & _ & H)]).
    + exists lookups, "[No source content found in IB for AI extraction]".
      split; [exact H|]. split.
      * rewrite lookups_no_gateway_call by exact Hl. simpl. lia.
      * intros create' prompt _ Hin.
        now apply lookup_not_gateway_call in Hin.
    + cbv zeta in H.
      set (p := _create_extraction_prompt
                  field_name (get_default (field_description mapping_info) "")
                  source (get_default (notes mapping_info) "")) in *.
      destruct (create system_message p) as [c|e] eqn:Hg.
      * eexists _, _. split; [exact H|]. split.
        -- rewrite filter_app, lookups_no_gateway_call by exact Hl.
           simpl. lia.
        -- intros create' prompt Hc' Hin. injection Hc' as <-.
           apply in_app_iff in Hin.
           destruct Hin as [Hin|[Hin|[Hin|[]]]];
             [now apply lookup_not_gateway_call in Hin | | discriminate].
           injection Hin as <-. rewrite Hg. split; [reflexivity|].
           apply in_app_iff. right. simpl. tauto.
      * eexists _, _. split; [exact H|]. split.
        -- rewrite filter_app, lookups_no_gateway_call by exact Hl.
           simpl. lia.
        -- intros create' prompt Hc' Hin. injection Hc' as <-.
           apply in_app_iff in Hin.
           destruct Hin as [Hin|[Hin|[]]];
             [now apply lookup_not_gateway_call in Hin|].
           injection Hin as <-. rewrite Hg. split.
           ++ apply prefix_spec. eexists.
              rewrite !append_assoc_string. reflexivity.
           ++ intros Hs. apply in_app_iff in Hs.
              destruct Hs as [Hs|[Hs|[]]];
                [now apply lookup_not_sleep in Hs | discriminate].
  - exists [], "[AI extraction skipped - no API key provided]".
    split; [now apply ai_extract_without_client|]. split; [simpl; lia|].
    intros create prompt Hc'. discriminate.
Qed.

Lemma gateway_failure_is_contained_witness :
  exists trace content,
    ai_extract failing_matcher "[INSERT_USAGE]" synthesis_record
    = (trace, Returned content)
    /\ prefix "[AI extraction failed: Rate limit reached]" content = true
    /\ ~ In Sleep trace.
Proof.
  destruct (gateway_failure_is_contained
              failing_matcher "[INSERT_USAGE]" synthesis_record)
    as (trace & content & H & _ & Hf).
  - split; discriminate.
  - exists trace, content. split; [exact H|].
    vm_compute in H. injection H as <- <-.
    refine (Hf failing_gateway _ eq_refl _).
    right; right; right; left. reflexivity.
Defined.

(** X8. Whenever [ai_extract] calls the gateway, the prompt is the
    extraction prompt of the field, of its description and of its notes,
    on a source of 10000 characters at most, the 24 characters of the
    truncation mark apart. *)
Theorem gateway_prompt_is_bounded
  (self : Matcher) (field_name : string) (mapping_info : MappingInfo)
  (create : Gateway) (prompt : string)
  (Hclient : client self = Some create)
  (Hrecord : complete_record mapping_info)
  (Hcall : In (GatewayCall prompt)
              (fst (ai_extract self field_name mapping_info))) :
  exists source,
    String.length source <= max_source_length + 24
    /\ prompt
       = _create_extraction_prompt
           field_name (get_default (field_description mapping_info) "")
           source (get_default (notes mapping_info) "").
Proof.
  destruct (ai_extract_shape self field_name mapping_info create
              Hclient Hrecord) as (lookups & Hl & [H|(source & Hb & H)]).
  - rewrite H in Hcall. now apply lookup_not_gateway_call in Hcall.
  - exists source. split; [exact Hb|]. cbv zeta in H.
    destruct (create system_message _); rewrite H in Hcall;
      cbn [fst] in Hcall; apply in_app_iff in Hcall;
      destruct Hcall as [Hin|Hin];
      try (now apply lookup_not_gateway_call in Hin);
      simpl in Hin; intuition congruence.
Qed.

Lemma gateway_prompt_is_bounded_witness :
  exists prompt source,
    In (GatewayCall prompt)
       (fst (ai_extract failing_matcher "[INSERT_USAGE]" synthesis_record))
    /\ String.length source <= max_source_length + 24
    /\ prompt
       = _create_extraction_prompt "[INSERT_USAGE]" "Indication and usage"
                                   source "Summarize".
Proof.
  assert (Hcall : In (GatewayCall
                        (_create_extraction_prompt
                           "[INSERT_USAGE]" "Indication and usage"
                           ("### Section 1.2" ++ nl ++ "Indication" ++ nl ++ nl
                            ++ "[Content from page 12]" ++ nl ++ nl
                            ++ "[Content from page 13]")
                           "Summarize"))
                    (fst (ai_extract failing_matcher "[INSERT_USAGE]"
                                     synthesis_record))).
  { vm_compute. right; right; right. left. reflexivity. }
  assert (Hrecord : complete_record synthesis_record)
    by (split; discriminate).
  destruct (gateway_prompt_is_bounded
              failing_matcher "[INSERT_USAGE]" synthesis_record
              failing_gateway _ eq_refl Hrecord Hcall)
    as (source & Hb & Hp).
  eexists _, source. split; [exact Hcall|]. split; [exact Hb | exact Hp].
Defined.

(* ================================================================== *)
(** * The second stage on a parsed specification *)
(* ================================================================== *)

Lemma ai_extract_returns (self : Matcher) (field_name : string)
      (mapping_info : MappingInfo) :
  complete_record mapping_info ->
  exists trace content,
    ai_extract self field_name mapping_info = (trace, Returned content).
Proof.
  intros Hr. destruct (client self) as [create|] eqn:Hc.
  - destruct (ai_extract_shape self field_name mapping_info create Hc Hr)
      as (lookups & _ & [H|(source & _ & H)]); [eauto|].
    cbv zeta in H. destruct (create system_message _); eauto.
  - eexists _, _. now apply ai_extract_without_client.
Qed.

Lemma resolve_returns (self : Matcher) (field_name t : string)
      (mapping_info : MappingInfo) :
  complete_record mapping_info ->
  exists trace content,
    resolve self field_name t mapping_info = (trace, Returned content).
Proof.
  intros Hr. unfold resolve.
  destruct (t =? "direct_extract").
  - destruct (direct_extract_returns self field_name mapping_info Hr)
      as (tr & c & H & _). eauto.
  - destruct (t =? "synthesis_required").
    + now apply ai_extract_returns.
    + eexists _, _. reflexivity.
Qed.

Lemma parse_row_complete (line : string) (entry : string * MappingInfo) :
  parse_row line = Some entry ->
  complete_record (snd entry) /\ mapping_type (snd entry) <> None.
Proof.
  unfold parse_row.
  destruct (table_row_match line) as [[[[g1 g2] g3] g4]|]; [|discriminate].
  cbv zeta.
  destruct (existsb _ _); [discriminate|].
  destruct (_ || _); [discriminate|].
  destruct (placeholder_search (strip g1)) as [p|]; [|discriminate].
  intros H. injection H as <-. unfold complete_record. simpl.
  repeat split; discriminate.
Qed.

Lemma parse_mapping_file_complete (content : string) :
  Forall (fun entry : string * MappingInfo =>
            complete_record (snd entry) /\ mapping_type (snd entry) <> None)
         (parse_mapping_file content).
Proof.
  apply add_rows_forall; [|constructor]. exact parse_row_complete.
Qed.

Lemma match_all_fields_result (self : Matcher) :
  NoDup (Dict.keys (mapping_dict self)) ->
  (forall name info,
      In (name, info) (mapping_dict self) -> mapping_type info <> None) ->
  exists trace,
    match_all_fields self
    = (trace,
       Returned (map (fun item => (fst item, entry_content self item))
                     (mapping_dict self))).
Proof.
  intros Hnd Hty.
  destruct (match_loop_typed self (mapping_dict self) Hty
              {| matched_content := []; direct_count := 0;
                 ai_count := 0; unavailable_count := 0 |})
    as (trace & st & Hloop & Hc).
  cbn [matched_content] in Hc.
  rewrite dict_fold_set_fresh in Hc by exact Hnd. simpl in Hc.
  exists trace. unfold match_all_fields. rewrite Hloop. unfold bind, ret.
  now rewrite app_nil_r, Hc.
Qed.

(** X9. The second stage never takes the error path on a specification
    that was parsed: whatever the text, the index, the key and the
    gateway, [match_all_fields] on the parsed mapping returns one content
    for each field name, in the order of the mapping, and this content is
    what the resolution of the field returned, no resolution raising. *)
Theorem stage_two_resolves_every_field :
  forall (OpenAI : string -> Gateway) (index : IBIndex) (content : string)
         (openai_api_key : option string),
  let mapping := parse_mapping_file content in
  let self := init OpenAI index mapping openai_api_key in
  exists trace result,
    match_all_fields self = (trace, Returned result)
    /\ Dict.keys result = Dict.keys mapping
    /\ forall name info,
        In (name, info) mapping ->
        exists t lookups text,
          mapping_type info = Some t
          /\ resolve self name t info = (lookups, Returned text)
          /\ Dict.get name result = Some text.
Proof.
  intros OpenAI index content key mapping self.
  pose proof (parse_mapping_file_complete content) as Hc.
  fold mapping in Hc. rewrite Forall_forall in Hc.
  assert (Hnd : NoDup (Dict.keys (mapping_dict self)))
    by apply parse_mapping_file_nodup.
  destruct (match_all_fields_result self Hnd) as [trace Hr].
  { intros name info Hin. apply (Hc _ Hin). }
  eexists _, _. split; [exact Hr|]. split.
  - unfold Dict.keys. rewrite map_map. reflexivity.
  - intros name info Hin. destruct (Hc _ Hin) as [Hrec Hty].
    cbn [snd] in Hrec, Hty.
    destruct (mapping_type info) as [t|] eqn:Ht; [|congruence].
    destruct (resolve_returns self name t info Hrec) as (tr & c & Hres).
    exists t, tr, c. split; [reflexivity|]. split; [exact Hres|].
    change (mapping_dict self) with mapping.
    rewrite (dict_get_map (entry_content self) mapping name info Hnd Hin).
    unfold entry_content. cbn [fst snd]. now rewrite Ht, Hres.
Qed.

Lemma match_loop_trace (self : Matcher)
      (items : list (string * MappingInfo)) :
  (forall name info, In (name, info) items -> mapping_type info <> None) ->
  (forall name t info, only_lookups (fst (resolve self name t info))) ->
  forall st, only_lookups (fst (match_loop self st items)).
Proof.
  intros Hty Hres. induction items as [|[name info] items IH]; intros st.
  - constructor.
  - destruct (mapping_type info) as [t|] eqn:Ht.
    2:{ exfalso. eapply Hty; [left; reflexivity | exact Ht]. }
    destruct (match_field_typed self st name info t Ht) as (st1 & H1 & _).
    cbn [match_loop]. rewrite (bind_eq _ _ _ _ H1). cbn [fst].
    apply only_lookups_app; [apply Hres|].
    apply IH. intros n i Hin. apply (Hty n i). now right.
Qed.

Lemma resolve_without_client_trace (self : Matcher) (name t : string)
      (info : MappingInfo) :
  client self = None -> only_lookups (fst (resolve self name t info)).
Proof.
  intros Hc. unfold resolve.
  destruct (t =? "direct_extract"); [apply direct_extract_trace|].
  destruct (t =? "synthesis_required").
  - rewrite ai_extract_without_client by exact Hc. constructor.
  - constructor.
Qed.

(** X10. Without an API key ([None] or the empty string) the second stage
    on a parsed specification never calls the gateway and never sleeps:
    its trace holds lookups only; and every field that
    [get_fields_requiring_ai] lists ends with the content
    "[AI extraction skipped - no API key provided]". *)
Theorem no_key_no_gateway
  (OpenAI : string -> Gateway) (index : IBIndex) (content : string)
  (openai_api_key : option string)
  (Hkey : openai_api_key = None \/ openai_api_key = Some "") :
  exists trace result ai_fields,
    match_all_fields
      (init OpenAI index (parse_mapping_file content) openai_api_key)
    = (trace, Returned result)
    /\ only_lookups trace
    /\ fst (get_fields_requiring_ai new_parser content) = Returned ai_fields
    /\ forall k,
        In k ai_fields ->
        Dict.get k result
        = Some "[AI extraction skipped - no API key provided]".
Proof.
  set (mapping := parse_mapping_file content).
  set (self := init OpenAI index mapping openai_api_key).
  assert (Hclient : client self = None) by now apply init_without_key.
  pose proof (parse_mapping_file_complete content) as Hc.
  fold mapping in Hc. rewrite Forall_forall in Hc.
  assert (Hty : forall name info,
             In (name, info) (mapping_dict self) -> mapping_type info <> None).
  { intros name info Hin. apply (Hc _ Hin). }
  assert (Hnd : NoDup (Dict.keys (mapping_dict self)))
    by apply parse_mapping_file_nodup.
  destruct (match_all_fields_result self Hnd Hty) as [trace Hr].
  exists trace, (map (fun item => (fst item, entry_content self item)) mapping),
    (names_of_type "synthesis_required" mapping).
  split; [exact Hr|]. split; [|split].
  - assert (Ht : trace = fst (match_all_fields self)) by now rewrite Hr.
    rewrite Ht. unfold match_all_fields.
    pose proof (match_loop_trace self (mapping_dict self) Hty
                  (fun n t i => resolve_without_client_trace self n t i Hclient)
                  {| matched_content := []; direct_count := 0;
                     ai_count := 0; unavailable_count := 0 |}) as Hl.
    destruct (match_loop self _ (mapping_dict self)) as [tr [st|e]];
      cbn [bind ret fst] in *; rewrite ?app_nil_r; exact Hl.
  - unfold get_fields_requiring_ai.
    cbn [ensure_parsed new_parser MappingParser.mapping_dict fst].
    fold mapping. rewrite collect_ai_fields_spec; [reflexivity|].
    apply Forall_forall. intros e He. apply (Hc _ He).
  - intros k Hk. unfold names_of_type in Hk.
    apply in_map_iff in Hk. destruct Hk as ([k' info] & <- & Hin).
    apply filter_In in Hin. destruct Hin as [Hin Hty']. cbn [fst].
    rewrite (dict_get_map (entry_content self) mapping k' info Hnd Hin).
    unfold entry_content. cbn [fst snd]. unfold has_type in Hty'.
    cbn [snd] in Hty'. destruct (mapping_type info) as [t|]; [|discriminate].
    apply String.eqb_eq in Hty'. subst t.
    unfold resolve. cbn [String.eqb Ascii.eqb Bool.eqb].
    change ("synthesis_required" =? "direct_extract") with false.
    change ("synthesis_required" =? "synthesis_required") with true.
    cbv iota. now rewrite ai_extract_without_client.
Qed.

Lemma no_key_no_gateway_witness :
  let content :=
    "| [INSERT_SUMMARY] Summary | Sections 1.2 and 9 | 12 | Summarize |"
    ++ nl ++ "| [INSERT_INDICATION] Indication | Section 1.2 | 12-14 | |" in
  exists trace result,
    match_all_fields
      (init (fun _ => failing_gateway) indication_index
            (parse_mapping_file content) (Some ""))
    = (trace, Returned result)
    /\ only_lookups trace
    /\ Dict.get "[INSERT_SUMMARY]" result
       = Some "[AI extraction skipped - no API key provided]".
Proof.
  intros content.
  destruct (no_key_no_gateway (fun _ => failing_gateway) indication_index
              content (Some "") (or_intror eq_refl))
    as (trace & result & ai_fields & Hr & Hl & Ha & Hs).
  exists trace, result. split; [exact Hr|]. split; [exact Hl|].
  apply Hs. vm_compute in Ha. injection Ha as <-. left. reflexivity.
Defined.

(* ================================================================== *)
(** * Section numbers of a reference *)
(* ================================================================== *)

Lemma find_section_tokens_no_digit (prev_word : bool) (s : string) :
  all_chars (fun c => negb (isdigit c)) s = true ->
  find_section_tokens prev_word 0 s = [].
Proof.
  revert prev_word; induction s as [|c s IH]; intros prev_word H;
    [reflexivity|].
  simpl in H. apply andb_true_iff in H. destruct H as [Hc H].
  apply negb_true_iff in Hc. cbn [find_section_tokens].
  rewrite Hc, andb_false_r. now apply IH.
Qed.

(** X11. A field extracted directly whose section reference holds no
    digit never looks into the index: with no pages either it resolves to
    "[Content not found in IB]" without any lookup, and with pages it
    resolves to the cleaned contents of its first three pages. *)
Theorem direct_extract_without_section_number
  (self : Matcher) (field_name reference : string) (page_numbers : list Z)
  (mapping_info : MappingInfo)
  (Hsection : ib_section mapping_info = Some reference)
  (Hpages : ib_pages mapping_info = Some page_numbers)
  (Hdigit : all_chars (fun c => negb (isdigit c)) reference = true) :
  direct_extract self field_name mapping_info
  = match page_numbers with
    | [] => ([], Returned "[Content not found in IB]")
    | _ :: _ =>
        ([PageLookup page_numbers],
         Returned (_clean_text (join (nl ++ nl) (page_contents page_numbers))))
    end.
Proof.
  unfold direct_extract. rewrite Hsection, Hpages. cbn [getitem].
  rewrite !bind_ret_l. unfold _extract_section_numbers.
  rewrite find_section_tokens_no_digit by exact Hdigit.
  cbn [collect_sections]. rewrite bind_ret_l.
  destruct page_numbers as [|p ps]; [reflexivity|].
  cbn [is_nil negb andb]. rewrite get_content_from_pages_eq.
  reflexivity.
Qed.

Lemma direct_extract_without_section_number_witness :
  let info := {| field_description := Some "Overview";
                 ib_section := Some "Front matter";
                 ib_pages := Some [2; 3; 4; 5]%Z;
                 mapping_type := Some "direct_extract";
                 notes := Some "" |} in
  direct_extract sample_matcher "[INSERT_OVERVIEW]" info
  = ([PageLookup [2; 3; 4; 5]%Z],
     Returned "[Content from page 2] [Content from page 3] [Content from page 4]").
Proof.
  intros info.
  apply (direct_extract_without_section_number
           sample_matcher "[INSERT_OVERVIEW]" "Front matter"
           [2; 3; 4; 5]%Z info eq_refl eq_refl eq_refl).
Defined.

Lemma concat_empty_cons (g : string) (gs : list string) :
  String.concat "" (g :: gs) = g ++ String.concat "" gs.
Proof.
  destruct gs as [|g' gs]; simpl; [|reflexivity].
  induction g as [|c g IH]; simpl; [reflexivity | now rewrite <- IH].
Qed.

Lemma dotted_groups_spec (fuel : nat) (s : string) (gs : list string)
      (rest : string) :
  dotted_groups fuel s = (gs, rest) ->
  Forall dot_group gs /\ s = String.concat "" gs ++ rest.
Proof.
  revert s gs rest; induction fuel as [|fuel IH]; intros s gs rest H.
  - simpl in H. injection H as <- <-. split; [constructor | reflexivity].
  - destruct s as [|c s]; [injection H as <- <-; split; [constructor|reflexivity]|].
    cbn [dotted_groups] in H.
    destruct (Ascii.eqb_spec c ".") as [->|Hne].
    2:{ assert (E : gs = [] /\ rest = String c s).
        { destruct c as [[] [] [] [] [] [] [] []]; try (injection H as <- <-; auto).
          congruence. }
        destruct E as [-> ->]. split; [constructor | reflexivity]. }
    destruct (span isdigit s) as [d r] eqn:Hs.
    destruct d as [|x d].
    + injection H as <- <-. split; [constructor | reflexivity].
    + destruct (dotted_groups fuel r) as [gs' rest'] eqn:Hg.
      injection H as <- <-.
      destruct (IH _ _ _ Hg) as [Hall ->].
      apply span_eq in Hs. destruct Hs as (-> & Ha & _).
      split.
      * constructor; [|exact Hall]. exists (String x d).
        split; [reflexivity|]. split; [discriminate | exact Ha].
      * rewrite concat_empty_cons. cbn [append].
        now rewrite !append_assoc_string.
Qed.

Lemma dotted_number_of_groups (d : string) (gs : list string) :
  digit_run d -> Forall dot_group gs ->
  dotted_number (d ++ String.concat "" gs).
Proof.
  intros Hd Hgs. revert d Hd.
  induction Hgs as [|g gs (d' & -> & Hd') Hgs IH]; intros d Hd.
  - simpl. replace (d ++ "") with d; [now constructor|].
    clear. induction d as [|c d IH]; simpl; [reflexivity | now rewrite <- IH].
  - rewrite concat_empty_cons, append_assoc_string.
    apply dotted_cons; [exact Hd | now apply IH].
Qed.

Lemma forall_removelast {A : Type} (P : A -> Prop) (l : list A) :
  Forall P l -> Forall P (removelast l).
Proof.
  induction 1 as [|x l Hx Hl IH]; [constructor|].
  simpl. destruct l; [constructor | now constructor].
Qed.

Lemma concat_removelast (gs : list string) :
  gs <> [] ->
  String.concat "" gs = String.concat "" (removelast gs) ++ last gs "".
Proof.
  induction gs as [|g gs IH]; [congruence|]. intros _.
  destruct gs as [|g' gs].
  - simpl. reflexivity.
  - change (removelast (g :: g' :: gs)) with (g :: removelast (g' :: gs)).
    change (last (g :: g' :: gs) "") with (last (g' :: gs) "").
    rewrite (concat_empty_cons g (g' :: gs)).
    rewrite (concat_empty_cons g (removelast (g' :: gs))).
    rewrite append_assoc_string. f_equal. apply IH. discriminate.
Qed.

Lemma section_token_at_spec (s tok : string) :
  section_token_at s = Some tok ->
  dotted_number tok /\ exists rest, s = tok ++ rest.
Proof.
  unfold section_token_at.
  destruct (span isdigit s) as [d r] eqn:Hs.
  destruct d as [|x d]; [discriminate|].
  apply span_eq in Hs. destruct Hs as (-> & Ha & _).
  assert (Hd : digit_run (String x d)) by (split; [discriminate | exact Ha]).
  destruct (dotted_groups (String.length r) r) as [gs rest] eqn:Hg.
  apply dotted_groups_spec in Hg. destruct Hg as [Hall ->].
  destruct (boundary_after rest).
  - intros H. injection H as <-. split.
    + exact (dotted_number_of_groups (String x d) gs Hd Hall).
    + exists rest. simpl. now rewrite append_assoc_string.
  - destruct gs as [|g gs]; [discriminate|].
    intros H. injection H as <-. split.
    + exact (dotted_number_of_groups (String x d) _ Hd
               (forall_removelast _ _ Hall)).
    + exists (last (g :: gs) "" ++ rest).
      rewrite (concat_removelast (g :: gs)) by discriminate.
      cbn [append]. now rewrite !append_assoc_string.
Qed.

Lemma find_section_tokens_spec (prev_word : bool) (skip : nat)
      (s tok : string) :
  In tok (find_section_tokens prev_word skip s) ->
  exists pre s', s = pre ++ s' /\ section_token_at s' = Some tok.
Proof.
  revert prev_word skip; induction s as [|c s IH]; intros prev_word skip H;
    [destruct H|].
  assert (Hrec : forall b k, In tok (find_section_tokens b k s) ->
                             exists pre s', String c s = pre ++ s'
                                            /\ section_token_at s' = Some tok).
  { intros b k Hin. destruct (IH _ _ Hin) as (pre & s' & -> & Hs).
    exists (String c pre), s'. auto. }
  cbn [find_section_tokens] in H. destruct skip as [|k]; [|eauto].
  destruct (negb prev_word && isdigit c); [|eauto].
  destruct (section_token_at (String c s)) as [t|] eqn:Ht; [|eauto].
  destruct H as [<-|H]; [|eauto].
  exists "", (String c s). auto.
Qed.

Lemma split_no_sep (sep : ascii) (d : string) :
  all_chars (fun c => negb (Ascii.eqb c sep)) d = true -> split sep d = [d].
Proof.
  induction d as [|c d IH]; simpl; intros H; [reflexivity|].
  apply andb_true_iff in H. destruct H as [Hc H].
  apply negb_true_iff in Hc. rewrite Hc, IH by exact H. reflexivity.
Qed.

Lemma split_app_sep (sep : ascii) (d s : string) :
  all_chars (fun c => negb (Ascii.eqb c sep)) d = true ->
  split sep (d ++ String sep s) = d :: split sep s.
Proof.
  induction d as [|c d IH]; simpl; intros H.
  - now rewrite Ascii.eqb_refl.
  - apply andb_true_iff in H. destruct H as [Hc H].
    apply negb_true_iff in Hc. rewrite Hc, IH by exact H. reflexivity.
Qed.

Lemma digit_not_dot (c : ascii) :
  isdigit c = true -> negb (Ascii.eqb c ".") = true.
Proof. destruct c as [[] [] [] [] [] [] [] []]; vm_compute; congruence. Qed.

Lemma digit_run_no_dot (d : string) :
  digit_run d -> all_chars (fun c => negb (Ascii.eqb c ".")) d = true.
Proof.
  intros [_ H]. induction d as [|c d IH]; simpl in *; [reflexivity|].
  apply andb_true_iff in H. destruct H as [Hc H].
  now rewrite digit_not_dot, IH.
Qed.

Lemma int_of_digit_run (d : string) :
  digit_run d -> int d = Some (digits_value 0 d).
Proof.
  intros [Hne H]. unfold int. destruct d; [congruence|]. now rewrite H.
Qed.

Lemma dotted_number_split (s : string) :
  dotted_number s ->
  split "." s <> []
  /\ Forall digit_run (split "." s)
  /\ all_chars (fun c => negb (Ascii.eqb c ".")) (hd "" (split "." s)) = true.
Proof.
  induction 1 as [d Hd|d s Hd Hs (IH1 & IH2 & IH3)].
  - rewrite split_no_sep by now apply digit_run_no_dot.
    split; [discriminate|]. split.
    + constructor; [exact Hd | constructor].
    + now apply digit_run_no_dot.
  - change (d ++ "." ++ s) with (d ++ String "." s).
    rewrite split_app_sep by now apply digit_run_no_dot.
    split; [discriminate|]. split.
    + constructor; [exact Hd | exact IH2].
    + now apply digit_run_no_dot.
Qed.

Lemma traverse_int_digit_runs (parts : list string) :
  Forall digit_run parts -> exists key, traverse int parts = Some key.
Proof.
  induction 1 as [|d parts Hd Hp (key & IH)]; [now exists []|].
  exists (digits_value 0 d :: key). simpl.
  now rewrite (int_of_digit_run d Hd), IH.
Qed.

Lemma dotted_number_sort_key (s : string) :
  dotted_number s -> exists key, _section_sort_key s = Some key.
Proof.
  intros H. unfold _section_sort_key.
  apply traverse_int_digit_runs. now apply dotted_number_split.
Qed.

(** X12. Every section number that [_extract_section_numbers] reads from
    a reference is made of runs of digits with single dots between them,
    occurs in the reference, and has a sort key: [_section_sort_key] does
    not raise on it. *)
Theorem extracted_section_numbers_are_numbers :
  forall reference token : string,
    In token (_extract_section_numbers reference) ->
    dotted_number token
    /\ Substring token reference
    /\ exists key, _section_sort_key token = Some key.
Proof.
  intros reference token H. unfold _extract_section_numbers in H.
  apply find_section_tokens_spec in H. destruct H as (pre & s' & -> & H).
  apply section_token_at_spec in H. destruct H as [Hd [rest ->]].
  split; [exact Hd|]. split; [now exists pre, rest|].
  now apply dotted_number_sort_key.
Qed.

Lemma extracted_section_numbers_are_numbers_witness :
  _extract_section_numbers "Sections 1.2 and 5.5.1" = ["1.2"; "5.5.1"]
  /\ dotted_number "5.5.1"
  /\ Substring "5.5.1" "Sections 1.2 and 5.5.1"
  /\ exists key, _section_sort_key "5.5.1" = Some key.
Proof.
  split; [reflexivity|].
  apply (extracted_section_numbers_are_numbers "Sections 1.2 and 5.5.1").
  vm_compute. auto.
Defined.

(* ================================================================== *)
(** * Cleaned text is trimmed *)
(* ================================================================== *)

Lemma lstrip_by_fixed (p : ascii -> bool) (s : string) :
  stops p s -> lstrip_by p s = s.
Proof. destruct s as [|c s]; simpl; [reflexivity | now intros ->]. Qed.

Lemma rstrip_by_cons (p : ascii -> bool) (c : ascii) (s : string) :
  rstrip_by p (String c s)
  = match rstrip_by p s with
    | EmptyString => if p c then EmptyString else String c EmptyString
    | r => String c r
    end.
Proof. reflexivity. Qed.

Lemma rstrip_by_idem (p : ascii -> bool) (s : string) :
  rstrip_by p (rstrip_by p s) = rstrip_by p s.
Proof.
  induction s as [|c s IH]; [reflexivity|]. rewrite rstrip_by_cons.
  destruct (rstrip_by p s) as [|d r] eqn:Hr.
  - destruct (p c) eqn:Hc; [reflexivity|]. simpl. now rewrite Hc.
  - rewrite rstrip_by_cons, IH. reflexivity.
Qed.

Lemma rstrip_by_stops (p : ascii -> bool) (s : string) :
  stops p s -> stops p (rstrip_by p s).
Proof.
  destruct s as [|c s]; [auto|]. cbn [rstrip_by stops]. intros Hc.
  destruct (rstrip_by p s); [now rewrite Hc | exact Hc].
Qed.

Lemma strip_by_idem (p : ascii -> bool) (s : string) :
  strip_by p (strip_by p s) = strip_by p s.
Proof.
  unfold strip_by.
  rewrite (lstrip_by_fixed p (rstrip_by p (lstrip_by p s)))
    by apply rstrip_by_stops, lstrip_by_stops.
  apply rstrip_by_idem.
Qed.

Lemma collapse_whitespace_plain (in_run : bool) (text : string) :
  all_chars plain_char (collapse_whitespace in_run text) = true.
Proof.
  revert in_run; induction text as [|c text IH]; intros in_run; simpl;
    [reflexivity|].
  destruct (isspace c) eqn:Hc.
  - destruct in_run; simpl; auto.
  - simpl. unfold plain_char at 1. rewrite Hc. simpl. apply IH.
Qed.

Lemma collapse_whitespace_blank (in_run : bool) (text : string) :
  all_chars isspace text = true ->
  all_chars isspace (collapse_whitespace in_run text) = true.
Proof.
  revert in_run; induction text as [|c text IH]; intros in_run H; simpl;
    [reflexivity|].
  simpl in H. apply andb_true_iff in H. destruct H as [Hc H].
  rewrite Hc. destruct in_run; simpl; auto.
Qed.

Lemma collapse_whitespace_length (in_run : bool) (text : string) :
  String.length (collapse_whitespace in_run text) <= String.length text.
Proof.
  revert in_run; induction text as [|c text IH]; intros in_run; simpl; [lia|].
  destruct (isspace c); [destruct in_run|]; simpl;
    match goal with
    | |- context [collapse_whitespace ?b text] => specialize (IH b); lia
    end.
Qed.

Lemma remove_page_artifacts_length (skip : nat) (text : string) :
  String.length (remove_page_artifacts skip text) <= String.length text.
Proof.
  revert skip; induction text as [|c text IH]; intros skip; [simpl; lia|].
  cbn [remove_page_artifacts]. destruct skip as [|k].
  - destruct (page_artifact_at (String c text)) as [n|]; simpl.
    + specialize (IH (n - 1)). lia.
    + specialize (IH 0). lia.
  - simpl. specialize (IH k). lia.
Qed.

Lemma lstrip_by_length (p : ascii -> bool) (s : string) :
  String.length (lstrip_by p s) <= String.length s.
Proof.
  induction s as [|c s IH]; simpl; [lia|]. destruct (p c); simpl; lia.
Qed.

Lemma rstrip_by_length (p : ascii -> bool) (s : string) :
  String.length (rstrip_by p s) <= String.length s.
Proof.
  induction s as [|c s IH]; simpl; [lia|].
  destruct (rstrip_by p s); [destruct (p c)|]; simpl in *; lia.
Qed.

(** X13. Cleaned text is in a normal form as far as blanks go: trimming
    it again changes nothing, every blank it holds is a plain space (no
    tab, no line feed, no non-breaking space), it is never longer than the
    text it comes from, and a text made of blanks only is cleaned to the
    empty text. *)
Theorem clean_text_is_trimmed : forall text : string,
  strip (_clean_text text) = _clean_text text
  /\ all_chars plain_char (_clean_text text) = true
  /\ String.length (_clean_text text) <= String.length text
  /\ (all_chars isspace text = true -> _clean_text text = "").
Proof.
  intros text. unfold _clean_text.
  destruct (is_empty text) eqn:He.
  - repeat split; try reflexivity. simpl. lia.
  - split; [apply strip_by_idem|]. split; [|split].
    + unfold strip, strip_by.
      apply rstrip_by_all, lstrip_by_all, remove_page_artifacts_all,
        collapse_whitespace_plain.
    + unfold strip, strip_by.
      pose proof (rstrip_by_length isspace
                    (lstrip_by isspace
                       (remove_page_artifacts 0
                          (collapse_whitespace false text)))).
      pose proof (lstrip_by_length isspace
                    (remove_page_artifacts 0 (collapse_whitespace false text))).
      pose proof (remove_page_artifacts_length 0
                    (collapse_whitespace false text)).
      pose proof (collapse_whitespace_length false text).
      lia.
    + intros H. apply strip_by_nil_iff.
      apply remove_page_artifacts_all. now apply collapse_whitespace_blank.
Qed.

(* ================================================================== *)
(** * The sections of the index *)
(* ================================================================== *)

Lemma dotted_number_cons_digit (c : ascii) (m : string) :
  isdigit c = true -> dotted_number m -> dotted_number (String c m).
Proof.
  intros Hc Hm. destruct Hm as [d [Hn Hd]|d s [Hn Hd] Hs].
  - apply dotted_last. split; [discriminate|]. simpl. now rewrite Hc.
  - change (String c (d ++ "." ++ s)) with (String c d ++ "." ++ s).
    apply dotted_cons; [|exact Hs]. split; [discriminate|].
    simpl. now rewrite Hc.
Qed.

Lemma heading_number_cons_digit (c : ascii) (n : string) :
  isdigit c = true -> heading_number n -> heading_number (String c n).
Proof.
  intros Hc [m Hm|m Hm].
  - apply heading_plain. now apply dotted_number_cons_digit.
  - change (String c (m ++ ".")) with (String c m ++ ".").
    apply heading_dot. now apply dotted_number_cons_digit.
Qed.

Lemma single_digit_run (c : ascii) :
  isdigit c = true -> digit_run (String c "").
Proof. intros Hc. split; [discriminate|]. simpl. now rewrite Hc. Qed.

Lemma heading_number_after_dot (c : ascii) (n : string) :
  isdigit c = true -> heading_number n ->
  heading_number (String c (String "." n)).
Proof.
  intros Hc [m Hm|m Hm].
  - apply heading_plain.
    apply (dotted_cons (String c "") m); [now apply single_digit_run | exact Hm].
  - change (String c (String "." (m ++ ".")))
      with ((String c "" ++ "." ++ m) ++ ".").
    apply heading_dot.
    apply (dotted_cons (String c "") m); [now apply single_digit_run | exact Hm].
Qed.

Lemma number_run_spec (s n r : string) :
  number_run s = (n, r) ->
  match s with
  | String c _ =>
      if isdigit c then heading_number n
      else n = "" \/ n = "."
           \/ exists n', n = String "." n' /\ heading_number n'
  | EmptyString => n = ""
  end.
Proof.
  revert n r; induction s as [|c s IH]; intros n r H.
  - simpl in H. now injection H as <- _.
  - cbn [number_run] in H. destruct (isdigit c) eqn:Hc.
    + destruct (number_run s) as [n1 r1] eqn:H1. injection H as <- _.
      specialize (IH _ _ eq_refl). destruct s as [|d s'].
      * subst n1. apply heading_plain, dotted_last.
        now apply single_digit_run.
      * destruct (isdigit d).
        -- now apply heading_number_cons_digit.
        -- destruct IH as [->|[->|(n' & -> & Hn')]].
           ++ apply heading_plain, dotted_last. now apply single_digit_run.
           ++ apply (heading_dot (String c "")), dotted_last.
              now apply single_digit_run.
           ++ now apply heading_number_after_dot.
    + destruct (Ascii.eqb_spec c ".") as [->|Hne].
      * destruct s as [|d s'].
        -- injection H as <- _. auto.
        -- destruct (isdigit d) eqn:Hd.
           ++ destruct (number_run (String d s')) as [n1 r1] eqn:H1.
              injection H as <- _. specialize (IH _ _ eq_refl).
              eauto.
           ++ injection H as <- _. auto.
      * injection H as <- _. auto.
Qed.

Lemma rstrip_by_all_not (p : ascii -> bool) (d : string) :
  all_chars (fun c => negb (p c)) d = true -> rstrip_by p d = d.
Proof.
  induction d as [|c d IH]; simpl; intros H; [reflexivity|].
  apply andb_true_iff in H. destruct H as [Hc H].
  apply negb_true_iff in Hc. rewrite IH by exact H.
  destruct d; [now rewrite Hc | reflexivity].
Qed.

Lemma rstrip_by_app_fixed (p : ascii -> bool) (a t : string) :
  rstrip_by p t = t -> t <> "" -> rstrip_by p (a ++ t) = a ++ t.
Proof.
  intros Ht Hne. induction a as [|c a IH]; [exact Ht|].
  cbn [append]. rewrite rstrip_by_cons, IH.
  destruct (a ++ t) eqn:E; [|reflexivity].
  destruct a; simpl in E; [congruence | discriminate].
Qed.

Lemma rstrip_by_app_dropped (p : ascii -> bool) (a t : string) :
  all_chars p t = true -> rstrip_by p (a ++ t) = rstrip_by p a.
Proof.
  intros Ht. induction a as [|c a IH].
  - simpl. now apply rstrip_by_nil_iff.
  - cbn [append]. now rewrite !rstrip_by_cons, IH.
Qed.

Lemma dotted_number_not_empty (m : string) : dotted_number m -> m <> "".
Proof.
  intros [d [Hn _]|d s [Hn _] _]; [exact Hn|].
  destruct d; [congruence | discriminate].
Qed.

Lemma digit_run_rstrip_dot (d : string) :
  digit_run d -> rstrip_by (Ascii.eqb ".") d = d.
Proof.
  intros [_ H]. apply rstrip_by_all_not.
  induction d as [|c d IH]; simpl in *; [reflexivity|].
  apply andb_true_iff in H. destruct H as [Hc H]. rewrite IH by exact H.
  rewrite andb_true_r. revert Hc.
  destruct c as [[] [] [] [] [] [] [] []]; vm_compute; congruence.
Qed.

Lemma dotted_number_rstrip_dot (m : string) :
  dotted_number m -> rstrip_by (Ascii.eqb ".") m = m.
Proof.
  induction 1 as [d Hd|d s Hd Hs IH].
  - now apply digit_run_rstrip_dot.
  - apply rstrip_by_app_fixed.
    + apply (rstrip_by_app_fixed _ "." s IH).
      now apply dotted_number_not_empty.
    + discriminate.
Qed.

Lemma heading_number_rstrip_dot (n : string) :
  heading_number n -> dotted_number (rstrip_by (Ascii.eqb ".") n).
Proof.
  intros [m Hm|m Hm].
  - now rewrite dotted_number_rstrip_dot.
  - rewrite rstrip_by_app_dropped by reflexivity.
    now rewrite dotted_number_rstrip_dot.
Qed.

Lemma heading_at_spec (s number heading : string) (len : nat) :
  heading_at s = Some (number, heading, len) ->
  heading_number number
  /\ exists u more,
      heading = String u more
      /\ isupper_ascii u = true
      /\ all_chars title_char more = true.
Proof.
  unfold heading_at. destruct s as [|c s']; [discriminate|].
  destruct (isdigit c) eqn:Hc; [|discriminate].
  destruct (number_run (String c s')) as [n r] eqn:Hn.
  apply number_run_spec in Hn. rewrite Hc in Hn.
  destruct (span isspace r) as [blanks after] eqn:Hb.
  destruct blanks as [|b blanks]; [discriminate|].
  destruct after as [|u after']; [discriminate|].
  destruct (isupper_ascii u) eqn:Hu; [|discriminate].
  destruct (span title_char after') as [more rest] eqn:Hm.
  destruct more as [|m more]; [discriminate|].
  intros H. injection H as <- <- _.
  apply span_eq in Hm. destruct Hm as (_ & Hall & _).
  split; [exact Hn|]. exists u, (String m more). auto.
Qed.

Lemma find_headings_spec (line_start : bool) (skip : nat) (text : string)
      (found : string * string) :
  In found (find_headings line_start skip text) ->
  exists s len, heading_at s = Some (fst found, snd found, len).
Proof.
  revert line_start skip; induction text as [|c text IH];
    intros line_start skip H; [destruct H|].
  cbn [find_headings] in H. destruct skip as [|k]; [|eauto].
  destruct line_start; [|eauto].
  destruct (heading_at (String c text)) as [[[n h] len]|] eqn:Hh; [|eauto].
  destruct H as [<-|H]; [|eauto].
  exists (String c text), len. exact Hh.
Qed.

Lemma fold_left_invariant {A B : Type} (f : A -> B -> A) (I : A -> Prop)
      (l : list B) (a : A) :
  I a -> (forall a b, In b l -> I a -> I (f a b)) -> I (fold_left f l a).
Proof.
  revert a; induction l as [|b l IH]; intros a Ha Hf; [exact Ha|].
  simpl. apply IH.
  - apply Hf; [now left | exact Ha].
  - intros a' b' Hb'. apply Hf. now right.
Qed.

Lemma upper_is_title_char (u : ascii) :
  isupper_ascii u = true -> title_char u = true /\ isspace u = false.
Proof.
  unfold title_char. intros H. rewrite H. split; [reflexivity|].
  revert H. destruct u as [[] [] [] [] [] [] [] []]; vm_compute; congruence.
Qed.

Lemma register_heading_invariant (extracted_text : list (Z * string))
      (page_num : Z) (sections : Dict.t SectionData)
      (found : string * string) :
  In page_num (map fst extracted_text) ->
  (exists s len, heading_at s = Some (fst found, snd found, len)) ->
  Forall (registered_section extracted_text) sections ->
  Forall (registered_section extracted_text)
         (register_heading page_num sections found).
Proof.
  intros Hpage (s & len & Hh) Hinv. unfold register_heading.
  apply heading_at_spec in Hh.
  destruct Hh as (Hnum & u & more & Hhead & Hu & Hmore).
  destruct (Nat.ltb_spec (String.length (strip (snd found))) 3) as [|Hlen];
    [exact Hinv|].
  destruct (Dict.get _ sections) as [data|] eqn:Hget.
  - destruct (existsb (Z.eqb page_num) (pages data)) eqn:Hex; [exact Hinv|].
    apply dict_set_forall; [|exact Hinv].
    apply dict_get_in in Hget. rewrite Forall_forall in Hinv.
    destruct (Hinv _ Hget) as (H1 & H2 & H3 & H4 & H5 & H6 & H7).
    cbn [fst snd] in *. unfold registered_section. cbn [fst snd title pages].
    repeat split; auto.
    + intros E. apply app_eq_nil in E. destruct E; discriminate.
    + apply NoDup_app_remove_l with (l := []). simpl.
      apply Permutation_NoDup with (l := page_num :: pages data).
      * apply Permutation_cons_append.
      * constructor; [|exact H6]. intros Hin.
        assert (existsb (Z.eqb page_num) (pages data) = true).
        { apply existsb_exists. exists page_num.
          split; [exact Hin | apply Z.eqb_refl]. }
        congruence.
    + intros p Hp. apply in_app_iff in Hp.
      destruct Hp as [Hp|[<-|[]]]; auto.
  - apply dict_set_forall; [|exact Hinv].
    unfold registered_section. cbn [fst snd title pages].
    repeat split.
    + now apply heading_number_rstrip_dot.
    + exact Hlen.
    + apply strip_by_idem.
    + rewrite Hhead. unfold strip, strip_by.
      apply rstrip_by_all, lstrip_by_all. simpl.
      destruct (upper_is_title_char u Hu) as [-> _]. exact Hmore.
    + discriminate.
    + repeat constructor. intros [].
    + intros p [<-|[]]. exact Hpage.
Qed.

Lemma register_heading_nodup (page_num : Z) (sections : Dict.t SectionData)
      (found : string * string) :
  NoDup (Dict.keys sections) ->
  NoDup (Dict.keys (register_heading page_num sections found)).
Proof.
  intros H. unfold register_heading.
  destruct (_ <? 3)%nat; [exact H|].
  destruct (Dict.get _ sections) as [data|].
  - destruct (existsb _ _); [exact H | now apply dict_set_nodup].
  - now apply dict_set_nodup.
Qed.

Lemma identify_sections_invariant (extracted_text : list (Z * string)) :
  Forall (registered_section extracted_text) (identify_sections extracted_text)
  /\ NoDup (Dict.keys (identify_sections extracted_text)).
Proof.
  unfold identify_sections.
  apply (fold_left_invariant register_page
           (fun sections =>
              Forall (registered_section extracted_text) sections
              /\ NoDup (Dict.keys sections))).
  - split; constructor.
  - intros sections [page_num text] Hpage [Hinv Hnd]. unfold register_page.
    apply (fold_left_invariant (register_heading (fst (page_num, text)))
             (fun sections =>
                Forall (registered_section extracted_text) sections
                /\ NoDup (Dict.keys sections))).
    + now split.
    + intros secs found Hfound [Hi Hn]. split.
      * apply register_heading_invariant; auto.
        -- apply in_map_iff. exists (page_num, text). auto.
        -- eapply find_headings_spec; eauto.
      * now apply register_heading_nodup.
Qed.

(** X14. Every section that [identify_sections] registers has a number
    made of runs of digits with single dots between them (the dot behind
    the number of a heading is dropped); a title of three characters at
    least, trimmed, in which there are only upper-case letters, blanks,
    commas, dashes and parentheses; and a list of pages that is not empty,
    holds no page twice and holds page numbers of the text only.  No
    section number is registered twice. *)
Theorem identified_sections_are_well_formed :
  forall extracted_text : list (Z * string),
    Forall (fun entry : string * SectionData =>
              dotted_number (fst entry)
              /\ 3 <= String.length (title (snd entry))
              /\ strip (title (snd entry)) = title (snd entry)
              /\ all_chars title_char (title (snd entry)) = true
              /\ pages (snd entry) <> []
              /\ NoDup (pages (snd entry))
              /\ incl (pages (snd entry)) (map fst extracted_text))
           (identify_sections extracted_text)
    /\ NoDup (Dict.keys (identify_sections extracted_text)).
Proof.
  intros extracted_text.
  destruct (identify_sections_invariant extracted_text) as [Hinv Hnd].
  split; [|exact Hnd].
  rewrite Forall_forall in *. intros entry Hin. exact (Hinv entry Hin).
Qed.

Lemma identified_sections_have_keys (extracted_text : list (Z * string)) :
  forall k, In k (Dict.keys (identify_sections extracted_text)) ->
            exists key, _section_sort_key k = Some key.
Proof.
  intros k Hk. apply in_map_iff in Hk. destruct Hk as ([k' data] & <- & Hin).
  destruct (identify_sections_invariant extracted_text) as [Hinv _].
  rewrite Forall_forall in Hinv. destruct (Hinv _ Hin) as [Hd _].
  now apply dotted_number_sort_key.
Qed.


(* ================================================================== *)
(** * From the sections of stage 1 to the lookups of stage 2 *)
(* ================================================================== *)

Lemma split_not_nil (sep : ascii) (s : string) : split sep s <> [].
Proof.
  destruct s as [|c s]; simpl; [discriminate|].
  destruct (Ascii.eqb c sep); [discriminate|].
  destruct (split sep s); discriminate.
Qed.

Lemma split_one_part (sep : ascii) (s : string) :
  List.length (split sep s) = 1 -> split sep s = [s].
Proof.
  induction s as [|c s IH]; simpl; [reflexivity|].
  destruct (Ascii.eqb c sep).
  - pose proof (split_not_nil sep s). destruct (split sep s); simpl;
      [congruence | discriminate].
  - destruct (split sep s) as [|h t] eqn:E;
      [now apply split_not_nil in E|].
    simpl. intros H. destruct t; [|discriminate].
    specialize (IH eq_refl). now injection IH as ->.
Qed.

Lemma split_head_no_sep (sep : ascii) (s : string) :
  all_chars (fun c => negb (Ascii.eqb c sep)) (hd "" (split sep s)) = true.
Proof.
  induction s as [|c s IH]; simpl; [reflexivity|].
  destruct (Ascii.eqb c sep) eqn:Hc; [reflexivity|].
  destruct (split sep s) as [|h t]; simpl in *; now rewrite Hc.
Qed.

Lemma split_parent (number : string) :
  split "." (parent_of number) = [parent_of number].
Proof. apply split_no_sep, split_head_no_sep. Qed.

Lemma parent_of_top (number : string) :
  split "." number = [number] -> parent_of number = number.
Proof. unfold parent_of. now intros ->. Qed.

Lemma parent_key_lt (number : string) :
  List.length (split "." number) <> 1 ->
  (exists key, _section_sort_key number = Some key) ->
  key_lt (parent_of number) number.
Proof.
  intros Hlen [key Hkey]. unfold key_lt, _section_sort_key in *.
  rewrite split_parent. unfold parent_of.
  pose proof (split_not_nil "." number) as Hnil.
  destruct (split "." number) as [|p [|q rest]]; simpl in *;
    [congruence | congruence |].
  destruct (int p) as [x|]; [|discriminate].
  destruct (int q) as [y|]; [|discriminate].
  destruct (traverse int rest) as [ks|]; [|discriminate].
  injection Hkey as <-. exists [x], (x :: y :: ks).
  repeat split. simpl. now rewrite Z.ltb_irrefl, Z.eqb_refl.
Qed.

(** ** The lookup in a hierarchy *)

Lemma section_loop_lacks (number : string) (items : list (string * TopSection)) :
  lacks number items -> section_loop number items = ([], Returned "").
Proof.
  induction 1 as [|[top node] items [Htop Hsub] Hl IH]; [reflexivity|].
  cbn [section_loop]. cbn [fst snd] in *.
  apply String.eqb_neq in Htop. rewrite Htop, bind_ret_l, Hsub. exact IH.
Qed.

Lemma section_loop_skip (number : string) (l1 l2 : list (string * TopSection)) :
  lacks number l1 ->
  section_loop number (l1 ++ l2) = section_loop number l2.
Proof.
  induction 1 as [|[top node] items [Htop Hsub] Hl IH]; [reflexivity|].
  cbn [section_loop app]. cbn [fst snd] in *.
  apply String.eqb_neq in Htop. rewrite Htop, bind_ret_l, Hsub. exact IH.
Qed.

Lemma section_loop_top (number : string) (node : TopSection)
      (items : list (string * TopSection)) :
  Dict.get number (subsections node) = None ->
  lacks number items ->
  section_loop number ((number, node) :: items)
  = node_content (top_title node) (top_pages node).
Proof.
  intros Hsub Hl. cbn [section_loop]. rewrite String.eqb_refl.
  rewrite get_content_from_pages_eq. unfold node_content, page_contents.
  cbn [bind ret]. destruct (is_nil _); [|reflexivity].
  rewrite Hsub, section_loop_lacks by exact Hl. reflexivity.
Qed.

Lemma section_loop_sub (number top : string) (node : TopSection)
      (sub : SubSection) (items : list (string * TopSection)) :
  top <> number ->
  Dict.get number (subsections node) = Some sub ->
  lacks number items ->
  section_loop number ((top, node) :: items)
  = node_content (sub_title sub) (sub_pages sub).
Proof.
  intros Htop Hsub Hl. cbn [section_loop].
  apply String.eqb_neq in Htop. rewrite Htop, bind_ret_l, Hsub.
  rewrite get_content_from_pages_eq. unfold node_content, page_contents.
  cbn [bind ret]. destruct (is_nil _); [|reflexivity].
  rewrite section_loop_lacks by exact Hl. reflexivity.
Qed.

Lemma dict_get_split {V : Type} (k : string) (v : V) (d : Dict.t V) :
  Dict.get k d = Some v ->
  exists l1 l2, d = (l1 ++ (k, v) :: l2)%list /\ ~ In k (Dict.keys l1).
Proof.
  induction d as [|[k' v'] d IH]; simpl; [discriminate|].
  destruct (String.eqb_spec k k') as [->|Hne].
  - intros H. injection H as ->. exists [], d. auto.
  - intros H. destruct (IH H) as (l1 & l2 & -> & Hn).
    exists ((k', v') :: l1), l2. split; [reflexivity|].
    simpl. intros [E|Hin]; [congruence | tauto].
Qed.

Lemma nodup_keys_others {V : Type} (l1 l2 : list (string * V))
      (k : string) (v : V) :
  NoDup (Dict.keys (l1 ++ (k, v) :: l2)%list) ->
  forall item, In item (l1 ++ l2)%list -> fst item <> k.
Proof.
  unfold Dict.keys. rewrite map_app. simpl. intros Hnd item Hin E.
  apply NoDup_remove_2 in Hnd. apply Hnd. rewrite <- map_app, <- E.
  now apply in_map.
Qed.

Lemma dict_in_get {V : Type} (k : string) (v : V) (d : Dict.t V) :
  NoDup (Dict.keys d) -> In (k, v) d -> Dict.get k d = Some v.
Proof.
  induction d as [|[k' v'] d IH]; simpl; intros Hnd Hin; [tauto|].
  inversion Hnd as [|? ? Hn Hnd']; subst.
  destruct Hin as [E|Hin].
  - injection E as -> ->. now rewrite String.eqb_refl.
  - destruct (String.eqb_spec k k') as [->|Hne]; [|auto].
    exfalso. apply Hn. change k' with (fst (k', v)). now apply in_map.
Qed.

Lemma dict_get_key {V : Type} (k : string) (v : V) (d : Dict.t V) :
  Dict.get k d = Some v -> In k (Dict.keys d).
Proof.
  intros H. apply dict_get_in in H. change k with (fst (k, v)).
  now apply in_map.
Qed.

Lemma in_app_middle {A : Type} (x y : A) (l1 l2 : list A) :
  In x (l1 ++ l2) -> In x (l1 ++ y :: l2).
Proof. rewrite !in_app_iff. simpl. tauto. Qed.

Lemma built_from_entry (known : list string) (h : Dict.t TopSection)
      (top : string) (node : TopSection) :
  built_from known h -> In (top, node) h ->
  In top known
  /\ split "." top = [top]
  /\ forall number,
      In number (Dict.keys (subsections node)) ->
      In number known
      /\ List.length (split "." number) <> 1
      /\ parent_of number = top.
Proof.
  intros [_ H] Hin. rewrite Forall_forall in H.
  destruct (H _ Hin) as (H1 & H2 & H3). cbn [fst snd] in *.
  rewrite Forall_forall in H3. auto.
Qed.

Lemma lookup_top (known : list string) (h : Dict.t TopSection)
      (number : string) (node : TopSection) :
  built_from known h -> Dict.get number h = Some node ->
  section_loop number h = node_content (top_title node) (top_pages node).
Proof.
  intros Hb Hget.
  destruct (dict_get_split _ _ _ Hget) as (l1 & l2 & E & _).
  assert (Hone : split "." number = [number]).
  { apply (built_from_entry known h number node Hb). now apply dict_get_in. }
  assert (Hsubs : forall top node',
             In (top, node') h -> Dict.get number (subsections node') = None).
  { intros top node' Hin. apply dict_get_none. intros Hk.
    destruct (built_from_entry _ _ _ _ Hb Hin) as (_ & _ & H3).
    destruct (H3 _ Hk) as (_ & Hlen & _). rewrite Hone in Hlen.
    now apply Hlen. }
  assert (Hothers : forall item, In item (l1 ++ l2) -> fst item <> number).
  { apply (nodup_keys_others l1 l2 number node). rewrite <- E. apply Hb. }
  assert (Hl : forall l, incl l (l1 ++ l2) -> lacks number l).
  { intros l Hincl. apply Forall_forall. intros [top node'] Hin.
    cbn [fst snd]. split.
    - apply (Hothers (top, node')). auto.
    - apply (Hsubs top). rewrite E. apply in_app_middle. auto. }
  rewrite E at 1. rewrite section_loop_skip by (apply Hl, incl_appl, incl_refl).
  apply section_loop_top.
  - apply (Hsubs number). now apply dict_get_in.
  - apply Hl, incl_appr, incl_refl.
Qed.

Lemma lookup_sub (known : list string) (h : Dict.t TopSection)
      (number top : string) (node : TopSection) (sub : SubSection) :
  built_from known h -> Dict.get top h = Some node ->
  Dict.get number (subsections node) = Some sub ->
  section_loop number h = node_content (sub_title sub) (sub_pages sub).
Proof.
  intros Hb Hget Hsub.
  destruct (dict_get_split _ _ _ Hget) as (l1 & l2 & E & _).
  destruct (built_from_entry known h top node Hb (dict_get_in _ _ _ Hget))
    as (_ & _ & H3).
  destruct (H3 number (dict_get_key _ _ _ Hsub)) as (_ & Hlen & Hpar).
  assert (Hnottop : forall t n', In (t, n') h -> t <> number).
  { intros t n' Hin ->.
    destruct (built_from_entry _ _ _ _ Hb Hin) as (_ & H2 & _).
    rewrite H2 in Hlen. now apply Hlen. }
  assert (Hothers : forall item, In item (l1 ++ l2) -> fst item <> top).
  { apply (nodup_keys_others l1 l2 top node). rewrite <- E. apply Hb. }
  assert (Hl : forall l, incl l (l1 ++ l2) -> lacks number l).
  { intros l Hincl. apply Forall_forall. intros [top' node'] Hin.
    assert (Hin' : In (top', node') h).
    { rewrite E. apply in_app_middle. auto. }
    cbn [fst snd]. split.
    - now apply (Hnottop top' node').
    - apply dict_get_none. intros Hk.
      destruct (built_from_entry _ _ _ _ Hb Hin') as (_ & _ & H3').
      destruct (H3' _ Hk) as (_ & _ & Hpar').
      apply (Hothers (top', node')); [auto|]. cbn [fst]. congruence. }
  rewrite E at 1. rewrite section_loop_skip by (apply Hl, incl_appl, incl_refl).
  apply section_loop_sub.
  - apply (Hnottop top node). now apply dict_get_in.
  - exact Hsub.
  - apply Hl, incl_appr, incl_refl.
Qed.

Lemma lookup_absent (known : list string) (h : Dict.t TopSection)
      (number : string) :
  built_from known h ->
  ~ In number known
  \/ (List.length (split "." number) <> 1 /\ ~ In (parent_of number) known) ->
  lacks number h.
Proof.
  intros Hb Hcase. apply Forall_forall. intros [top node] Hin. cbn [fst snd].
  destruct (built_from_entry _ _ _ _ Hb Hin) as (H1 & H2 & H3). split.
  - intros ->. destruct Hcase as [Hn|[Hlen _]]; [auto|].
    rewrite H2 in Hlen. now apply Hlen.
  - apply dict_get_none. intros Hk. destruct (H3 _ Hk) as (Hkn & _ & Hpar).
    destruct Hcase as [Hn|[_ Hp]]; [auto|]. apply Hp. now rewrite Hpar.
Qed.

(** ** The hierarchy that is built *)

Lemma add_section_built (known : list string) (h : Dict.t TopSection)
      (item : string * SectionData) :
  In (fst item) known -> built_from known h ->
  built_from known (add_section h item).
Proof.
  destruct item as [k data]. cbn [fst]. intros Hk [Hnd Hall].
  unfold add_section.
  destruct (Nat.eqb_spec (List.length (split "." k)) 1) as [Hlen|Hlen].
  - split; [now apply dict_set_nodup|].
    apply dict_set_forall; [|exact Hall]. cbn [fst snd subsections].
    split; [exact Hk|]. split; [now apply split_one_part | constructor].
  - fold (parent_of k).
    destruct (Dict.get (parent_of k) h) as [node|] eqn:Hget; [|now split].
    split; [now apply dict_set_nodup|].
    apply dict_set_forall; [|exact Hall].
    apply dict_get_in in Hget. rewrite Forall_forall in Hall.
    destruct (Hall _ Hget) as (H1 & H2 & H3). cbn [fst snd subsections] in *.
    split; [exact H1|]. split; [exact H2|].
    apply Forall_forall. intros s Hs. apply dict_set_keys_in in Hs.
    destruct Hs as [->|Hs]; [auto|]. rewrite Forall_forall in H3. auto.
Qed.

Lemma add_section_keeps (number : string) (h : Dict.t TopSection)
      (item : string * SectionData) (node : TopSection) :
  Dict.get number h = Some node -> fst item <> number ->
  exists node',
    Dict.get number (add_section h item) = Some node'
    /\ top_title node' = top_title node
    /\ top_pages node' = top_pages node
    /\ forall s, s <> fst item ->
                 Dict.get s (subsections node') = Dict.get s (subsections node).
Proof.
  destruct item as [k data]. cbn [fst]. intros Hget Hne. unfold add_section.
  destruct (List.length (split "." k) =? 1)%nat.
  - exists node. rewrite dict_get_set_other by congruence. auto.
  - fold (parent_of k).
    destruct (Dict.get (parent_of k) h) as [n|] eqn:Hp; [|exists node; auto].
    destruct (String.eqb_spec number (parent_of k)) as [E|Hd].
    + rewrite <- E in *. rewrite Hget in Hp. injection Hp as <-.
      rewrite dict_get_set_same. eexists. split; [reflexivity|].
      cbn [top_title top_pages subsections]. repeat split.
      intros s Hs. now rewrite dict_get_set_other.
    + exists node. rewrite dict_get_set_other by exact Hd. auto.
Qed.

Lemma fold_keeps (number : string) (items : list (string * SectionData)) :
  forall (h : Dict.t TopSection) (node : TopSection),
    Dict.get number h = Some node ->
    (forall item, In item items -> fst item <> number) ->
    exists node',
      Dict.get number (fold_left add_section items h) = Some node'
      /\ top_title node' = top_title node
      /\ top_pages node' = top_pages node
      /\ forall s, (forall item, In item items -> fst item <> s) ->
                   Dict.get s (subsections node') = Dict.get s (subsections node).
Proof.
  induction items as [|item items IH]; intros h node Hget Hne; simpl.
  - exists node. auto.
  - destruct (add_section_keeps number h item node Hget
                (Hne item (or_introl eq_refl))) as (n1 & G1 & T1 & P1 & S1).
    destruct (IH _ n1 G1 (fun it Hit => Hne it (or_intror Hit)))
      as (n2 & G2 & T2 & P2 & S2).
    exists n2. repeat split; try congruence. intros s Hs.
    rewrite S2 by (intros it Hit; apply Hs; now right).
    apply S1. intros E. now apply (Hs item (or_introl eq_refl)).
Qed.

Lemma built_top (l1 l2 : list (string * SectionData)) (number : string)
      (data : SectionData) :
  NoDup (Dict.keys (l1 ++ (number, data) :: l2)%list) ->
  List.length (split "." number) = 1 ->
  exists node,
    Dict.get number (fold_left add_section (l1 ++ (number, data) :: l2) [])
    = Some node
    /\ top_title node = title data
    /\ top_pages node = pages data.
Proof.
  intros Hnd Hlen. rewrite fold_left_app. cbn [fold_left].
  set (h := fold_left add_section l1 []).
  assert (Hget : Dict.get number (add_section h (number, data))
                 = Some {| top_title := title data;
                           top_pages := pages data;
                           subsections := [] |}).
  { unfold add_section. rewrite Hlen. cbn [Nat.eqb]. apply dict_get_set_same. }
  destruct (fold_keeps number l2 _ _ Hget) as (node & G & T & P & _).
  { intros item Hin. apply (nodup_keys_others l1 l2 number data Hnd).
    apply in_app_iff. auto. }
  exists node. auto.
Qed.

Lemma built_sub (l1 l2 l3 : list (string * SectionData)) (top number : string)
      (dtop data : SectionData) :
  NoDup (Dict.keys (l1 ++ (top, dtop) :: l2 ++ (number, data) :: l3)%list) ->
  List.length (split "." top) = 1 ->
  List.length (split "." number) <> 1 ->
  parent_of number = top ->
  exists node,
    Dict.get top (fold_left add_section
                    (l1 ++ (top, dtop) :: l2 ++ (number, data) :: l3) [])
    = Some node
    /\ Dict.get number (subsections node)
       = Some {| sub_title := title data; sub_pages := pages data |}.
Proof.
  intros Hnd Htop Hlen Hpar.
  assert (Hne_top : forall item,
             In item (l1 ++ l2 ++ (number, data) :: l3) -> fst item <> top).
  { apply nodup_keys_others with dtop. exact Hnd. }
  assert (Hne_num : forall item,
             In item ((l1 ++ (top, dtop) :: l2) ++ l3) -> fst item <> number).
  { apply (nodup_keys_others _ l3 number data).
    rewrite <- app_assoc. exact Hnd. }
  rewrite fold_left_app. cbn [fold_left]. rewrite fold_left_app.
  cbn [fold_left].
  set (h0 := fold_left add_section l1 []).
  assert (G0 : Dict.get top (add_section h0 (top, dtop))
               = Some {| top_title := title dtop;
                         top_pages := pages dtop;
                         subsections := [] |}).
  { unfold add_section. rewrite Htop. cbn [Nat.eqb]. apply dict_get_set_same. }
  destruct (fold_keeps top l2 _ _ G0) as (n1 & G1 & _).
  { intros item Hin. apply Hne_top. rewrite !in_app_iff. auto. }
  set (h1 := fold_left add_section l2 (add_section h0 (top, dtop))) in *.
  assert (G2 : exists n2,
             Dict.get top (add_section h1 (number, data)) = Some n2
             /\ Dict.get number (subsections n2)
                = Some {| sub_title := title data; sub_pages := pages data |}).
  { unfold add_section. apply Nat.eqb_neq in Hlen. rewrite Hlen.
    fold (parent_of number). rewrite Hpar, G1. eexists.
    rewrite dict_get_set_same. split; [reflexivity|].
    cbn [subsections]. apply dict_get_set_same. }
  destruct G2 as (n2 & G2 & S2).
  destruct (fold_keeps top l3 _ _ G2) as (n3 & G3 & _ & _ & S3).
  { intros item Hin. apply Hne_top. rewrite !in_app_iff. simpl. auto. }
  exists n3. split; [exact G3|]. rewrite S3; [exact S2|].
  intros item Hin. apply Hne_num. rewrite !in_app_iff. auto.
Qed.

Lemma map_fst_precedes {V : Type} (items : list (string * V)) (a b : string) :
  precedes a b (map fst items) ->
  exists l1 va l2 vb l3,
    items = (l1 ++ (a, va) :: l2 ++ (b, vb) :: l3)%list.
Proof.
  intros (m1 & m2 & m3 & H).
  apply map_eq_app in H. destruct H as (l1 & r1 & -> & _ & H).
  apply map_eq_cons in H. destruct H as ([a' va] & r2 & -> & Ha & H).
  apply map_eq_app in H. destruct H as (l2 & r3 & -> & _ & H).
  apply map_eq_cons in H. destruct H as ([b' vb] & l3 & -> & Hb & _).
  cbn [fst] in *. subst. now exists l1, va, l2, vb, l3.
Qed.

Lemma lookup_in_built_hierarchy (flat : Dict.t SectionData)
      (hierarchical : Dict.t TopSection) (number : string) :
  NoDup (Dict.keys flat) ->
  (forall k, In k (Dict.keys flat) -> exists t, _section_sort_key k = Some t) ->
  _build_hierarchical_sections flat = Some hierarchical ->
  section_loop number hierarchical
  = match Dict.get number flat with
    | Some data =>
        if existsb (String.eqb (parent_of number)) (Dict.keys flat)
        then node_content (title data) (pages data)
        else ([], Returned "")
    | None => ([], Returned "")
    end.
Proof.
  intros Hnd Hnum Hb.
  destruct (sorted_items_spec flat Hnum) as (items & Hs & Hperm & Hsorted).
  unfold _build_hierarchical_sections in Hb. rewrite Hs in Hb.
  injection Hb as <-.
  assert (Hkeys : Permutation (Dict.keys flat) (Dict.keys items))
    by now apply Permutation_map.
  assert (Hnd' : NoDup (Dict.keys items))
    by (eapply Permutation_NoDup; eauto).
  assert (Hbuilt : built_from (Dict.keys flat) (fold_left add_section items [])).
  { apply (fold_left_invariant add_section (built_from (Dict.keys flat))).
    - split; constructor.
    - intros h item Hin. apply add_section_built.
      eapply Permutation_in; [apply Permutation_sym, Hkeys|].
      now apply in_map. }
  destruct (Dict.get number flat) as [data|] eqn:Hget.
  - assert (Hkey : In number (Dict.keys flat)) by (eapply dict_get_key; eauto).
    apply dict_get_in in Hget.
    assert (Hin : In (number, data) items) by (eapply Permutation_in; eauto).
    destruct (Nat.eq_dec (List.length (split "." number)) 1) as [Hlen|Hlen].
    + assert (Hex : existsb (String.eqb (parent_of number)) (Dict.keys flat)
                    = true).
      { apply existsb_exists. exists number. split; [exact Hkey|].
        rewrite parent_of_top by now apply split_one_part.
        apply String.eqb_refl. }
      rewrite Hex. apply in_split in Hin. destruct Hin as (l1 & l2 & ->).
      destruct (built_top l1 l2 number data Hnd' Hlen) as (node & G & T & P).
      rewrite (lookup_top _ _ _ _ Hbuilt G). now rewrite T, P.
    + destruct (existsb _ _) eqn:Hex.
      * apply existsb_exists in Hex. destruct Hex as (p & Hp & E).
        apply String.eqb_eq in E. subst p.
        assert (Hprec : precedes (parent_of number) number (map fst items)).
        { apply (key_sorted_in_order _ Hsorted).
          - eapply Permutation_in; eauto.
          - eapply Permutation_in; eauto.
          - apply parent_key_lt; auto. }
        apply map_fst_precedes in Hprec.
        destruct Hprec as (l1 & dtop & l2 & data' & l3 & E).
        assert (data' = data).
        { assert (H1 : Dict.get number items = Some data')
            by (apply dict_in_get; [exact Hnd'|]; rewrite E;
                rewrite !in_app_iff; simpl; rewrite in_app_iff; simpl; auto).
          assert (H2 : Dict.get number items = Some data)
            by now apply dict_in_get.
          congruence. }
        subst data' items.
        destruct (built_sub l1 l2 l3 (parent_of number) number dtop data Hnd')
          as (node & G & S); auto.
        { now rewrite split_parent. }
        now rewrite (lookup_sub _ _ _ _ _ _ Hbuilt G S).
      * apply section_loop_lacks, (lookup_absent _ _ _ Hbuilt). right.
        split; [exact Hlen|]. intros Hp.
        assert (existsb (String.eqb (parent_of number)) (Dict.keys flat) = true).
        { apply existsb_exists. exists (parent_of number).
          split; [exact Hp | apply String.eqb_refl]. }
        congruence.
  - apply section_loop_lacks, (lookup_absent _ _ _ Hbuilt). left.
    now apply dict_get_none.
Qed.

(** X16. Stage 2 finds what stage 1 indexed.  On the index that
    [create_index] makes of the pages, [_get_section_content] looks the
    number up once; for a number that [identify_sections] registered, and
    whose first part was registered as a section too, it reads the pages
    of that section once and returns its title over the contents of its
    first three pages.  A registered number whose first part was not
    registered (a subsection without its top-level heading) was dropped
    from the index, and the lookup returns the empty text for it, as for
    a number that was never registered. *)
Theorem indexed_sections_are_found
  (Table : Type) (extracted_text : list (Z * string)) (tables : list Table)
  (index : Index Table) (self : Matcher) (number : string)
  (Hindex : create_index extracted_text tables = Some index)
  (Hself : sections (ib_index self) = index_sections index) :
  _get_section_content self number
  = match Dict.get number (identify_sections extracted_text) with
    | Some data =>
        if existsb (String.eqb (parent_of number))
                   (Dict.keys (identify_sections extracted_text))
        then ([IndexLookup number; PageLookup (pages data)],
              Returned (headed (title data) (page_contents (pages data))))
        else ([IndexLookup number], Returned "")
    | None => ([IndexLookup number], Returned "")
    end.
Proof.
  unfold create_index in Hindex.
  destruct (_build_hierarchical_sections (identify_sections extracted_text))
    as [hierarchical|] eqn:Hb; [|discriminate].
  injection Hindex as <-. cbn [index_sections] in Hself.
  destruct (identify_sections_invariant extracted_text) as [Hinv Hnd].
  unfold _get_section_content, tell. rewrite Hself.
  rewrite (lookup_in_built_hierarchy _ _ number Hnd
             (identified_sections_have_keys extracted_text) Hb).
  destruct (Dict.get number (identify_sections extracted_text))
    as [data|] eqn:Hget; [|reflexivity].
  destruct (existsb _ _); [|reflexivity].
  apply dict_get_in in Hget. rewrite Forall_forall in Hinv.
  destruct (Hinv _ Hget) as (_ & _ & _ & _ & Hpages & _).
  cbn [snd] in Hpages. unfold node_content, page_contents.
  destruct (pages data) as [|p ps]; [congruence | reflexivity].
Qed.

Lemma indexed_sections_are_found_witness :
  exists index : Index unit,
    create_index sample_pages [] = Some index
    /\ Dict.keys (identify_sections sample_pages) = ["1"; "1.1"; "3.2"]
    /\ forall self : Matcher,
        sections (ib_index self) = index_sections index ->
        _get_section_content self "1.1"
        = ([IndexLookup "1.1"; PageLookup [1; 2]%Z],
           Returned (headed "BACKGROUND"
                            ["[Content from page 1]"; "[Content from page 2]"]))
        /\ _get_section_content self "3.2" = ([IndexLookup "3.2"], Returned "")
        /\ _get_section_content self "2" = ([IndexLookup "2"], Returned "").
Proof.
  destruct (create_index sample_pages (@nil unit)) as [index|] eqn:Hindex;
    [|discriminate].
  exists index. split; [reflexivity|]. split; [reflexivity|].
  intros self Hself. repeat split.
  - rewrite (indexed_sections_are_found unit sample_pages [] index self
               "1.1" Hindex Hself).
    vm_compute. reflexivity.
  - rewrite (indexed_sections_are_found unit sample_pages [] index self
               "3.2" Hindex Hself).
    vm_compute. reflexivity.
  - rewrite (indexed_sections_are_found unit sample_pages [] index self
               "2" Hindex Hself).
    vm_compute. reflexivity.
Defined.

(* ================================================================== *)
(** * The placeholders of a text *)
(* ================================================================== *)

Lemma placeholder_at_complete (body post : string) :
  body <> "" -> all_chars upper_alnum_underscore body = true ->
  placeholder_at (("[INSERT_" ++ body ++ "]") ++ post)
  = Some ("[INSERT_" ++ body ++ "]").
Proof.
  intros Hne Hall. unfold placeholder_at.
  change (prefix "[INSERT_" (("[INSERT_" ++ body ++ "]") ++ post))
    with (prefix "" ((body ++ "]") ++ post)).
  change (drop 8 (("[INSERT_" ++ body ++ "]") ++ post))
    with ((body ++ "]") ++ post).
  rewrite append_assoc_string.
  rewrite (span_unique placeholder_char body ("]" ++ post)).
  - destruct body; [congruence | reflexivity].
  - rewrite <- Hall. apply all_chars_ext, placeholder_char_class.
  - reflexivity.
Qed.

Lemma placeholder_at_prefix (s p : string) :
  placeholder_at s = Some p ->
  exists q rest,
    p = String "[" q /\ s = p ++ rest
    /\ all_chars (fun c => negb (Ascii.eqb c "[")) q = true.
Proof.
  unfold placeholder_at. destruct (prefix "[INSERT_" s) eqn:Hp; [|discriminate].
  apply prefix_spec in Hp. destruct Hp as [t ->].
  change (drop 8 ("[INSERT_" ++ t)) with t.
  destruct (span placeholder_char t) as [body rest] eqn:Hs.
  apply span_eq in Hs. destruct Hs as (-> & Hall & _).
  destruct body as [|b body]; [discriminate|].
  destruct rest as [|r rest]; [discriminate|].
  destruct (Ascii.eqb_spec r "]") as [->|Hr].
  - intros H. injection H as <-.
    exists ("INSERT_" ++ String b body ++ "]"), rest. split; [reflexivity|].
    split.
    + cbn [append]. now rewrite append_assoc_string.
    + change ("INSERT_" ++ String b body ++ "]")
        with ("INSERT_" ++ (String b body ++ "]")).
      rewrite !all_chars_app. apply andb_true_iff. split; [reflexivity|].
      apply andb_true_iff. split; [|reflexivity].
      revert Hall. generalize (String b body). intros w.
      induction w as [|c w IH]; simpl; [reflexivity|]. intros H.
      apply andb_true_iff in H. destruct H as [Hc H]. rewrite IH by exact H.
      rewrite andb_true_r. revert Hc.
      destruct c as [[] [] [] [] [] [] [] []]; vm_compute; congruence.
  - destruct r as [[] [] [] [] [] [] [] []]; try discriminate.
    now contradiction Hr.
Qed.

Lemma bracket_free_prefix (q rest pre t : string) :
  all_chars (fun c => negb (Ascii.eqb c "[")) q = true ->
  q ++ rest = pre ++ String "[" t ->
  String.length q <= String.length pre.
Proof.
  revert pre; induction q as [|c q IH]; intros pre Hall E; simpl;
    [lia|].
  simpl in Hall. apply andb_true_iff in Hall. destruct Hall as [Hc Hall].
  destruct pre as [|d pre]; simpl in E.
  - injection E as -> _. discriminate.
  - injection E as _ E. specialize (IH pre Hall E). simpl. lia.
Qed.

Lemma find_placeholders_found (s p : string) :
  placeholder_at s = Some p -> In p (TemplatePopulator.find_placeholders 0 s).
Proof.
  destruct s as [|c s]; [discriminate|].
  cbn [TemplatePopulator.find_placeholders]. intros ->. now left.
Qed.

Lemma find_placeholders_complete (k post : string) :
  is_placeholder k ->
  forall (pre : string) (skip : nat),
    skip <= String.length pre ->
    In k (TemplatePopulator.find_placeholders skip (pre ++ k ++ post)).
Proof.
  intros Hk.
  assert (Hat : forall post', placeholder_at (k ++ post') = Some k).
  { destruct Hk as (body & -> & Hne & Hall). intros.
    now apply placeholder_at_complete. }
  assert (Hhead : exists k', k = String "[" k').
  { destruct Hk as (body & -> & _). eexists. reflexivity. }
  clear Hk. induction pre as [|c pre IH]; intros skip Hskip.
  - assert (skip = 0) by (simpl in Hskip; lia). subst skip.
    exact (find_placeholders_found _ _ (Hat post)).
  - cbn [append TemplatePopulator.find_placeholders]. destruct skip as [|n].
    + destruct (placeholder_at (String c (pre ++ k ++ post))) as [p|] eqn:Hp.
      * right. apply IH.
        apply placeholder_at_prefix in Hp.
        destruct Hp as (q & rest & -> & E & Hq).
        cbn [append] in E. injection E as _ E.
        destruct Hhead as [k' ->]. cbn [append] in E. symmetry in E.
        pose proof (bracket_free_prefix _ _ _ _ Hq E). simpl. lia.
      * apply IH. lia.
    + apply IH. simpl in Hskip. lia.
Qed.

Lemma find_placeholders_sound (text k : string) :
  forall skip : nat,
    In k (TemplatePopulator.find_placeholders skip text) ->
    is_placeholder k /\ Substring k text.
Proof.
  induction text as [|c text IH]; intros skip H; [destruct H|].
  assert (Hrec : forall n, In k (TemplatePopulator.find_placeholders n text) ->
                           is_placeholder k /\ Substring k (String c text)).
  { intros n Hn. destruct (IH n Hn) as [Hk (pre & post & ->)].
    split; [exact Hk|]. now exists (String c pre), post. }
  cbn [TemplatePopulator.find_placeholders] in H. destruct skip as [|n]; [|eauto].
  destruct (placeholder_at (String c text)) as [p|] eqn:Hp; [|eauto].
  destruct H as [->|H]; [|eauto]. split.
  - eapply placeholder_at_sound; eauto.
  - apply placeholder_at_prefix in Hp. destruct Hp as (q & rest & _ & E & _).
    exists "", rest. exact E.
Qed.

Lemma placeholder_search_first (text : string) :
  placeholder_search text = hd_error (TemplatePopulator.find_placeholders 0 text).
Proof.
  induction text as [|c text IH]; [reflexivity|].
  cbn [placeholder_search TemplatePopulator.find_placeholders].
  destruct (placeholder_at (String c text)); [reflexivity | exact IH].
Qed.

(** X17. The placeholders that [_extract_placeholders] reads from a text
    are all the placeholders in it: a string is extracted exactly when it
    occurs in the text and is made of [[INSERT_], one character or more of
    [A-Z0-9_] and the closing bracket (an occurrence is never hidden by a
    match that started before it).  The first of them is the one the
    mapping parser reads from the same text as the name of a field. *)
Theorem extracted_placeholders_are_the_occurrences :
  forall text : string,
    (forall key : string,
        In key (TemplatePopulator._extract_placeholders text)
        <-> is_placeholder key /\ Substring key text)
    /\ placeholder_search text
       = hd_error (TemplatePopulator._extract_placeholders text).
Proof.
  intros text. unfold TemplatePopulator._extract_placeholders. split.
  - intros key. split.
    + apply find_placeholders_sound.
    + intros [Hk (pre & post & ->)].
      apply find_placeholders_complete; [exact Hk | lia].
  - apply placeholder_search_first.
Qed.

(* ================================================================== *)
(** * The metadata of the brochure *)
(* ================================================================== *)

Lemma ro_at_spec (s m : string) :
  ro_at s = Some m ->
  exists digits rest, m = "RO" ++ digits /\ digit_run digits /\ s = m ++ rest.
Proof.
  unfold ro_at. destruct (prefix "RO" s) eqn:Hp; [|discriminate].
  apply prefix_spec in Hp. destruct Hp as [t ->].
  change (drop 2 ("RO" ++ t)) with t.
  destruct (span isdigit t) as [digits rest] eqn:Hs.
  apply span_eq in Hs. destruct Hs as (-> & Hall & _). cbn [fst].
  destruct digits as [|d digits]; [discriminate|].
  intros H. injection H as <-. exists (String d digits), rest.
  split; [reflexivity|]. split; [split; [discriminate | exact Hall]|].
  reflexivity.
Qed.

Lemma search_ro_spec (text m : string) :
  search_ro text = Some m ->
  exists digits, m = "RO" ++ digits /\ digit_run digits /\ Substring m text.
Proof.
  induction text as [|c text IH]; cbn [search_ro]; intros H.
  - destruct (ro_at "") eqn:E; [discriminate | discriminate].
  - destruct (ro_at (String c text)) as [m'|] eqn:E.
    + injection H as ->. apply ro_at_spec in E.
      destruct E as (digits & rest & Hm & Hd & Hs).
      exists digits. split; [exact Hm|]. split; [exact Hd|].
      exists "", rest. exact Hs.
    + destruct (IH H) as (digits & Hm & Hd & pre & post & ->).
      exists digits. split; [exact Hm|]. split; [exact Hd|].
      now exists (String c pre), post.
Qed.

Lemma metadata_of_page_fields (metadata : Metadata) (page : Z * string) :
  let after := metadata_of_page metadata page in
  drug_name after
  = match drug_name metadata with
    | EmptyString =>
        if contains "pralsetinib" (lower (snd page)) then "Pralsetinib" else ""
    | name => name
    end
  /\ trade_name after
     = match trade_name metadata with
       | EmptyString => if contains "GAVRETO" (snd page) then "GAVRETO" else ""
       | name => name
       end
  /\ ro_number after
     = match ro_number metadata with
       | EmptyString =>
           match search_ro (snd page) with Some m => m | None => "" end
       | number => number
       end
  /\ version after = version metadata
  /\ date after = date metadata.
Proof.
  destruct metadata as [dn tn ro ve da]. unfold metadata_of_page.
  cbn [drug_name trade_name ro_number version date].
  destruct (search_ro (snd page)) as [m|], ro as [|r ro];
    cbn [drug_name trade_name ro_number version date];
    destruct (contains "pralsetinib" (lower (snd page))), dn as [|d dn];
    cbn [drug_name trade_name ro_number version date];
    destruct (contains "GAVRETO" (snd page)), tn as [|t tn];
    cbn [drug_name trade_name ro_number version date]; auto.
Qed.

Lemma metadata_fold (texts : list (Z * string)) :
  forall metadata : Metadata,
    let after := fold_left metadata_of_page texts metadata in
    drug_name after
    = match drug_name metadata with
      | EmptyString =>
          if existsb (fun page => contains "pralsetinib" (lower (snd page)))
                     texts
          then "Pralsetinib" else ""
      | name => name
      end
    /\ trade_name after
       = match trade_name metadata with
         | EmptyString =>
             if existsb (fun page => contains "GAVRETO" (snd page)) texts
             then "GAVRETO" else ""
         | name => name
         end
    /\ ro_number after
       = match ro_number metadata with
         | EmptyString =>
             hd "" (flat_map (fun page =>
                                match search_ro (snd page) with
                                | Some m => [m]
                                | None => []
                                end) texts)
         | number => number
         end
    /\ version after = version metadata
    /\ date after = date metadata.
Proof.
  induction texts as [|page texts IH]; intros metadata; cbn zeta.
  - cbn [fold_left existsb flat_map hd].
    destruct (drug_name metadata), (trade_name metadata), (ro_number metadata);
      auto.
  - cbn [fold_left existsb flat_map].
    destruct (IH (metadata_of_page metadata page)) as (D & T & R & V & A).
    destruct (metadata_of_page_fields metadata page) as (D1 & T1 & R1 & V1 & A1).
    rewrite D, T, R, V, A, D1, T1, R1, V1, A1. repeat split.
    + destruct (drug_name metadata); [|reflexivity].
      destruct (contains "pralsetinib" (lower (snd page))); reflexivity.
    + destruct (trade_name metadata); [|reflexivity].
      destruct (contains "GAVRETO" (snd page)); reflexivity.
    + destruct (ro_number metadata); [|reflexivity].
      destruct (search_ro (snd page)) as [m|] eqn:Hm; [|reflexivity].
      apply search_ro_spec in Hm. destruct Hm as (digits & -> & _).
      reflexivity.
Qed.

(** X18. The metadata come from the first five pages only.  The RO number
    is the first match of RO and digits on the first of these pages that
    has one (a later page never replaces it), and is empty when none has;
    the drug name is "Pralsetinib" exactly when one of the pages holds the
    word in some spelling of upper and lower case, the trade name is
    "GAVRETO" exactly when one holds it in capitals; the version and the
    date are always empty. *)
Theorem metadata_of_the_first_pages :
  forall extracted_text : list (Z * string),
    let metadata := _extract_metadata extracted_text in
    let first := firstn 5 extracted_text in
    drug_name metadata
    = (if existsb (fun page => contains "pralsetinib" (lower (snd page))) first
       then "Pralsetinib" else "")
    /\ trade_name metadata
       = (if existsb (fun page => contains "GAVRETO" (snd page)) first
          then "GAVRETO" else "")
    /\ ro_number metadata
       = hd "" (flat_map (fun page =>
                            match search_ro (snd page) with
                            | Some m => [m]
                            | None => []
                            end) first)
    /\ (ro_number metadata = ""
        \/ exists digits page,
            ro_number metadata = "RO" ++ digits
            /\ digit_run digits
            /\ In page first
            /\ Substring (ro_number metadata) (snd page))
    /\ version metadata = ""
    /\ date metadata = ""
    /\ _extract_metadata first = metadata.
Proof.
  intros extracted_text. cbn zeta. unfold _extract_metadata.
  rewrite firstn_firstn. change (Nat.min 5 5) with 5.
  destruct (metadata_fold (firstn 5 extracted_text)
              {| drug_name := ""; trade_name := ""; ro_number := "";
                 version := ""; date := "" |}) as (D & T & R & V & A).
  cbn [drug_name trade_name ro_number version date] in *.
  rewrite D, T, R, V, A. repeat split.
  generalize (firstn 5 extracted_text). intros texts.
  induction texts as [|page texts IH]; [now left|].
  cbn [flat_map]. destruct (search_ro (snd page)) as [m|] eqn:Hm.
  - right. cbn [app hd]. apply search_ro_spec in Hm.
    destruct Hm as (digits & Hd & Hr & Hs).
    exists digits, page.
    split; [exact Hd|]. split; [exact Hr|]. split; [now left | exact Hs].
  - cbn [app]. destruct IH as [IH|(digits & page' & H1 & H2 & H3 & H4)];
      [now left|].
    right. exists digits, page'.
    split; [exact H1|]. split; [exact H2|]. split; [now right | exact H4].
Qed.

(* ================================================================== *)
(** * Sections found on further pages *)
(* ================================================================== *)

Lemma continues_refl (sections : Dict.t SectionData) :
  continues sections sections.
Proof.
  split.
  - exists []. now rewrite app_nil_r.
  - intros number data H. exists data. repeat split; [exact H|].
    exists []. now rewrite app_nil_r.
Qed.

Lemma continues_trans (a b c : Dict.t SectionData) :
  continues a b -> continues b c -> continues a c.
Proof.
  intros [[m1 K1] G1] [[m2 K2] G2]. split.
  - exists (m1 ++ m2)%list. now rewrite K2, K1, app_assoc.
  - intros number data H.
    destruct (G1 _ _ H) as (d1 & H1 & T1 & p1 & P1).
    destruct (G2 _ _ H1) as (d2 & H2 & T2 & p2 & P2).
    exists d2. split; [exact H2|]. split; [congruence|].
    exists (p1 ++ p2)%list. now rewrite P2, P1, app_assoc.
Qed.

Lemma register_heading_continues (page_num : Z)
      (sections : Dict.t SectionData) (found : string * string) :
  continues sections (register_heading page_num sections found).
Proof.
  unfold register_heading.
  destruct (_ <? 3)%nat; [apply continues_refl|].
  set (number := rstrip_by (Ascii.eqb ".") (fst found)).
  destruct (Dict.get number sections) as [data|] eqn:Hget.
  - destruct (existsb _ _); [apply continues_refl|]. split.
    + exists []. rewrite app_nil_r. eapply dict_set_present_keys; eauto.
    + intros k d Hk. destruct (String.eqb_spec k number) as [->|Hne].
      * rewrite dict_get_set_same. eexists. split; [reflexivity|].
        rewrite Hget in Hk. injection Hk as <-. cbn [title pages].
        split; [reflexivity|]. now exists [page_num].
      * rewrite dict_get_set_other by exact Hne. exists d.
        repeat split; [exact Hk|]. exists []. now rewrite app_nil_r.
  - split.
    + exists [number]. rewrite dict_set_fresh by now apply dict_get_none.
      unfold Dict.keys. now rewrite map_app.
    + intros k d Hk. exists d.
      rewrite dict_get_set_other by congruence.
      repeat split; [exact Hk|]. exists []. now rewrite app_nil_r.
Qed.

Lemma register_page_continues (sections : Dict.t SectionData)
      (page : Z * string) :
  continues sections (register_page sections page).
Proof.
  unfold register_page.
  apply (fold_left_invariant (register_heading (fst page))
           (continues sections)).
  - apply continues_refl.
  - intros a found _ Ha. eapply continues_trans; [exact Ha|].
    apply register_heading_continues.
Qed.

(** X19. Further pages only add to the sections found so far: the section
    numbers registered on the pages read so far stay at the front of the
    dict in their order, each keeps its title (the title of the first
    heading with its number), and the pages it had stay at the front of
    its list of pages. *)
Theorem further_pages_only_add :
  forall read further : list (Z * string),
    continues (identify_sections read) (identify_sections (read ++ further)).
Proof.
  intros read further. unfold identify_sections. rewrite fold_left_app.
  apply (fold_left_invariant register_page
           (continues (fold_left register_page read []))).
  - apply continues_refl.
  - intros a page _ Ha. eapply continues_trans; [exact Ha|].
    apply register_page_continues.
Qed.

(* ================================================================== *)
(** * The fields of the specification in the text of the template *)
(* ================================================================== *)

Lemma parsed_keys_are_placeholders (content field : string) :
  In field (Dict.keys (parse_mapping_file content)) -> is_placeholder field.
Proof.
  intros H. apply in_map_iff in H. destruct H as (entry & <- & Hin).
  revert entry Hin. apply Forall_forall.
  rewrite parse_mapping_file_fold. apply add_rows_forall; [|constructor].
  intros line entry H. apply parse_row_well_formed in H. apply H.
Qed.

(** X20. The parser of the specification and the scan of the template
    agree on what a field is: every field name of a parsed specification
    that occurs in a text is among the placeholders that
    [_extract_placeholders] reads from that text. *)
Theorem mapped_fields_are_found_in_text
  (content text field : string)
  (Hfield : In field (Dict.keys (parse_mapping_file content)))
  (Hoccurs : Substring field text) :
  In field (TemplatePopulator._extract_placeholders text).
Proof.
  apply parsed_keys_are_placeholders in Hfield.
  destruct Hoccurs as (pre & post & ->).
  unfold TemplatePopulator._extract_placeholders.
  apply find_placeholders_complete; [exact Hfield | lia].
Qed.

Lemma mapped_fields_are_found_in_text_witness :
  In "[INSERT_DRUG_NAME]"
     (TemplatePopulator._extract_placeholders
        "Name [[INSERT_DRUG_NAME]] and [INSERT_]").
Proof.
  apply (mapped_fields_are_found_in_text
           "| Name: [INSERT_DRUG_NAME] | Section 1.1 | 5 | as written |").
  - vm_compute. auto.
  - exists "Name [", "] and [INSERT_]". reflexivity.
Defined.

(* ================================================================== *)
(** * The text of a section *)
(* ================================================================== *)

Lemma page_text_of_known_page (page_num : Z) (extracted_text : list (Z * string)) :
  In page_num (map fst extracted_text) ->
  exists text,
    page_text page_num extracted_text = Some text
    /\ In (page_num, text) extracted_text.
Proof.
  induction extracted_text as [|[p text] rest IH]; simpl; [tauto|].
  intros H. destruct (Z.eqb_spec p page_num) as [->|Hne].
  - exists text. auto.
  - destruct H as [E|H]; [congruence|].
    destruct (IH H) as (t & Ht & Hin). exists t. auto.
Qed.

Lemma texts_of_known_pages (page_numbers : list Z)
      (extracted_text : list (Z * string)) :
  incl page_numbers (map fst extracted_text) ->
  exists texts,
    flat_map (fun page_num =>
                match page_text page_num extracted_text with
                | Some text => [text]
                | None => []
                end) page_numbers = texts
    /\ Forall2 (fun page_num text => In (page_num, text) extracted_text)
               page_numbers texts.
Proof.
  induction page_numbers as [|p ps IH]; intros Hincl.
  - exists []. split; [reflexivity | constructor].
  - destruct IH as (texts & E & Hall).
    { intros q Hq. apply Hincl. now right. }
    destruct (page_text_of_known_page p extracted_text) as (t & Ht & Hin).
    { apply Hincl. now left. }
    exists (t :: texts). cbn [flat_map]. rewrite Ht, E.
    split; [reflexivity | now constructor].
Qed.

(** X21. On an indexer that has read its pages, [extract_section_content]
    returns the empty text for a number that is not registered, and for a
    registered section the texts of its pages joined by line feeds: one
    text for every page of the section, in the order of its pages, none
    left out. *)
Theorem section_content_has_every_page
  (extracted_text : list (Z * string)) (section_number : string)
  (Hread : extracted_text <> []) :
  match Dict.get section_number (identify_sections extracted_text) with
  | None =>
      extract_section_content (identify_sections extracted_text)
                              extracted_text section_number = ""
  | Some section_info =>
      exists texts,
        extract_section_content (identify_sections extracted_text)
                                extracted_text section_number
        = join nl texts
        /\ Forall2 (fun page_num text => In (page_num, text) extracted_text)
                   (pages section_info) texts
  end.
Proof.
  unfold extract_section_content.
  assert (E : match identify_sections extracted_text with
              | [] => identify_sections extracted_text
              | _ :: _ => identify_sections extracted_text
              end = identify_sections extracted_text)
    by now destruct (identify_sections extracted_text).
  rewrite E. clear E.
  destruct (Dict.get section_number (identify_sections extracted_text))
    as [section_info|] eqn:Hget; [|reflexivity].
  destruct (identify_sections_invariant extracted_text) as [Hinv _].
  rewrite Forall_forall in Hinv. apply dict_get_in in Hget.
  destruct (Hinv _ Hget) as (_ & _ & _ & _ & _ & _ & Hincl).
  cbn [snd] in Hincl.
  destruct (texts_of_known_pages _ _ Hincl) as (texts & -> & Hall).
  now exists texts.
Qed.

Lemma section_content_has_every_page_witness :
  exists texts,
    extract_section_content (identify_sections sample_pages) sample_pages "1.1"
    = join nl texts
    /\ Forall2 (fun page_num text => In (page_num, text) sample_pages)
               [1; 2]%Z texts.
Proof.
  assert (Hread : sample_pages <> []) by discriminate.
  exact (section_content_has_every_page sample_pages "1.1" Hread).
Defined.
